(** * gpu-admission: a shallow embedding of the GPU scheduler extender

    The embedding follows the layout of the Go repository:
    - [Go]            machine integers, panics, and the few [strings] and
                      [strconv] routines the code calls;
    - [K8s]           the parts of pods, nodes and containers that are read;
    - [util]          pkg/util/util.go (resource accessors, annotation
                      parsing, [DeviceInfo]);
    - [device]        pkg/device (NodeInfo, comparators, sorting);
    - [algorithm]     pkg/algorithm (share mode, exclusive mode, allocator);
    - [kube]          the lister and patch calls and the node walk shared by
                      both revisions of the predicate;
    - [predicate_v1]  pkg/predicate, the plain device filter;
    - [predicate]     pkg/predicate, the quota-aware filter;
    - [prioritize]    pkg/prioritize (CPUNodeFirst);
    - [main]          the normalisation of flag names in main.go.

    It is followed by the vocabulary in which the properties are stated
    ([DeviceSpec], [NodeInfoSpec], [OrderSpec], [AllocatorSpec],
    [FilterSpec], [QuotaSpec], [CodecSpec], [ViewSpec]), by the fixtures of
    the repository's tests ([Scenario], [Fixtures]), and then by the
    properties themselves: one module per package with the evaluated
    scenarios ([ScenarioProps]), then the index annotations ([CodecProps]),
    the accounts of a view ([ViewProps]), the allocator and its replay
    ([AllocateProps], [RequestProps], [ComparatorProps], [AnnotationProps]),
    the prioritizer and the flags ([PrioritizeProps], [FlagProps]), the
    filter as a whole ([PipelineProps]) and their instances on the scenario
    ([FixtureProps]).

    Go's [int] and [uint] are 64 bit on the supported platforms; they are
    modelled as [Z] with the wrap-around written out. *)

From Stdlib Require Import ZArith Lia Bool Ascii String.
From stdpp Require Import base option list list_numbers gmap strings fin_maps sorting pretty.

Local Open Scope string_scope.
Local Open Scope list_scope.
Local Open Scope Z_scope.

(* ===================================================================== *)
(** ** Go runtime model *)
(* ===================================================================== *)

Module Go.

(** [uint(x)]: reduction modulo 2^64. *)
Definition to_uint (z : Z) : Z := z mod 2 ^ 64.

(** [int(x)]: two's complement reading of the low 64 bits. *)
Definition to_int (z : Z) : Z := (z + 2 ^ 63) mod 2 ^ 64 - 2 ^ 63.

Definition uadd (a b : Z) : Z := to_uint (a + b).
Definition usub (a b : Z) : Z := to_uint (a - b).
Definition iadd (a b : Z) : Z := to_int (a + b).
Definition isub (a b : Z) : Z := to_int (a - b).
Definition imul (a b : Z) : Z := to_int (a * b).

Definition is_uint (z : Z) : Prop := 0 <= z < 2 ^ 64.
Definition is_int (z : Z) : Prop := - 2 ^ 63 <= z < 2 ^ 63.

(** Run-time panics the modelled code can raise. *)
Inductive panic : Type :=
  | DivideByZero
  | NilDereference
  | MakeSliceLen.

(** A Go computation either finishes with a value or panics. *)
Inductive exec (A : Type) : Type :=
  | Done (a : A)
  | Panicked (p : panic).
Arguments Done {A} a.
Arguments Panicked {A} p.

Definition exec_bind {A B} (f : A -> exec B) (m : exec A) : exec B :=
  match m with
  | Done a => f a
  | Panicked p => Panicked p
  end.

(** [a / b] on [uint]. *)
Definition udiv (a b : Z) : exec Z :=
  if b =? 0 then Panicked DivideByZero else Done (a / b).

(** [a / b] on [int]: truncation toward zero. *)
Definition idiv (a b : Z) : exec Z :=
  if b =? 0 then Panicked DivideByZero else Done (to_int (Z.quot a b)).

(** [strings.Contains(s, sub)]. *)
Fixpoint Contains (s sub : string) : bool :=
  String.prefix sub s ||
  match s with
  | EmptyString => false
  | String _ s' => Contains s' sub
  end.

(** [strings.Split(s, ",")]. *)
Fixpoint SplitComma (s : string) : list string :=
  match s with
  | EmptyString => [EmptyString]
  | String c s' =>
      if Ascii.eqb c "," then EmptyString :: SplitComma s'
      else match SplitComma s' with
           | [] => [String c EmptyString]
           | w :: ws => String c w :: ws
           end
  end.

(** [strings.Join(l, ",")]. *)
Fixpoint JoinComma (l : list string) : string :=
  match l with
  | [] => EmptyString
  | [w] => w
  | w :: ws => w +:+ "," +:+ JoinComma ws
  end.

(** [strconv.Itoa]. *)
Definition Itoa (z : Z) : string := pretty z.

Definition digit_of (c : ascii) : option Z :=
  let n := Z.of_N (N_of_ascii c) in
  if (48 <=? n) && (n <=? 57) then Some (n - 48) else None.

Fixpoint digits_go (acc : Z) (s : string) : option Z :=
  match s with
  | EmptyString => Some acc
  | String c s' =>
      match digit_of c with
      | Some d => digits_go (10 * acc + d) s'
      | None => None
      end
  end.

Definition digits (s : string) : option Z :=
  match s with
  | EmptyString => None
  | _ => digits_go 0 s
  end.

(** [strconv.Atoi]: an optional sign, at least one decimal digit, and a
    value that fits [int]; [None] stands for the returned error. *)
Definition Atoi (s : string) : option Z :=
  let signed :=
    match s with
    | String "-" s' => (fun n => - n) <$> digits s'
    | String "+" s' => digits s'
    | _ => digits s
    end in
  match signed with
  | Some n => if (- 2 ^ 63 <=? n) && (n <? 2 ^ 63) then Some n else None
  | None => None
  end.

(** Which of its two errors Atoi returns for a string it rejects: the
    scan of [strconv.ParseUint] goes through the digits from the left and
    stops with a syntax error at the first byte that is no digit and with
    a range error as soon as the value leaves [uint64]; digits that are
    read to the end stand for a value that does not fit [int]. *)
Fixpoint scanError (n : Z) (s : string) : string :=
  match s with
  | EmptyString => "value out of range"
  | String c s' =>
      match digit_of c with
      | None => "invalid syntax"
      | Some d =>
          if (2 ^ 64 - 1) / 10 + 1 <=? n then "value out of range"
          else if 2 ^ 64 - 1 <? 10 * n + d then "value out of range"
          else scanError (10 * n + d) s'
      end
  end.

Definition atoiError (s : string) : string :=
  match s with
  | EmptyString => "invalid syntax"
  | String "-" EmptyString | String "+" EmptyString => "invalid syntax"
  | String "-" s' | String "+" s' => scanError 0 s'
  | _ => scanError 0 s
  end.

Definition hexDigit (n : N) : ascii :=
  ascii_of_N (if (n <? 10)%N then 48 + n else 87 + n).

(** [strconv.Quote], byte by byte: the quote and the backslash are
    escaped with a backslash, the other printable ASCII bytes stand for
    themselves, the control bytes are written with their letter or as
    [\x] and two hexadecimal digits. Bytes above 0x7F are kept, as Quote
    does for the printable runes of valid UTF-8; its escapes for other
    runes are not modelled. *)
Definition quoteByte (c : ascii) : string :=
  let n := N_of_ascii c in
  let backslash := ascii_of_N 92 in
  if (n =? 34)%N || (n =? 92)%N then String backslash (String c EmptyString)
  else if (n =? 7)%N then String backslash "a"
  else if (n =? 8)%N then String backslash "b"
  else if (n =? 12)%N then String backslash "f"
  else if (n =? 10)%N then String backslash "n"
  else if (n =? 13)%N then String backslash "r"
  else if (n =? 9)%N then String backslash "t"
  else if (n =? 11)%N then String backslash "v"
  else if (n <? 32)%N || (n =? 127)%N
  then String backslash
         (String "x" (String (hexDigit (n / 16)) (String (hexDigit (n mod 16)) EmptyString)))
  else String c EmptyString.

Fixpoint quoteBytes (s : string) : string :=
  match s with
  | EmptyString => EmptyString
  | String c s' => quoteByte c +:+ quoteBytes s'
  end.

Definition Quote (s : string) : string :=
  String (ascii_of_N 34) (quoteBytes s +:+ String (ascii_of_N 34) EmptyString).

(** The message of the [*strconv.NumError] that Atoi returns for [s]. *)
Definition AtoiError (s : string) : string :=
  "strconv.Atoi: parsing " +:+ Quote s +:+ ": " +:+ atoiError s.

(** [strings.Replace(s, old, new, -1)] for one-byte [old] and [new]: every
    occurrence of the byte is replaced. *)
Fixpoint ReplaceByte (s : string) (old new : ascii) : string :=
  match s with
  | EmptyString => EmptyString
  | String c s' =>
      String (if Ascii.eqb c old then new else c) (ReplaceByte s' old new)
  end.

End Go.

Export Go.

Global Instance exec_ret : MRet exec := fun _ a => Done a.
Global Instance exec_mbind : MBind exec := fun _ _ f m => exec_bind f m.

(* ===================================================================== *)
(** ** Cluster objects *)
(* ===================================================================== *)

Module K8s.

Inductive PodPhase : Type :=
  | PodPending | PodRunning | PodSucceeded | PodFailed | PodUnknown.

Global Instance PodPhase_eq_dec : EqDecision PodPhase.
Proof. solve_decision. Defined.

(** A container: its name and [Resources.Limits]; a quantity is kept as the
    [int64] that [Quantity.Value()] returns. *)
Record Container : Type := mkContainer {
  cName : string;
  cLimits : gmap string Z;
}.

Record Pod : Type := mkPod {
  podName : string;
  podNamespace : string;
  podUID : string;
  podAnnotations : gmap string string;
  podNodeName : string;            (* Spec.NodeName *)
  podContainers : list Container;  (* Spec.Containers *)
  podPhase : PodPhase;             (* Status.Phase *)
}.

Record Node : Type := mkNode {
  nodeName : string;
  nodeLabels : gmap string string;
  nodeCapacity : gmap string Z;    (* Status.Capacity *)
}.

End K8s.

Export K8s.

(* ===================================================================== *)
(** ** pkg/util *)
(* ===================================================================== *)

Module util.

Definition VCoreAnnotation : string := "tencent.com/vcuda-core".
Definition VMemoryAnnotation : string := "tencent.com/vcuda-memory".
Definition PredicateTimeAnnotation : string := "tencent.com/predicate-time".
Definition PredicateGPUIndexPrefix : string := "tencent.com/predicate-gpu-idx-".
Definition PredicateNode : string := "tencent.com/predicate-node".
Definition GPUAssigned : string := "tencent.com/gpu-assigned".
Definition HundredCore : Z := 100.

(** Go's [error] values are kept as their messages. *)
Definition error : Type := string.

(** GetGPUResourceOfContainer: the limit of one container, as [uint]. *)
Definition GetGPUResourceOfContainer (container : Container) (resourceName : string) : Z :=
  match cLimits container !! resourceName with
  | Some val => to_uint val
  | None => 0
  end.

(** GetGPUResourceOfPod: the [uint] sum over the pod's containers. *)
Definition GetGPUResourceOfPod (pod : Pod) (resourceName : string) : Z :=
  foldl (fun total container =>
           match cLimits container !! resourceName with
           | Some val => uadd total (to_uint val)
           | None => total
           end) 0 (podContainers pod).

Definition IsGPURequiredPod (pod : Pod) : bool :=
  let vcore := GetGPUResourceOfPod pod VCoreAnnotation in
  let vmemory := GetGPUResourceOfPod pod VMemoryAnnotation in
  if (vcore <=? 0) || ((vcore <? HundredCore) && (vmemory <=? 0)) then false else true.

Definition IsGPURequiredContainer (c : Container) : bool :=
  let vcore := GetGPUResourceOfContainer c VCoreAnnotation in
  let vmemory := GetGPUResourceOfContainer c VMemoryAnnotation in
  if (vcore <=? 0) || ((vcore <? HundredCore) && (vmemory <=? 0)) then false else true.

(** GetCapacityOfNode: an [int]. *)
Definition GetCapacityOfNode (node : Node) (resourceName : string) : Z :=
  match nodeCapacity node !! resourceName with
  | None => 0
  | Some val => to_int val
  end.

Definition IsGPUEnabledNode (node : Node) : bool :=
  0 <? GetCapacityOfNode node VCoreAnnotation.

(** GetGPUDeviceCountOfNode: [int(val.Value()) / HundredCore], Go's
    truncating division by a non-zero constant. *)
Definition GetGPUDeviceCountOfNode (node : Node) : Z :=
  match nodeCapacity node !! VCoreAnnotation with
  | None => 0
  | Some val => Z.quot (to_int val) HundredCore
  end.

(** The loop of GetPredicateIdxOfContainer: the indices parsed so far are
    returned together with the first conversion error. *)
Fixpoint parseIndexes (ret : list Z) (strs : list string) : list Z * option error :=
  match strs with
  | [] => (ret, None)
  | indexStr :: rest =>
      match Atoi indexStr with
      | None => (ret, Some (AtoiError indexStr))
      | Some index => parseIndexes (ret ++ [index]) rest
      end
  end.

Definition GetPredicateIdxOfContainer (pod : Pod) (containerIndex : Z)
  : list Z * option error :=
  match podAnnotations pod !! (PredicateGPUIndexPrefix +:+ Itoa containerIndex) with
  | None => ([], Some ("predicate index for container " +:+ Itoa containerIndex
                        +:+ " of pod " +:+ podUID pod +:+ " not found"))
  | Some predicateIndexes => parseIndexes [] (SplitComma predicateIndexes)
  end.

(** Errors of the API server, as far as [ShouldRetry] tells them apart. *)
Inductive apiError : Type :=
  | Conflict
  | ServerTimeout
  | OtherError (msg : string).

Definition ShouldRetry (err : apiError) : bool :=
  match err with
  | Conflict | ServerTimeout => true
  | OtherError _ => false
  end.

Record DeviceInfo : Type := mkDeviceInfo {
  id : Z;             (* int *)
  totalMemory : Z;    (* uint *)
  usedMemory : Z;     (* uint *)
  usedCore : Z;       (* uint *)
}.

Definition newDeviceInfo (id : Z) (totalMemory : Z) : DeviceInfo :=
  {| id := id; totalMemory := totalMemory; usedMemory := 0; usedCore := 0 |}.

Definition GetID (dev : DeviceInfo) : Z := id dev.

(** DeviceInfo.AddUsedResources: the returned error (if any) and the device
    as the call leaves it. *)
Definition AddUsedResources (dev : DeviceInfo) (usedCore' usedMemory' : Z)
  : option error * DeviceInfo :=
  if HundredCore <? uadd usedCore' (usedCore dev) then
    (Some ("update usedcore failed, request: " +:+ Itoa usedCore'
           +:+ ", already used: " +:+ Itoa (usedCore dev)), dev)
  else if totalMemory dev <? uadd usedMemory' (usedMemory dev) then
    (Some ("update usedmemory failed, request: " +:+ Itoa usedMemory'
           +:+ ", already used: " +:+ Itoa (usedMemory dev)), dev)
  else
    (None, {| id := id dev;
              totalMemory := totalMemory dev;
              usedMemory := uadd (usedMemory dev) usedMemory';
              usedCore := uadd (usedCore dev) usedCore' |}).

Definition AllocatableCores (d : DeviceInfo) : Z := usub HundredCore (usedCore d).
Definition AllocatableMemory (d : DeviceInfo) : Z := usub (totalMemory d) (usedMemory d).

End util.

(* ===================================================================== *)
(** ** pkg/device *)
(* ===================================================================== *)

Module device.
Import util.

Record NodeInfo : Type := mkNodeInfo {
  name : string;
  node : Node;
  devs : gmap Z DeviceInfo;
  deviceCount : Z;     (* int *)
  totalMemory : Z;     (* uint *)
  usedCore : Z;        (* uint *)
  usedMemory : Z;      (* uint *)
}.

(** NodeInfo.AddUsedResources: [n.devs[devID]] is a nil pointer when the key
    is absent, and the method call on it dereferences it. *)
Definition AddUsedResources (n : NodeInfo) (devID : Z) (vcore vmemory : Z)
  : exec (option error * NodeInfo) :=
  match devs n !! devID with
  | None => Panicked NilDereference
  | Some dev =>
      let '(err, dev') := util.AddUsedResources dev vcore vmemory in
      let n' := {| name := name n; node := node n;
                   devs := <[devID := dev']> (devs n);
                   deviceCount := deviceCount n; totalMemory := totalMemory n;
                   usedCore := usedCore n; usedMemory := usedMemory n |} in
      match err with
      | Some e => Done (Some e, n')
      | None =>
          Done (None, {| name := name n'; node := node n'; devs := devs n';
                         deviceCount := deviceCount n'; totalMemory := totalMemory n';
                         usedCore := uadd (usedCore n') vcore;
                         usedMemory := uadd (usedMemory n') vmemory |})
      end
  end.

(** A loop whose body may panic. *)
Fixpoint forE {S A : Type} (body : S -> A -> exec S) (s : S) (l : list A) : exec S :=
  match l with
  | [] => Done s
  | a :: l' => s' ← body s a; forE body s' l'
  end.

(** The body of the innermost loop of NewNodeInfo, for one parsed index. *)
Definition replayIndex (deviceCount deviceTotalMemory : Z) (c : Container)
    (ret : NodeInfo) (index : Z) : exec NodeInfo :=
  if deviceCount <=? index then Done ret
  else
    let vcore := GetGPUResourceOfContainer c VCoreAnnotation in
    let '(vcore, vmemory) :=
      if vcore <? HundredCore
      then (vcore, GetGPUResourceOfContainer c VMemoryAnnotation)
      else (HundredCore, deviceTotalMemory) in
    '(_, ret') ← AddUsedResources ret index vcore vmemory;
    Done ret'.

(** The loop over [pod.Spec.Containers]; [i] is the container's position. *)
Definition replayContainer (deviceCount deviceTotalMemory : Z) (pod : Pod)
    (ret : NodeInfo) (ic : Z * Container) : exec NodeInfo :=
  let '(i, c) := ic in
  match GetPredicateIdxOfContainer pod i with
  | (_, Some _) => Done ret
  | (predicateIndexes, None) =>
      forE (replayIndex deviceCount deviceTotalMemory c) ret predicateIndexes
  end.

Definition indexed {A} (l : list A) : list (Z * A) :=
  zip (seqZ 0 (Z.of_nat (length l))) l.

Definition replayPod (deviceCount deviceTotalMemory : Z)
    (ret : NodeInfo) (pod : Pod) : exec NodeInfo :=
  forE (replayContainer deviceCount deviceTotalMemory pod) ret
       (indexed (podContainers pod)).

Definition NewNodeInfo (node : Node) (pods : list Pod) : exec NodeInfo :=
  let nodeTotalMemory := to_uint (GetCapacityOfNode node VMemoryAnnotation) in
  let deviceCount := GetGPUDeviceCountOfNode node in
  deviceTotalMemory ← udiv nodeTotalMemory (to_uint deviceCount);
  let devMap : gmap Z DeviceInfo :=
    list_to_map ((fun i => (i, newDeviceInfo i deviceTotalMemory))
                   <$> seqZ 0 deviceCount) in
  let ret := {| name := nodeName node; node := node; devs := devMap;
                deviceCount := deviceCount; totalMemory := nodeTotalMemory;
                usedCore := 0; usedMemory := 0 |} in
  forE (replayPod deviceCount deviceTotalMemory) ret pods.

Definition GetDeviceCount (n : NodeInfo) : Z := deviceCount n.
Definition GetDeviceMap (n : NodeInfo) : gmap Z DeviceInfo := devs n.
Definition GetNode (n : NodeInfo) : Node := node n.
Definition GetName (n : NodeInfo) : string := name n.

Definition GetAvailableCore (n : NodeInfo) : Z :=
  isub (imul (deviceCount n) HundredCore) (to_int (usedCore n)).

Definition GetAvailableMemory (n : NodeInfo) : Z :=
  to_int (usub (totalMemory n) (usedMemory n)).

(** [LessFunc]: the three comparators take either two devices or two nodes;
    the type switch of the source becomes an instance per type. *)
Class LessFuncs (A : Type) : Type := {
  ByAllocatableCores : A -> A -> bool;
  ByAllocatableMemory : A -> A -> bool;
  ByID : A -> A -> bool;
}.

Global Instance DeviceInfo_less : LessFuncs DeviceInfo := {|
  ByAllocatableCores d1 d2 := AllocatableCores d1 <? AllocatableCores d2;
  ByAllocatableMemory d1 d2 := AllocatableMemory d1 <? AllocatableMemory d2;
  ByID d1 d2 := GetID d1 <? GetID d2;
|}.

Global Instance NodeInfo_less : LessFuncs NodeInfo := {|
  ByAllocatableCores n1 n2 := GetAvailableCore n1 <? GetAvailableCore n2;
  ByAllocatableMemory n1 n2 := GetAvailableMemory n1 <? GetAvailableMemory n2;
  ByID n1 n2 := String.ltb (GetName n1) (GetName n2);
|}.

(** The [Less] method shared by nodeInfoPriority, shareModePriority and
    exclusiveModePriority: all comparators but the last decide when they
    tell the two elements apart, the last one decides otherwise. *)
Fixpoint Less {A} (less : list (A -> A -> bool)) (x y : A) : bool :=
  match less with
  | [] => false
  | [l] => l x y
  | l :: rest =>
      if l x y then true
      else if l y x then false
      else Less rest x y
  end.

(** [sort.Sort] with the given [Less]: ascending, i.e. no element is
    followed by one that is less than it.  Go's sort is not stable; the
    model sorts by merging, and the two agree wherever the last key is a
    tie-breaker without duplicates (device ids, node names). *)
Definition notAfter {A} (less : list (A -> A -> bool)) (x y : A) : Prop :=
  Less less y x = false.

Global Instance notAfter_dec {A} (less : list (A -> A -> bool)) (x y : A) :
  Decision (notAfter less x y).
Proof. unfold notAfter. apply _. Defined.

Definition Sort {A} (less : list (A -> A -> bool)) (data : list A) : list A :=
  merge_sort (notAfter less) data.

Definition priority {A} `{LessFuncs A} : list (A -> A -> bool) :=
  [ByAllocatableCores; ByAllocatableMemory; ByID].

(** [NodeInfoSort(ByAllocatableCores, ByAllocatableMemory, ByID).Sort]. *)
Definition NodeInfoSort (data : list NodeInfo) : list NodeInfo :=
  Sort priority data.

End device.

(* ===================================================================== *)
(** ** pkg/algorithm *)
(* ===================================================================== *)

Module algorithm.
Import util device.

(** The prologue shared by both Evaluate methods:
    [tmpStore = make([]*DeviceInfo, deviceCount)] filled with
    [GetDeviceMap()[i]]. A negative length faults in [make]; an absent key
    leaves a nil pointer that the comparators and the scan dereference. *)
Definition tmpStore (n : NodeInfo) : exec (list DeviceInfo) :=
  let deviceCount := GetDeviceCount n in
  if deviceCount <? 0 then Panicked MakeSliceLen
  else match mapM (fun i => GetDeviceMap n !! i) (seqZ 0 deviceCount) with
       | Some store => Done store
       | None => Panicked NilDereference
       end.

(** The scan of shareMode.Evaluate: append the first fitting device, break. *)
Fixpoint pickShare (cores memory : Z) (store : list DeviceInfo) : list DeviceInfo :=
  match store with
  | [] => []
  | dev :: rest =>
      if (cores <=? AllocatableCores dev) && (memory <=? AllocatableMemory dev)
      then [dev]
      else pickShare cores memory rest
  end.

Module shareMode.
Definition Evaluate (n : NodeInfo) (cores memory : Z) : exec (list DeviceInfo) :=
  store ← tmpStore n;
  Done (pickShare cores memory (Sort priority store)).
End shareMode.

(** The scan of exclusiveMode.Evaluate; returns [devs] and what is left of
    [num]. *)
Fixpoint pickExclusive (num : Z) (devs : list DeviceInfo) (store : list DeviceInfo)
  : list DeviceInfo * Z :=
  match store with
  | [] => (devs, num)
  | dev :: rest =>
      if num =? 0 then (devs, num)
      else if AllocatableCores dev =? HundredCore
           then pickExclusive (num - 1) (devs ++ [dev]) rest
           else pickExclusive num devs rest
  end.

Module exclusiveMode.
Definition Evaluate (n : NodeInfo) (cores memory : Z) : exec (list DeviceInfo) :=
  store ← tmpStore n;
  let num := to_int (cores / HundredCore) in
  let '(devs, num) := pickExclusive num [] (Sort priority store) in
  if 0 <? num then Done [] else Done devs.
End exclusiveMode.

(** What a fallible method leaves behind: its result or error, and the
    NodeInfo the allocator holds (charges are never rolled back). *)
Inductive result (A : Type) : Type :=
  | Ok (a : A)
  | Fail (err : error).
Arguments Ok {A} a.
Arguments Fail {A} err.

(** The charging loop of AllocateOne. *)
Fixpoint chargeAll (n : NodeInfo) (vcore vmemory : Z) (devs : list DeviceInfo)
  : exec (option error * NodeInfo) :=
  match devs with
  | [] => Done (None, n)
  | dev :: rest =>
      '(err, n') ← AddUsedResources n (GetID dev) vcore vmemory;
      match err with
      | Some e => Done (Some e, n')
      | None => chargeAll n' vcore vmemory rest
      end
  end.

Definition AllocateOne (nodeInfo : NodeInfo) (container : Container)
  : exec (result (list DeviceInfo) * NodeInfo) :=
  let node := GetNode nodeInfo in
  let nodeTotalMemory := GetCapacityOfNode node VMemoryAnnotation in
  let deviceCount := GetGPUDeviceCountOfNode node in
  q ← idiv nodeTotalMemory deviceCount;
  let deviceTotalMemory := to_uint q in
  let needCores := GetGPUResourceOfContainer container VCoreAnnotation in
  let needMemory := GetGPUResourceOfContainer container VMemoryAnnotation in
  let sharedMode := needCores <? HundredCore in
  devs ← (if sharedMode
          then shareMode.Evaluate nodeInfo needCores needMemory
          else exclusiveMode.Evaluate nodeInfo needCores needMemory);
  if (length devs =? 0)%nat then
    Done (Fail ("failed to allocate for container " +:+ cName container), nodeInfo)
  else
    let '(vcore, vmemory) :=
      if sharedMode then (needCores, needMemory)
      else (HundredCore, deviceTotalMemory) in
    '(err, nodeInfo') ← chargeAll nodeInfo vcore vmemory devs;
    match err with
    | Some e => Done (Fail e, nodeInfo')
    | None => Done (Ok devs, nodeInfo')
    end.

(** The loop of Allocate over the containers of the copied pod; the state is
    the annotation map being filled and the NodeInfo. *)
Fixpoint allocateContainers (nodeInfo : NodeInfo) (annotations : gmap string string)
    (cs : list (Z * Container)) : exec (result (gmap string string) * NodeInfo) :=
  match cs with
  | [] => Done (Ok annotations, nodeInfo)
  | (i, c) :: rest =>
      if negb (IsGPURequiredContainer c) then allocateContainers nodeInfo annotations rest
      else
        '(r, nodeInfo') ← AllocateOne nodeInfo c;
        match r with
        | Fail err => Done (Fail err, nodeInfo')
        | Ok devs =>
            let devIDs := (fun dev => Itoa (GetID dev)) <$> devs in
            allocateContainers nodeInfo'
              (<[PredicateGPUIndexPrefix +:+ Itoa i := JoinComma devIDs]> annotations)
              rest
        end
  end.

(** Allocate; [now] is [time.Now().UnixNano()]. *)
Definition Allocate (now : Z) (nodeInfo : NodeInfo) (pod : Pod)
  : exec (result Pod * NodeInfo) :=
  '(r, nodeInfo') ← allocateContainers nodeInfo (podAnnotations pod)
                      (indexed (podContainers pod));
  match r with
  | Fail err => Done (Fail err, nodeInfo')
  | Ok annotations =>
      let annotations := <[PredicateNode := GetName nodeInfo']> annotations in
      let annotations := <[GPUAssigned := "false"]> annotations in
      let annotations := <[PredicateTimeAnnotation := Itoa now]> annotations in
      Done (Ok {| podName := podName pod; podNamespace := podNamespace pod;
                  podUID := podUID pod; podAnnotations := annotations;
                  podNodeName := podNodeName pod;
                  podContainers := podContainers pod;
                  podPhase := podPhase pod |}, nodeInfo')
  end.

(** The loop of IsAllocatable; the charges of the containers that were
    allocated stay on the NodeInfo. *)
Fixpoint isAllocatableContainers (nodeInfo : NodeInfo) (cs : list Container)
  : exec (bool * NodeInfo) :=
  match cs with
  | [] => Done (true, nodeInfo)
  | c :: rest =>
      if negb (IsGPURequiredContainer c) then isAllocatableContainers nodeInfo rest
      else
        '(r, nodeInfo') ← AllocateOne nodeInfo c;
        match r with
        | Fail _ => Done (false, nodeInfo')
        | Ok _ => isAllocatableContainers nodeInfo' rest
        end
  end.

Definition IsAllocatable (nodeInfo : NodeInfo) (pod : Pod) : exec (bool * NodeInfo) :=
  isAllocatableContainers nodeInfo (podContainers pod).

End algorithm.

(* ===================================================================== *)
(** ** pkg/predicate: what both revisions of the filter share *)
(* ===================================================================== *)

Module kube.
Import util device algorithm.

(** The cluster as one admission request sees it: the pod and node listers
    (informer caches) and the API server's answer to the k-th Patch request
    ([None] is success). *)
Record Cluster : Type := mkCluster {
  podLister : result (list Pod);
  nodeLister : result (list Node);
  patchReply : nat -> option apiError;
}.

(** What [wait.PollImmediate] returns besides nil. *)
Inductive pollError : Type :=
  | ConditionError (err : apiError)
  | ErrWaitTimeout.

(** The calls of the condition that [wait.PollImmediate] has still to
    make, [calls] of them: a call that succeeds or returns an error ends
    the wait, a call that asks for a retry leads to the next one, and after
    the last one the wait times out. The state is the number of Patch
    requests sent so far. *)
Fixpoint pollTicks (cluster : Cluster) (calls : nat) (sent : nat)
  : option pollError * nat :=
  match calls with
  | O => (Some ErrWaitTimeout, sent)
  | S calls' =>
      match patchReply cluster sent with
      | None => (None, S sent)
      | Some err =>
          if ShouldRetry err then pollTicks cluster calls' (S sent)
          else (Some (ConditionError err), S sent)
      end
  end.

(** [wait.PollImmediate(time.Second, waitTimeout, ...)] around the Patch
    call; [ticks] is the number of ticks the poller delivers within
    [waitTimeout]. The condition is called at once, then once per tick,
    and [WaitFor] calls it one last time when it finds the poller's channel
    closed, before it gives up with [ErrWaitTimeout]: [ticks + 2] calls at
    most. *)
Definition PollImmediate (cluster : Cluster) (ticks : nat) (sent : nat)
  : option pollError * nat :=
  pollTicks cluster (S (S ticks)) sent.

Definition pollErrorText (e : pollError) : string :=
  match e with
  | ErrWaitTimeout => "timed out waiting for the condition"
  | ConditionError Conflict => "conflict"
  | ConditionError ServerTimeout => "server timeout"
  | ConditionError (OtherError msg) => msg
  end.

(** patchPodWithAnnotations: nil, or the error built from the failed wait
    (the rendering of the annotation map in the message is left out). *)
Definition patchPodWithAnnotations (cluster : Cluster) (ticks : nat)
    (pod : Pod) (annotationMap : gmap string string) (sent : nat)
  : option error * nat :=
  match PollImmediate cluster ticks sent with
  | (None, sent') => (None, sent')
  | (Some err, sent') =>
      (Some ("failed to add annotation to pod " +:+ podUID pod +:+ " due to "
             +:+ pollErrorText err), sent')
  end.

(** ListPodsOnNode. *)
Definition onNode (node : Node) (pod : Pod) : bool :=
  let predicateNode :=
    if String.eqb (podNodeName pod) ""
    then default "" (podAnnotations pod !! PredicateNode)
    else "" in
  (String.eqb (podNodeName pod) (nodeName node)
   || String.eqb predicateNode (nodeName node))
  && negb (bool_decide (podPhase pod = PodSucceeded))
  && negb (bool_decide (podPhase pod = PodFailed)).

Definition ListPodsOnNode (cluster : Cluster) (node : Node) : result (list Pod) :=
  match podLister cluster with
  | Fail err => Fail err
  | Ok pods => Ok (List.filter (onNode node) pods)
  end.

(** The guard at the head of deviceFilter: some annotation key of the pod
    contains one of the three predicate substrings. *)
Definition predicateKey (k : string) : bool :=
  Contains k GPUAssigned
  || Contains k PredicateTimeAnnotation
  || Contains k PredicateGPUIndexPrefix.

Definition predicated (pod : Pod) : bool :=
  existsb predicateKey (map_to_list (podAnnotations pod)).*1.

(** First loop of deviceFilter: a NodeInfo per GPU node, a reason for the
    others. *)
Fixpoint collectNodeInfos (cluster : Cluster) (nodes : list Node)
    (failedNodesMap : gmap string string) (nodeInfoList : list NodeInfo)
  : exec (gmap string string * list NodeInfo) :=
  match nodes with
  | [] => Done (failedNodesMap, nodeInfoList)
  | node :: rest =>
      if negb (IsGPUEnabledNode node) then
        collectNodeInfos cluster rest
          (<[nodeName node := "no GPU device"]> failedNodesMap) nodeInfoList
      else
        match ListPodsOnNode cluster node with
        | Fail _ =>
            collectNodeInfos cluster rest
              (<[nodeName node := "failed to get pods on node"]> failedNodesMap)
              nodeInfoList
        | Ok pods =>
            nodeInfo ← NewNodeInfo node pods;
            collectNodeInfos cluster rest failedNodesMap (nodeInfoList ++ [nodeInfo])
        end
  end.

(** The variables the second loop of deviceFilter updates, and the number
    of Patch requests sent. *)
Record walk : Type := mkWalk {
  filteredNodes : list Node;
  failedNodesMap : gmap string string;
  success : bool;
  sent : nat;
}.

Definition markFailed (w : walk) (node : Node) (reason : string) : walk :=
  {| filteredNodes := filteredNodes w;
     failedNodesMap := <[nodeName node := reason]> (failedNodesMap w);
     success := success w; sent := sent w |}.

Definition patchKey (k : string) : bool :=
  Contains k GPUAssigned
  || Contains k PredicateTimeAnnotation
  || Contains k PredicateGPUIndexPrefix
  || Contains k PredicateNode.

(** One iteration of the second loop of deviceFilter. *)
Definition tryNode (cluster : Cluster) (ticks : nat) (now : Z) (pod : Pod)
    (w : walk) (nodeInfo : NodeInfo) : exec walk :=
  let node := GetNode nodeInfo in
  if success w then
    Done (markFailed w node
            ("pod " +:+ podUID pod +:+ " has already been matched to another node"))
  else
    '(r, _) ← Allocate now nodeInfo pod;
    match r with
    | Fail _ =>
        Done (markFailed w node
                ("pod " +:+ podUID pod +:+ " does not match with this node"))
    | Ok newPod =>
        let annotationMap :=
          filter (fun kv => patchKey kv.1 = true) (podAnnotations newPod) in
        match patchPodWithAnnotations cluster ticks newPod annotationMap (sent w) with
        | (Some _, sent') =>
            Done (markFailed {| filteredNodes := filteredNodes w;
                                failedNodesMap := failedNodesMap w;
                                success := success w; sent := sent' |}
                             node "update pod annotation failed")
        | (None, sent') =>
            Done {| filteredNodes := filteredNodes w ++ [node];
                    failedNodesMap := failedNodesMap w;
                    success := true; sent := sent' |}
        end
    end.

(** deviceFilter after the already-predicated guard. *)
Definition deviceFilterNodes (cluster : Cluster) (ticks : nat) (now : Z)
    (pod : Pod) (nodes : list Node) (sent : nat) : exec walk :=
  '(failed, nodeInfoList) ← collectNodeInfos cluster nodes ∅ [];
  forE (tryNode cluster ticks now pod)
       {| filteredNodes := []; failedNodesMap := failed;
          success := false; sent := sent |}
       (NodeInfoSort nodeInfoList).

(** What a [filterFunc] returns. *)
Record filterResult : Type := mkFilterResult {
  passedNodes : list Node;
  failedNodes : gmap string string;
  err : option error;
}.

(** [ExtenderFilterResult]; [None] is a nil NodeList or a nil map. *)
Record ExtenderFilterResult : Type := mkExtenderFilterResult {
  Nodes : option (list Node);
  FailedNodes : option (gmap string string);
  Error : string;
}.

(** The loop of Filter over its [filters]. *)
Fixpoint runFilters (filters : list (list Node -> nat -> exec (filterResult * nat)))
    (filteredNodes : list Node) (failedNodesMap : gmap string string) (sent : nat)
  : exec (ExtenderFilterResult * nat) :=
  match filters with
  | [] => Done ({| Nodes := Some filteredNodes;
                   FailedNodes := Some failedNodesMap;
                   Error := "" |}, sent)
  | filter :: rest =>
      '(r, sent') ← filter filteredNodes sent;
      match err r with
      | Some e => Done ({| Nodes := None; FailedNodes := None; Error := e |}, sent')
      | None =>
          runFilters rest (passedNodes r) (failedNodes r ∪ failedNodesMap) sent'
      end
  end.

End kube.

(* ===================================================================== *)
(** ** pkg/predicate, revision without quota (extender/v1) *)
(* ===================================================================== *)

Module predicate_v1.
Import util device algorithm kube.

Section GPUFilter.
Context (cluster : Cluster) (ticks : nat) (now : Z).

Definition deviceFilter (pod : Pod) (nodes : list Node) (sent : nat)
  : exec (filterResult * nat) :=
  if predicated pod then
    Done ({| passedNodes := []; failedNodes := ∅;
             err := Some ("pod " +:+ podName pod +:+ " had been predicated!") |},
          sent)
  else
    w ← deviceFilterNodes cluster ticks now pod nodes sent;
    Done ({| passedNodes := filteredNodes w;
             failedNodes := failedNodesMap w;
             err := None |}, kube.sent w).

Definition Filter (pod : Pod) (nodes : list Node) (sent : nat)
  : exec (ExtenderFilterResult * nat) :=
  if negb (IsGPURequiredPod pod) then
    Done ({| Nodes := Some nodes; FailedNodes := None; Error := "" |}, sent)
  else
    runFilters [deviceFilter pod] nodes ∅ sent.
End GPUFilter.

End predicate_v1.

(* ===================================================================== *)
(** ** pkg/predicate, revision with namespace quota *)
(* ===================================================================== *)

Module predicate.
Import util device algorithm kube.

Record GPUFilterConfig : Type := mkGPUFilterConfig {
  QuotaConfigMapName : string;
  QuotaConfigMapNamespace : string;
  GPUModelLabel : string;
  GPUPoolLabel : string;
}.

Record NamespaceQuota : Type := mkNamespaceQuota {
  Quota : gmap string Z;   (* GPU model -> limit, an int *)
  Pool : list string;
}.

(** The fields of GPUFilter that change after construction. *)
Record GPUFilter : Type := mkGPUFilter {
  quota : gmap string NamespaceQuota;
  quotaLastSyncedRevision : string;
}.

(** The filter as newGPUFilter leaves it. *)
Definition newGPUFilter : GPUFilter :=
  {| quota := ∅; quotaLastSyncedRevision := "" |}.

Record ConfigMap : Type := mkConfigMap {
  ResourceVersion : string;
  Data : gmap string string;
}.

Definition QuotaConfigKey : string := "gpu_quota".

Definition setQuota (gpuFilter : GPUFilter) (quota : gmap string NamespaceQuota)
    (resourceVersion : string) : GPUFilter :=
  {| quota := quota; quotaLastSyncedRevision := resourceVersion |}.

Definition getQuotaForNamespace (gpuFilter : GPUFilter) (namespace : string)
  : option NamespaceQuota :=
  quota gpuFilter !! namespace.

(** Label selectors of apimachinery, as far as the filter builds them. *)
Record Requirement : Type := mkRequirement {
  reqKey : string;
  reqValues : list string;
}.

Inductive Selector : Type :=
  | Nothing
  | Requirements (rs : list Requirement).   (* [Everything] is the empty list *)

Definition Everything : Selector := Requirements [].

Definition matchesRequirement (labels : gmap string string) (r : Requirement) : bool :=
  match labels !! reqKey r with
  | None => false
  | Some v => bool_decide (v ∈ reqValues r)
  end.

Definition Matches (sel : Selector) (labels : gmap string string) : bool :=
  match sel with
  | Nothing => false
  | Requirements rs => forallb (matchesRequirement labels) rs
  end.

(** quotaPod: the pod is not in a terminal phase. *)
Definition quotaPod (pod : Pod) : bool :=
  negb (bool_decide (PodFailed = podPhase pod)
        || bool_decide (PodSucceeded = podPhase pod)).

Definition calculateGPUUsage (pods : list Pod) : Z :=
  foldl (fun totalGPURequests pod =>
           if quotaPod pod
           then iadd totalGPURequests (to_int (GetGPUResourceOfPod pod VCoreAnnotation))
           else totalGPURequests) 0 pods.

Section GPUFilter.
(** The configuration, the validation of label keys and values that
    [labels.NewRequirement] applies, and [json.Unmarshal] into the quota
    map are taken as given. *)
Context (conf : GPUFilterConfig).
Context (validateLabelKey validateLabelValue : string -> bool).
Context (jsonUnmarshal : string -> result (gmap string NamespaceQuota)).
Context (cluster : Cluster) (ticks : nat) (now : Z).

Definition parseQuota (configData : gmap string string)
  : result (gmap string NamespaceQuota) :=
  match configData !! QuotaConfigKey with
  | None => Fail ("key " +:+ QuotaConfigKey +:+ " not found")
  | Some quotaData => jsonUnmarshal quotaData
  end.

(** syncQuota, given what [getConfigData] returned. *)
Definition syncQuota (gpuFilter : GPUFilter) (configData : result ConfigMap)
  : GPUFilter :=
  match configData with
  | Fail err =>
      if Contains err "not found" then setQuota gpuFilter ∅ "none"
      else gpuFilter
  | Ok configData =>
      if String.eqb (ResourceVersion configData) (quotaLastSyncedRevision gpuFilter)
      then gpuFilter
      else match parseQuota (Data configData) with
           | Fail _ => gpuFilter
           | Ok quota => setQuota gpuFilter quota (ResourceVersion configData)
           end
  end.

(** [labels.NewRequirement] for the operators [=] and [in]. *)
Definition NewRequirement (key : string) (vals : list string) : result Requirement :=
  if negb (validateLabelKey key) then Fail "invalid label key"
  else if (length vals =? 0)%nat then Fail "values set can't be empty"
  else if negb (forallb validateLabelValue vals) then Fail "invalid label value"
  else Ok {| reqKey := key; reqValues := vals |}.

(** [metav1.LabelSelectorAsSelector] on a selector with one requirement. *)
Definition LabelSelectorAsSelector (key : string) (vals : list string)
  : result Selector :=
  match NewRequirement key vals with
  | Fail err => Fail err
  | Ok r => Ok (Requirements [r])
  end.

(** [podLister.Pods(namespace).List(labels.Everything())] on the pods of
    the cache: the pods of the namespace, and the pods of every namespace
    when the namespace is [metav1.NamespaceAll], the empty string. *)
Definition Pods (allPods : list Pod) (namespace : string) : list Pod :=
  if String.eqb namespace ""
  then allPods
  else List.filter (fun pod => String.eqb (podNamespace pod) namespace) allPods.

Definition listPodsOnNodes (nodeSelector : Selector) (podNameSpace : string)
  : result (list Pod) :=
  match nodeLister cluster with
  | Fail err => Fail err
  | Ok allNodes =>
      let nodes := List.filter (fun node => Matches nodeSelector (nodeLabels node)) allNodes in
      let records : gset string := list_to_set (nodeName <$> nodes) in
      match podLister cluster with
      | Fail err => Fail err
      | Ok allPods =>
          let pods := Pods allPods podNameSpace in
          Ok (List.filter (fun pod => bool_decide (podNodeName pod ∈ records)) pods)
      end
  end.

(** The loop of filterGPUModel over the entries of the quota map. *)
Fixpoint filterGPUModelLoop (pod : Pod) (entries : list (string * Z))
    (filteredGPUModels : list string) : result (list string) :=
  match entries with
  | [] => Ok filteredGPUModels
  | (gpuModel, limit) :: rest =>
      let limit := imul limit HundredCore in
      match LabelSelectorAsSelector (GPUModelLabel conf) [gpuModel] with
      | Fail err => Fail err
      | Ok nodeSelector =>
          match listPodsOnNodes nodeSelector (podNamespace pod) with
          | Fail err => Fail err
          | Ok pods =>
              let gpuUsed := calculateGPUUsage (pods ++ [pod]) in
              filterGPUModelLoop pod rest
                (if gpuUsed <=? limit
                 then filteredGPUModels ++ [gpuModel]
                 else filteredGPUModels)
          end
      end
  end.

Definition filterGPUModel (pod : Pod) (namespaceQuota : NamespaceQuota)
  : result (list string) :=
  filterGPUModelLoop pod (map_to_list (Quota namespaceQuota)) [].

(** The loop of filterNodes. *)
Fixpoint filterNodesLoop (gpuModelSelector poolSelector : Selector)
    (nodes : list Node) (filteredNodes : list Node)
    (failedNodesMap : gmap string string) : list Node * gmap string string :=
  match nodes with
  | [] => (filteredNodes, failedNodesMap)
  | node :: rest =>
      if Matches gpuModelSelector (nodeLabels node)
         && Matches poolSelector (nodeLabels node)
      then filterNodesLoop gpuModelSelector poolSelector rest
             (filteredNodes ++ [node]) failedNodesMap
      else filterNodesLoop gpuModelSelector poolSelector rest
             filteredNodes (<[nodeName node := "ExceedsGPUQuota"]> failedNodesMap)
  end.

Definition filterNodes (nodes : list Node) (gpuModels pools : list string)
  : filterResult :=
  let fail e := {| passedNodes := []; failedNodes := ∅; err := Some e |} in
  match (if negb (length gpuModels =? 0)%nat
         then LabelSelectorAsSelector (GPUModelLabel conf) gpuModels
         else Ok Nothing) with
  | Fail e => fail e
  | Ok gpuModelSelector =>
      match (if negb (length pools =? 0)%nat
             then LabelSelectorAsSelector (GPUPoolLabel conf) pools
             else Ok Everything) with
      | Fail e => fail e
      | Ok poolSelector =>
          let '(filteredNodes, failedNodesMap) :=
            filterNodesLoop gpuModelSelector poolSelector nodes [] ∅ in
          {| passedNodes := filteredNodes; failedNodes := failedNodesMap;
             err := None |}
      end
  end.

Definition quotaFilter (gpuFilter : GPUFilter) (pod : Pod) (nodes : list Node)
  : filterResult :=
  match getQuotaForNamespace gpuFilter (podNamespace pod) with
  | None => {| passedNodes := nodes; failedNodes := ∅; err := None |}
  | Some quota =>
      match filterGPUModel pod quota with
      | Fail e => {| passedNodes := []; failedNodes := ∅; err := Some e |}
      | Ok gpuModels => filterNodes nodes gpuModels (Pool quota)
      end
  end.

Definition deviceFilter (pod : Pod) (nodes : list Node) (sent : nat)
  : exec (filterResult * nat) :=
  if predicated pod then
    Done ({| passedNodes := []; failedNodes := ∅; err := None |}, sent)
  else
    w ← deviceFilterNodes cluster ticks now pod nodes sent;
    Done ({| passedNodes := filteredNodes w;
             failedNodes := failedNodesMap w;
             err := None |}, kube.sent w).

Definition notSynced : string :=
  "GPU quota has not been synced, please retry later".

Definition Filter (gpuFilter : GPUFilter) (pod : Pod) (nodes : list Node)
    (sent : nat) : exec (ExtenderFilterResult * nat) :=
  if negb (IsGPURequiredPod pod) then
    Done ({| Nodes := Some nodes; FailedNodes := None; Error := "" |}, sent)
  else if (String.length (quotaLastSyncedRevision gpuFilter) =? 0)%nat then
    Done ({| Nodes := None; FailedNodes := None; Error := notSynced |}, sent)
  else
    runFilters [ (fun nodes sent => Done (quotaFilter gpuFilter pod nodes, sent));
                 deviceFilter pod ]
               nodes ∅ sent.
End GPUFilter.

End predicate.

(* ===================================================================== *)
(** ** pkg/prioritize *)
(* ===================================================================== *)

Module prioritize.
Import util.

Record HostPriority : Type := mkHostPriority {
  Host : string;
  Score : Z;
}.

Definition Name : string := "CPUNodeFirst".

(** CPUNodeFirst.Handler: the priority list and the (always nil) error. *)
Definition Handler (nodes : list Node) : list HostPriority * option error :=
  (foldl (fun priorityList node =>
            priorityList ++ [ {| Host := nodeName node;
                                 Score := if IsGPUEnabledNode node then 0 else 1 |} ])
         [] nodes,
   None).

End prioritize.

(* ===================================================================== *)
(** ** main *)
(* ===================================================================== *)

Module main.

(** wordSepNormalizeFunc: the normalized flag name. *)
Definition wordSepNormalizeFunc (name : string) : string :=
  if Contains name "_" then ReplaceByte name "_" "-" else name.

End main.

(* ===================================================================== *)
(** * Specification vocabulary *)
(* ===================================================================== *)

(** The two powers of two of the 64-bit types, as numerals for [lia]. *)
Ltac pow2 :=
  change (2 ^ 64) with 18446744073709551616 in *;
  change (2 ^ 63) with 9223372036854775808 in *.

(** ** Devices *)

Module DeviceSpec.
Import util.

(** The counters of a device are within their ceilings. *)
Definition within (dev : DeviceInfo) : Prop :=
  0 <= usedCore dev <= HundredCore /\ 0 <= usedMemory dev <= totalMemory dev.

(** A sequence of [reserve] calls, whatever each returns. *)
Definition reserveAll (dev : DeviceInfo) (ops : list (Z * Z)) : DeviceInfo :=
  foldl (fun d op => (AddUsedResources d op.1 op.2).2) dev ops.

End DeviceSpec.

(** ** Node views *)

Module NodeInfoSpec.
Import util device DeviceSpec.

(** The representation invariant of a NodeInfo that the device filter
    builds: the device map has an entry for every index below the device
    count, entry [i] is device [i], and every device is within its
    ceilings. *)
Definition dense (n : NodeInfo) : Prop :=
  forall i, 0 <= i < deviceCount n ->
    exists d, devs n !! i = Some d /\ id d = i /\ within d /\
              util.totalMemory d < 2 ^ 64.

Definition wfNode (n : NodeInfo) : Prop :=
  0 < deviceCount n /\
  GetGPUDeviceCountOfNode (node n) = deviceCount n /\
  dense n.

(** What the replay loops keep fixed and what they preserve. *)
Definition replayInv (count : Z) (nd : Node) (n : NodeInfo) : Prop :=
  dense n /\ deviceCount n = count /\ node n = nd.

(** *** Replay of one annotation *)
(** The reservation that the replay charges for a container. *)
Definition replayCharge (dtm : Z) (c : Container) : Z * Z :=
  if GetGPUResourceOfContainer c VCoreAnnotation <? HundredCore
  then (GetGPUResourceOfContainer c VCoreAnnotation,
        GetGPUResourceOfContainer c VMemoryAnnotation)
  else (HundredCore, dtm).

(** *** When the construction of the view returns *)
(** The annotations of the pod carry no negative device index. *)
Definition sanePod (pod : Pod) : Prop :=
  forall i idxs, GetPredicateIdxOfContainer pod i = (idxs, None) ->
                 Forall (Z.le 0) idxs.

End NodeInfoSpec.

(** ** The orders of the comparators *)

Module OrderSpec.
Import util device.

(** On devices [Less] is the strict lexicographic order on
    (allocatable cores, allocatable memory, id). *)
Definition devBefore (x y : DeviceInfo) : Prop :=
  AllocatableCores x < AllocatableCores y \/
  (AllocatableCores x = AllocatableCores y /\
   (AllocatableMemory x < AllocatableMemory y \/
    (AllocatableMemory x = AllocatableMemory y /\ GetID x < GetID y))).

Definition nodeKeyLe (x y : NodeInfo) : Prop :=
  GetAvailableCore x < GetAvailableCore y \/
  (GetAvailableCore x = GetAvailableCore y /\
   (GetAvailableMemory x < GetAvailableMemory y \/
    (GetAvailableMemory x = GetAvailableMemory y /\
     String.le (GetName x) (GetName y)))).

End OrderSpec.

(** ** The allocator *)

Module AllocatorSpec.
Import util device algorithm DeviceSpec NodeInfoSpec.

(** [store] is the slice that both Evaluate methods sort: the devices
    0, 1, ..., deviceCount-1 of the node, each as the node's map holds it. *)
Definition storeOf (n : NodeInfo) (store : list DeviceInfo) : Prop :=
  tmpStore n = Done store /\
  GetID <$> store = seqZ 0 (deviceCount n) /\
  Forall (fun d => devs n !! GetID d = Some d /\ within d /\
                   util.totalMemory d < 2 ^ 64) store.

(** *** Share mode *)
(** A device satisfies the request. *)
Definition fits (cores memory : Z) (d : DeviceInfo) : Prop :=
  cores <= AllocatableCores d /\ memory <= AllocatableMemory d.

(** The per-device memory that AllocateOne computes. *)
Definition deviceTotalMemoryOf (n : NodeInfo) : Z :=
  to_uint (to_int (Z.quot (GetCapacityOfNode (GetNode n) VMemoryAnnotation)
                          (GetGPUDeviceCountOfNode (GetNode n)))).

(** *** Exclusive mode *)
(** A completely free device. *)
Definition isFree (d : DeviceInfo) : Prop := AllocatableCores d = HundredCore.

Global Instance isFree_dec d : Decision (isFree d).
Proof. unfold isFree. apply _. Defined.

End AllocatorSpec.

(** ** The device filter *)

Module FilterSpec.
Import util device algorithm kube DeviceSpec NodeInfoSpec AllocatorSpec.

(** A node the guard lets through has at least one whole device. *)
Definition saneNode (nd : Node) : Prop :=
  IsGPUEnabledNode nd = true -> HundredCore <= GetCapacityOfNode nd VCoreAnnotation.

Section Walk.
Context (cluster : Cluster) (ticks : nat) (now : Z) (pod : Pod).

Definition alreadyMatched : string :=
  "pod " +:+ podUID pod +:+ " has already been matched to another node".
Definition doesNotMatch : string :=
  "pod " +:+ podUID pod +:+ " does not match with this node".
Definition patchFailed : string := "update pod annotation failed".

(** The patch of the annotations that Allocate produced. *)
Definition patchOf (newPod : Pod) (s : nat) : option error * nat :=
  patchPodWithAnnotations cluster ticks newPod
    (filter (fun kv => patchKey kv.1 = true) (podAnnotations newPod)) s.

(** Allocation and annotation patch both succeed on the view [x], tried
    when [s] Patch requests have been sent; [s'] have been sent after. *)
Definition accepts (x : NodeInfo) (s s' : nat) : Prop :=
  exists newPod x',
    Allocate now x pod = Done (Ok newPod, x') /\ patchOf newPod s = (None, s').

(** The view [x] is turned down, for the given reason. *)
Definition rejects (x : NodeInfo) (s s' : nat) (reason : string) : Prop :=
  (exists e x', Allocate now x pod = Done (Fail e, x') /\
                s' = s /\ reason = doesNotMatch) \/
  (exists newPod x' e, Allocate now x pod = Done (Ok newPod, x') /\
                       patchOf newPod s = (Some e, s') /\ reason = patchFailed).

(** Every view of the list is turned down in turn. *)
Inductive rejectedRun : nat -> list NodeInfo -> nat -> Prop :=
  | rejected_nil s : rejectedRun s [] s
  | rejected_cons s x reason s1 l s2 :
      rejects x s s1 reason -> rejectedRun s1 l s2 -> rejectedRun s (x :: l) s2.

(** *** The first loop *)
(** The candidates that get a view. *)
Definition gpuCandidates (nodes : list Node) : list Node :=
  match podLister cluster with
  | Ok _ => List.filter IsGPUEnabledNode nodes
  | Fail _ => []
  end.

(** [ni] is the view of [nd] built from the pods listed on it. *)
Definition viewOf (nd : Node) (ni : NodeInfo) : Prop :=
  exists pods, ListPodsOnNode cluster nd = Ok pods /\ NewNodeInfo nd pods = Done ni.

Definition sanePods : Prop :=
  forall pods, podLister cluster = Ok pods -> Forall sanePod pods.

End Walk.

(** *** The annotation write-back *)
(** The API server answers with Conflict or ServerTimeout. *)
Definition retryable (reply : option apiError) : Prop :=
  exists e, reply = Some e /\ ShouldRetry e = true.

(** The write-back started after [s] Patch requests fails for good: some
    attempt within the budget meets an error that is not retried, or every
    attempt of the budget meets Conflict or ServerTimeout. The budget is
    the immediate attempt, one attempt per tick and the attempt made when
    the poller has closed. *)
Definition terminal (cluster : Cluster) (ticks : nat) (s : nat) : Prop :=
  (exists j e, (j <= S ticks)%nat /\
     (forall i, (i < j)%nat -> retryable (patchReply cluster (s + i))) /\
     patchReply cluster (s + j)%nat = Some e /\ ShouldRetry e = false) \/
  (forall i, (i <= S ticks)%nat -> retryable (patchReply cluster (s + i))).

End FilterSpec.

(** ** The quota filter *)

Module QuotaSpec.
Import util device algorithm kube predicate.

Section Quota.
Context (conf : GPUFilterConfig).
Context (validateLabelKey validateLabelValue : string -> bool).
Context (cluster : Cluster).

(** The pods of the namespace that are placed on nodes labelled with
    the GPU model [m]. *)
Definition placedOn (allNodes : list Node) (allPods : list Pod)
    (namespace m : string) : list Pod :=
  List.filter
    (fun pod =>
       existsb (fun node =>
                  bool_decide (nodeLabels node !! GPUModelLabel conf = Some m)
                  && String.eqb (nodeName node) (podNodeName pod)) allNodes)
    (List.filter (fun pod => String.eqb (podNamespace pod) namespace) allPods).

(** The sum of the vcuda-core requests of the pods that are neither
    Failed nor Succeeded. *)
Definition vcoreSum (pods : list Pod) : Z :=
  foldr (fun pod total =>
           if bool_decide (podPhase pod <> PodFailed /\ podPhase pod <> PodSucceeded)
           then GetGPUResourceOfPod pod VCoreAnnotation + total
           else total) 0 pods.

(** A node is kept: its model label is among the accepted models and,
    when pools are listed, its pool label is among them. *)
Definition keeps (gpuModels pools : list string) (node : Node) : bool :=
  match nodeLabels node !! GPUModelLabel conf with
  | Some model => bool_decide (model ∈ gpuModels)
  | None => false
  end
  && match pools with
     | [] => true
     | _ => match nodeLabels node !! GPUPoolLabel conf with
            | Some pool => bool_decide (pool ∈ pools)
            | None => false
            end
     end.

(** The selectors can be built and the listers answer. *)
Record healthy (nq : NamespaceQuota) (allNodes : list Node) (allPods : list Pod)
  : Prop := {
  model_key_ok : validateLabelKey (GPUModelLabel conf) = true;
  pool_key_ok : validateLabelKey (GPUPoolLabel conf) = true;
  models_ok : forall m limit, Quota nq !! m = Some limit -> validateLabelValue m = true;
  pools_ok : Forall (fun pool => validateLabelValue pool = true) (Pool nq);
  nodes_listed : nodeLister cluster = Ok allNodes;
  pods_listed : podLister cluster = Ok allPods;
}.

(** The model passes the quota of the namespace. *)
Definition underQuota (allNodes : list Node) (allPods : list Pod) (pod : Pod)
    (m : string) (limit : Z) : Prop :=
  calculateGPUUsage (placedOn allNodes allPods (podNamespace pod) m ++ [pod])
  <= imul limit HundredCore.

End Quota.

Section ColdStart.
Context (conf : GPUFilterConfig).
Context (validateLabelKey validateLabelValue : string -> bool).
Context (jsonUnmarshal : string -> result (gmap string NamespaceQuota)).
Context (cluster : Cluster) (ticks : nat) (now : Z).

(** The sync loads a quota: the config map is reported as not found, or
    it has a new resource version and its quota parses. *)
Definition loads (gpuFilter : GPUFilter) (configData : result ConfigMap) : bool :=
  match configData with
  | Fail e => Contains e "not found"
  | Ok configData =>
      negb (String.eqb (ResourceVersion configData) (quotaLastSyncedRevision gpuFilter))
      && match parseQuota jsonUnmarshal (Data configData) with
         | Ok _ => true
         | Fail _ => false
         end
  end.

(** The periodic sync, over what getConfigData returned each time. *)
Definition syncAll (gpuFilter : GPUFilter) (events : list (result ConfigMap)) : GPUFilter :=
  foldl (syncQuota jsonUnmarshal) gpuFilter events.

End ColdStart.

End QuotaSpec.

(** ** The scenario of the repository's test: three nodes with two devices
    and 8 units of memory each *)

Module Scenario.
Import util device algorithm kube DeviceSpec NodeInfoSpec AllocatorSpec FilterSpec QuotaSpec.

Definition testnode (i : Z) : Node :=
  {| nodeName := "testnode" +:+ Itoa i;
     nodeLabels := ∅;
     nodeCapacity := {[ VCoreAnnotation := 200; VMemoryAnnotation := 8 ]} |}.

Definition container (name : string) (cores memory : Z) : Container :=
  {| cName := name;
     cLimits := {[ VCoreAnnotation := cores; VMemoryAnnotation := memory ]} |}.

Definition testpod (i : Z) (containers : list Container) : Pod :=
  {| podName := "pod-" +:+ Itoa i; podNamespace := "test-ns";
     podUID := "uid-" +:+ Itoa i; podAnnotations := ∅; podNodeName := "";
     podContainers := containers; podPhase := PodPending |}.

Definition pod0 := testpod 0 [container "container-0" 10 1; container "container-1" 10 1].
Definition pod1 := testpod 1 [container "container-0" 100 3; container "container-1" 80 3].
Definition pod2 := testpod 2 [container "container-0" 200 10;
                              {| cName := "container-without-gpu"; cLimits := ∅ |}].
Definition pod3 := testpod 3 [container "container-1" 10 2;
                              {| cName := "container-without-gpu"; cLimits := ∅ |}].

(** The pod as the test binds it after the filter accepted [node]: the
    annotations of Allocate, the node name and phase Running. *)
Definition bound (pod : Pod) (annotations : list (string * string)) (node : Node) : Pod :=
  {| podName := podName pod; podNamespace := podNamespace pod; podUID := podUID pod;
     podAnnotations := list_to_map annotations;
     podNodeName := nodeName node; podContainers := podContainers pod;
     podPhase := PodRunning |}.

Definition device (i total usedM usedC : Z) : DeviceInfo :=
  {| id := i; util.totalMemory := total; util.usedMemory := usedM; util.usedCore := usedC |}.

(** The view of a node with the given per-device usage. *)
Definition view (nd : Node) (d0 d1 : DeviceInfo) : NodeInfo :=
  {| name := nodeName nd; node := nd;
     devs := {[ 0 := d0; 1 := d1 ]};
     deviceCount := 2; totalMemory := 8;
     usedCore := uadd (util.usedCore d0) (util.usedCore d1);
     usedMemory := uadd (util.usedMemory d0) (util.usedMemory d1) |}.

Definition freshView (nd : Node) : NodeInfo :=
  view nd (device 0 4 0 0) (device 1 4 0 0).

(** pod-0 after it was placed on testnode0. *)
Definition pod0_bound : Pod :=
  bound pod0 [(PredicateGPUIndexPrefix +:+ "0", "0");
              (PredicateGPUIndexPrefix +:+ "1", "0");
              (PredicateNode, "testnode0"); (GPUAssigned, "false");
              (PredicateTimeAnnotation, "1")] (testnode 0).

Definition view0_after_pod0 : NodeInfo :=
  Eval vm_compute in
    match NewNodeInfo (testnode 0) [pod0_bound] with
    | Done n => n
    | Panicked _ => freshView (testnode 0)
    end.

(** A node that advertises half a device. *)
Definition halfDeviceNode : Node :=
  {| nodeName := "node-a"; nodeLabels := ∅;
     nodeCapacity := {[ VCoreAnnotation := 50; VMemoryAnnotation := 8 ]} |}.

Definition quietCluster (pods : list Pod) : Cluster :=
  {| podLister := Ok pods; nodeLister := Ok []; patchReply := fun _ => None |}.

(** A pod on testnode0 whose first container is annotated with the device
    index -1. *)
Definition strayPod : Pod :=
  bound pod3 [(PredicateGPUIndexPrefix +:+ "0", "-1");
              (PredicateNode, "testnode0")] (testnode 0).

(** *** The filter on the scenario *)
(** The pod as Allocate annotates it on the given view. *)
Definition allocated (n : NodeInfo) (pod : Pod) : Pod :=
  match Allocate 1 n pod with
  | Done (Ok newPod, _) => newPod
  | _ => pod
  end.

(** The test binds the pod to the accepted node and sets it Running. *)
Definition bind (pod : Pod) (node : Node) : Pod :=
  {| podName := podName pod; podNamespace := podNamespace pod; podUID := podUID pod;
     podAnnotations := podAnnotations pod;
     podNodeName := nodeName node; podContainers := podContainers pod;
     podPhase := PodRunning |}.

Definition view_of (nd : Node) (pods : list Pod) : NodeInfo :=
  match NewNodeInfo nd (List.filter (onNode nd) pods) with
  | Done n => n
  | Panicked _ => freshView nd
  end.

Definition nodeList : list Node := [testnode 0; testnode 1; testnode 2].

Definition acceptedNames (r : exec (filterResult * nat)) : option (list string) :=
  match r with
  | Done (r, _) => Some (nodeName <$> passedNodes r)
  | Panicked _ => None
  end.

Definition placed0 : list Pod := [].
Definition placed1 : list Pod :=
  placed0 ++ [bind (allocated (view_of (testnode 0) placed0) pod0) (testnode 0)].
Definition placed2 : list Pod :=
  placed1 ++ [bind (allocated (view_of (testnode 1) placed1) pod1) (testnode 1)].
Definition placed3 : list Pod :=
  placed2 ++ [bind (allocated (view_of (testnode 2) placed2) pod2) (testnode 2)].

(** pod-0 resubmitted with the annotations of its first placement. *)
Definition pod0_retried : Pod := allocated (freshView (testnode 0)) pod0.

(** A cluster whose API server refuses the first Patch request with an
    error that is not retried and accepts the following ones. *)
Definition refusingCluster : Cluster :=
  {| podLister := Ok []; nodeLister := Ok [];
     patchReply := fun k => match k with
                            | O => Some (OtherError "forbidden")
                            | _ => None
                            end |}.

Definition syncedFilter : predicate.GPUFilter :=
  {| predicate.quota := ∅; predicate.quotaLastSyncedRevision := "none" |}.

Definition testConf : predicate.GPUFilterConfig :=
  predicate.mkGPUFilterConfig "gpuquota" "kube-system" "gpu-model" "gpu-pool".

Definition view0_charged : NodeInfo :=
  view (testnode 0) (device 0 4 2 20) (device 1 4 0 0).

Definition startWalk : walk :=
  {| filteredNodes := []; failedNodesMap := ∅; success := false; sent := 0 |}.

(** *** The quota on the scenario *)
(** The three nodes labelled as M40 nodes of the pool "public". *)
Definition m40node (i : Z) : Node :=
  {| nodeName := "testnode" +:+ Itoa i;
     nodeLabels := {[ "gpu-model" := "M40"; "gpu-pool" := "public" ]};
     nodeCapacity := {[ VCoreAnnotation := 200; VMemoryAnnotation := 8 ]} |}.

Definition m40nodes : list Node := [m40node 0; m40node 1; m40node 2].

Definition wholeGPUPod (i : Z) : Pod := testpod i [container "container-0" 100 4].

(** The namespace of the test may use one M40. *)
Definition oneM40 : predicate.NamespaceQuota :=
  {| predicate.Quota := {[ "M40" := 1 ]}; predicate.Pool := [] |}.

Definition quotaFilterM40 : predicate.GPUFilter :=
  {| predicate.quota := {[ "test-ns" := oneM40 ]};
     predicate.quotaLastSyncedRevision := "42" |}.

Definition m40cluster (pods : list Pod) : Cluster :=
  {| podLister := Ok pods; nodeLister := Ok m40nodes; patchReply := fun _ => None |}.

Definition firstWholeGPUPod : Pod :=
  bind (allocated (view_of (m40node 0) []) (wholeGPUPod 0)) (m40node 0).

End Scenario.

(** ** The text form of device indices *)

Module CodecSpec.
Import util.

(** A string without the separator of the index list. *)
Fixpoint noComma (s : string) : bool :=
  match s with
  | EmptyString => true
  | String c s' => negb (Ascii.eqb c ",") && noComma s'
  end.

(** The annotation key of the container at position [i]. *)
Definition idxKey (i : Z) : string := PredicateGPUIndexPrefix +:+ Itoa i.

End CodecSpec.

(** ** The accounts of a view *)

Module ViewSpec.
Import util device DeviceSpec.

(** The sum of a quantity over the devices 0, 1, ..., deviceCount-1 of the
    view. *)
Definition deviceSum (f : DeviceInfo -> Z) (n : NodeInfo) : Z :=
  foldr Z.add 0 ((fun i => from_option f 0 (devs n !! i)) <$> seqZ 0 (deviceCount n)).

(** The state of the view of node [nd] during and after the replay:
    [dtm] is the memory of one device. *)
Definition viewInv (nd : Node) (dtm : Z) (n : NodeInfo) : Prop :=
  name n = nodeName nd /\ node n = nd /\
  deviceCount n = GetGPUDeviceCountOfNode nd /\
  totalMemory n = to_uint (GetCapacityOfNode nd VMemoryAnnotation) /\
  (forall i, is_Some (devs n !! i) <-> 0 <= i < deviceCount n) /\
  (forall i d, devs n !! i = Some d ->
               id d = i /\ util.totalMemory d = dtm /\ within d) /\
  usedCore n = to_uint (deviceSum util.usedCore n) /\
  usedMemory n = to_uint (deviceSum util.usedMemory n).

End ViewSpec.

(** ** Further pods and nodes for the scenario *)

Module Fixtures.
Import util device algorithm kube Scenario.

(** pod-2 as it is annotated on a node where it holds both devices. *)
Definition pod2_bound : Pod :=
  bound pod2 [(PredicateGPUIndexPrefix +:+ "0", "0,1");
              (PredicateNode, "testnode0")] (testnode 0).

(** Two containers of 50 cores and no memory each: the pod adds up to 100
    cores, and no container asks for GPU by itself. *)
Definition splitPod : Pod :=
  testpod 4 [container "container-0" 50 0; container "container-1" 50 0].

(** testnode0 after pod-0 and the GPU container of pod-3. *)
Definition view0_after_pod3 : NodeInfo :=
  view (testnode 0) (device 0 4 4 30) (device 1 4 0 0).

(** testnode2 with both devices taken. *)
Definition view2_taken : NodeInfo :=
  view (testnode 2) (device 0 4 4 100) (device 1 4 4 100).

(** A node without GPU. *)
Definition cpuNode : Node :=
  {| nodeName := "cpunode"; nodeLabels := ∅; nodeCapacity := ∅ |}.

(** A pod that asks for a whole GPU and is in phase Failed. *)
Definition failedPod : Pod :=
  {| podName := "pod-1"; podNamespace := "test-ns"; podUID := "uid-1";
     podAnnotations := ∅; podNodeName := "";
     podContainers := [container "container-0" 100 4]; podPhase := PodFailed |}.

(** A pod of the empty namespace that asks for a whole GPU, and a quota
    record for that namespace. *)
Definition anonymousPod : Pod :=
  {| podName := "pod-1"; podNamespace := ""; podUID := "uid-1";
     podAnnotations := ∅; podNodeName := "";
     podContainers := [container "container-0" 100 4]; podPhase := PodPending |}.

Definition anonymousQuota : predicate.GPUFilter :=
  {| predicate.quota := {[ "" := oneM40 ]};
     predicate.quotaLastSyncedRevision := "42" |}.

(** A limit whose hundredfold is beyond Go's int. *)
Definition hugeM40 : predicate.NamespaceQuota :=
  {| predicate.Quota := {[ "M40" := 92233720368547759 ]}; predicate.Pool := [] |}.

(** A cluster whose API server answers every Patch request with Conflict. *)
Definition conflictCluster : Cluster :=
  {| podLister := Ok []; nodeLister := Ok []; patchReply := fun _ => Some Conflict |}.

(** A pod on testnode0 whose container asks for 2 units of memory and no
    cores and is annotated with device 0, and the view of the node with
    it. *)
Definition memoryOnlyPod : Pod :=
  bound (testpod 5 [ {| cName := "memory-only";
                        cLimits := {[ VMemoryAnnotation := 2 ]} |} ])
        [(PredicateGPUIndexPrefix +:+ "0", "0"); (PredicateNode, "testnode0")]
        (testnode 0).

Definition memoryOnlyView : NodeInfo :=
  {| name := "testnode0"; node := testnode 0;
     devs := {[ 0 := device 0 4 2 0; 1 := device 1 4 0 0 ]};
     deviceCount := 2; totalMemory := 8; usedCore := 0; usedMemory := 2 |}.

(** pod-0 on testnode0 after it ran to completion. *)
Definition pod0_finished : Pod :=
  {| podName := podName pod0_bound; podNamespace := podNamespace pod0_bound;
     podUID := podUID pod0_bound; podAnnotations := podAnnotations pod0_bound;
     podNodeName := podNodeName pod0_bound;
     podContainers := podContainers pod0_bound; podPhase := PodSucceeded |}.

End Fixtures.

(* ===================================================================== *)
(** * Properties *)
(* ===================================================================== *)

(** ** Machine arithmetic *)

Section Arith.

Lemma to_uint_range z : 0 <= to_uint z < 2 ^ 64.
Proof. unfold to_uint. apply Z.mod_pos_bound. lia. Qed.

Lemma to_uint_id z : 0 <= z < 2 ^ 64 -> to_uint z = z.
Proof. intros. unfold to_uint. apply Z.mod_small. lia. Qed.

Lemma to_int_id z : - 2 ^ 63 <= z < 2 ^ 63 -> to_int z = z.
Proof. intros. unfold to_int. rewrite Z.mod_small; lia. Qed.

Lemma uadd_range a b : 0 <= uadd a b < 2 ^ 64.
Proof. apply to_uint_range. Qed.

Lemma uadd_exact a b : 0 <= a -> 0 <= b -> a + b < 2 ^ 64 -> uadd a b = a + b.
Proof. intros. unfold uadd. apply to_uint_id. lia. Qed.

Lemma uadd_comm a b : uadd a b = uadd b a.
Proof. unfold uadd. f_equal. lia. Qed.

Lemma usub_exact a b : 0 <= b <= a -> a < 2 ^ 64 -> usub a b = a - b.
Proof. intros. unfold usub. apply to_uint_id. lia. Qed.

End Arith.

(** ** DeviceInfo *)
Module DeviceProps.
Import util DeviceSpec.

Lemma AddUsedResources_fails_iff dev c m :
  is_Some (AddUsedResources dev c m).1 <->
  (uadd c (usedCore dev) > HundredCore \/ uadd m (usedMemory dev) > totalMemory dev).
Proof.
  unfold AddUsedResources.
  destruct (Z.ltb_spec HundredCore (uadd c (usedCore dev))) as [Hc|Hc]; simpl.
  - split; [intros _; left; lia | eauto].
  - destruct (Z.ltb_spec (totalMemory dev) (uadd m (usedMemory dev))) as [Hm|Hm]; simpl.
    + split; [intros _; right; lia | eauto].
    + split; [intros [? [=]] | lia].
Qed.

Lemma AddUsedResources_failure dev c m e :
  (AddUsedResources dev c m).1 = Some e -> (AddUsedResources dev c m).2 = dev.
Proof.
  unfold AddUsedResources.
  destruct (HundredCore <? uadd c (usedCore dev)); [done|].
  destruct (totalMemory dev <? uadd m (usedMemory dev)); [done|].
  discriminate.
Qed.

Lemma AddUsedResources_success dev c m :
  (AddUsedResources dev c m).1 = None ->
  usedCore (AddUsedResources dev c m).2 = uadd (usedCore dev) c /\
  usedMemory (AddUsedResources dev c m).2 = uadd (usedMemory dev) m.
Proof.
  unfold AddUsedResources.
  destruct (HundredCore <? uadd c (usedCore dev)); [discriminate|].
  destruct (totalMemory dev <? uadd m (usedMemory dev)); [discriminate|].
  simpl. auto.
Qed.

Lemma AddUsedResources_static dev c m :
  id (AddUsedResources dev c m).2 = id dev /\
  totalMemory (AddUsedResources dev c m).2 = totalMemory dev.
Proof.
  unfold AddUsedResources.
  destruct (HundredCore <? uadd c (usedCore dev)); [done|].
  destruct (totalMemory dev <? uadd m (usedMemory dev)); done.
Qed.

Lemma AddUsedResources_within dev c m :
  within dev -> within (AddUsedResources dev c m).2.
Proof.
  intros Hw. unfold AddUsedResources.
  destruct (Z.ltb_spec HundredCore (uadd c (usedCore dev))) as [Hc|Hc]; [done|].
  destruct (Z.ltb_spec (totalMemory dev) (uadd m (usedMemory dev))) as [Hm|Hm]; [done|].
  unfold within; simpl.
  rewrite (uadd_comm (usedCore dev)), (uadd_comm (usedMemory dev)).
  pose proof (uadd_range c (usedCore dev)). pose proof (uadd_range m (usedMemory dev)).
  lia.
Qed.

Lemma reserveAll_within dev ops : within dev -> within (reserveAll dev ops).
Proof.
  revert dev. induction ops as [|op ops IH]; intros dev Hw; [done|].
  simpl. apply IH. by apply AddUsedResources_within.
Qed.

Lemma reserveAll_totalMemory dev ops :
  totalMemory (reserveAll dev ops) = totalMemory dev.
Proof.
  revert dev. induction ops as [|op ops IH]; intros dev; [done|].
  simpl. rewrite IH. apply AddUsedResources_static.
Qed.

Lemma newDeviceInfo_within i total : 0 <= total -> within (newDeviceInfo i total).
Proof. unfold within, newDeviceInfo, HundredCore; simpl. lia. Qed.

(** Without wrap-around the test of [AddUsedResources] is the one on the
    mathematical sums. *)
Lemma AddUsedResources_fails_iff_exact dev c m :
  0 <= c -> 0 <= m -> 0 <= usedCore dev -> 0 <= usedMemory dev ->
  c + usedCore dev < 2 ^ 64 -> m + usedMemory dev < 2 ^ 64 ->
  is_Some (AddUsedResources dev c m).1 <->
  (usedCore dev + c > HundredCore \/ usedMemory dev + m > totalMemory dev).
Proof.
  intros. rewrite AddUsedResources_fails_iff, !uadd_exact by lia. lia.
Qed.

(** The test and the counters in Go's [uint] arithmetic, wrap-around
    included. *)
Lemma AddUsedResources_uint dev c m :
  (is_Some (AddUsedResources dev c m).1 <->
   (uadd (usedCore dev) c > HundredCore \/
    uadd (usedMemory dev) m > totalMemory dev)) /\
  (is_Some (AddUsedResources dev c m).1 ->
   (AddUsedResources dev c m).2 = dev) /\
  ((AddUsedResources dev c m).1 = None ->
   usedCore (AddUsedResources dev c m).2 = uadd (usedCore dev) c /\
   usedMemory (AddUsedResources dev c m).2 = uadd (usedMemory dev) m).
Proof.
  split; [|split].
  - rewrite (uadd_comm (usedCore dev)), (uadd_comm (usedMemory dev)).
    apply AddUsedResources_fails_iff.
  - intros [e He]. by eapply AddUsedResources_failure.
  - intros Hn. pose proof (AddUsedResources_success dev c m Hn). tauto.
Qed.

(** C7, as amended. For a device and a request of [uint] values whose
    sums usedCore + c and usedMemory + m stay below 2^64,
    [DeviceInfo.AddUsedResources] (reserve) fails exactly when
    usedCore + c > 100 or usedMemory + m > totalMemory; a failed call
    leaves the device unchanged; a successful call adds c and m to the two
    counters; and after any sequence of calls whatever on a device made by
    [newDeviceInfo], usedCore is at most 100 and usedMemory at most
    totalMemory. *)
Theorem AddUsedResources_reserve :
  (forall dev c m,
      is_uint c -> is_uint m ->
      is_uint (usedCore dev) -> is_uint (usedMemory dev) ->
      usedCore dev + c < 2 ^ 64 -> usedMemory dev + m < 2 ^ 64 ->
      (is_Some (AddUsedResources dev c m).1 <->
       (usedCore dev + c > HundredCore \/
        usedMemory dev + m > totalMemory dev)) /\
      (is_Some (AddUsedResources dev c m).1 ->
       (AddUsedResources dev c m).2 = dev) /\
      ((AddUsedResources dev c m).1 = None ->
       usedCore (AddUsedResources dev c m).2 = usedCore dev + c /\
       usedMemory (AddUsedResources dev c m).2 = usedMemory dev + m /\
       id (AddUsedResources dev c m).2 = id dev /\
       totalMemory (AddUsedResources dev c m).2 = totalMemory dev)) /\
  (forall i total ops,
      0 <= total ->
      0 <= usedCore (reserveAll (newDeviceInfo i total) ops) <= HundredCore /\
      0 <= usedMemory (reserveAll (newDeviceInfo i total) ops) <= total).
Proof.
  split.
  - intros dev c m [Hc _] [Hm _] [Huc _] [Hum _] Hsc Hsm.
    destruct (AddUsedResources_uint dev c m) as (Hiff & Hfail & Hok).
    rewrite !uadd_exact in Hiff, Hok by lia.
    split; [exact Hiff|]. split; [exact Hfail|].
    intros Hn. destruct (Hok Hn) as [-> ->].
    destruct (AddUsedResources_static dev c m) as [-> ->]. done.
  - intros i total ops Ht.
    pose proof (reserveAll_within (newDeviceInfo i total) ops
                  (newDeviceInfo_within i total Ht)) as Hw.
    unfold within in Hw. rewrite reserveAll_totalMemory in Hw. exact Hw.
Qed.

(** C7 on a device with 4 units of memory that holds 20 cores and 1 unit:
    a request for 60 cores and 2 units is granted and added; and the
    ceilings hold after a fitting, an overflowing and a wrapping request on
    a new device. *)
Lemma AddUsedResources_reserve_witness :
  (AddUsedResources {| id := 0; totalMemory := 4; usedMemory := 1; usedCore := 20 |}
                    60 2).1 = None /\
  usedCore (AddUsedResources
              {| id := 0; totalMemory := 4; usedMemory := 1; usedCore := 20 |}
              60 2).2 = 20 + 60 /\
  0 <= usedCore (reserveAll (newDeviceInfo 0 4) [(60, 1); (50, 1); (2 ^ 64 - 1, 0)])
    <= HundredCore /\
  0 <= usedMemory (reserveAll (newDeviceInfo 0 4) [(60, 1); (50, 1); (2 ^ 64 - 1, 0)])
    <= 4.
Proof.
  assert (0 <= 4) as Ht by lia.
  destruct (proj1 AddUsedResources_reserve
              {| id := 0; totalMemory := 4; usedMemory := 1; usedCore := 20 |} 60 2)
    as (_ & _ & Hok); try (unfold is_uint; simpl; pow2; lia).
  assert ((AddUsedResources
             {| id := 0; totalMemory := 4; usedMemory := 1; usedCore := 20 |}
             60 2).1 = None) as Hn by reflexivity.
  split; [exact Hn|]. split; [exact (proj1 (Hok Hn))|].
  exact (proj2 AddUsedResources_reserve 0 4 [(60, 1); (50, 1); (2 ^ 64 - 1, 0)] Ht).
Defined.

(** C7 fails when the sum wraps: on a device that holds 20 cores the
    request for 2^64 - 10 cores exceeds the ceiling by far, and the call
    succeeds and leaves the device with 10 used cores. *)
Lemma AddUsedResources_wraps :
  is_uint (2 ^ 64 - 10) /\
  usedCore {| id := 0; totalMemory := 4; usedMemory := 0; usedCore := 20 |}
    + (2 ^ 64 - 10) > HundredCore /\
  (AddUsedResources {| id := 0; totalMemory := 4; usedMemory := 0; usedCore := 20 |}
                    (2 ^ 64 - 10) 0).1 = None /\
  usedCore (AddUsedResources
              {| id := 0; totalMemory := 4; usedMemory := 0; usedCore := 20 |}
              (2 ^ 64 - 10) 0).2 = 10.
Proof.
  split; [unfold is_uint; pow2; lia|].
  split; [unfold HundredCore; simpl; pow2; lia|].
  split; reflexivity.
Qed.

End DeviceProps.

(** ** NodeInfo *)
Module NodeInfoProps.
Import util device DeviceProps DeviceSpec NodeInfoSpec.

Lemma AddUsedResources_lookup n devID vcore vmemory :
  devs n !! devID = None ->
  AddUsedResources n devID vcore vmemory = Panicked NilDereference.
Proof. intros H. unfold AddUsedResources. by rewrite H. Qed.

(** The effect of NodeInfo.AddUsedResources on a present device. *)
Lemma AddUsedResources_present n devID vcore vmemory dev :
  devs n !! devID = Some dev ->
  exists err n',
    AddUsedResources n devID vcore vmemory = Done (err, n') /\
    err = (util.AddUsedResources dev vcore vmemory).1 /\
    devs n' = <[devID := (util.AddUsedResources dev vcore vmemory).2]> (devs n) /\
    deviceCount n' = deviceCount n /\ node n' = node n /\ name n' = name n /\
    totalMemory n' = totalMemory n /\
    (err = None ->
     usedCore n' = uadd (usedCore n) vcore /\
     usedMemory n' = uadd (usedMemory n) vmemory) /\
    (is_Some err -> n' = n).
Proof.
  intros H. unfold AddUsedResources. rewrite H.
  destruct (util.AddUsedResources dev vcore vmemory) as [err dev'] eqn:E.
  destruct err as [e|]; eexists _, _; (split; [reflexivity|]); simpl;
    repeat split; try done.
  intros _.
  assert (dev' = dev) as ->.
  { change dev' with (Some e, dev').2. rewrite <- E.
    eapply AddUsedResources_failure. by rewrite E. }
  rewrite insert_id by done. by destruct n.
Qed.

Lemma AddUsedResources_dense n devID vcore vmemory err n' :
  dense n ->
  AddUsedResources n devID vcore vmemory = Done (err, n') ->
  dense n' /\ deviceCount n' = deviceCount n /\ node n' = node n.
Proof.
  intros Hd Hrun.
  destruct (devs n !! devID) as [dev|] eqn:Hdev.
  2:{ rewrite AddUsedResources_lookup in Hrun by done. discriminate. }
  destruct (AddUsedResources_present n devID vcore vmemory dev Hdev)
    as (err0 & n0 & Hrun0 & _ & Hdevs & Hcount & Hnode & _).
  rewrite Hrun0 in Hrun. injection Hrun as <- <-.
  split; [|done].
  intros i Hi. rewrite Hcount in Hi. destruct (Hd i Hi) as (d & Hl & Hid & Hw & Ht).
  rewrite Hdevs. destruct (decide (devID = i)) as [->|Hne].
  - rewrite lookup_insert_eq. eexists; split; [reflexivity|].
    rewrite Hdev in Hl. injection Hl as ->.
    destruct (AddUsedResources_static d vcore vmemory) as [-> ->].
    split; [done|]. split; [by apply AddUsedResources_within|done].
  - rewrite lookup_insert_ne by done. eauto.
Qed.

Lemma forE_invariant {S A} (P : S -> Prop) (body : S -> A -> exec S) l :
  (forall s a s', P s -> body s a = Done s' -> P s') ->
  forall s s', P s -> forE body s l = Done s' -> P s'.
Proof.
  intros Hbody. induction l as [|a l IH]; intros s s' Hs Hrun; simpl in Hrun.
  - by injection Hrun as <-.
  - destruct (body s a) as [s1|] eqn:E; [|discriminate].
    eapply IH; [|exact Hrun]. eauto.
Qed.

Lemma replayIndex_inv count dtm c nd ret index ret' :
  replayInv count nd ret ->
  replayIndex count dtm c ret index = Done ret' ->
  replayInv count nd ret'.
Proof.
  intros (Hd & Hc & Hn) Hrun. unfold replayIndex in Hrun.
  destruct (count <=? index); [by injection Hrun as <-|].
  destruct (if GetGPUResourceOfContainer c VCoreAnnotation <? HundredCore
            then _ else _) as [vcore vmemory].
  destruct (AddUsedResources ret index vcore vmemory) as [[err n1]|] eqn:E;
    [|discriminate].
  simpl in Hrun. injection Hrun as <-.
  destruct (AddUsedResources_dense _ _ _ _ _ _ Hd E) as (? & ? & ?).
  unfold replayInv. split; [done|]. split; congruence.
Qed.

Lemma replayPod_inv count dtm nd ret pod ret' :
  replayInv count nd ret ->
  replayPod count dtm ret pod = Done ret' ->
  replayInv count nd ret'.
Proof.
  unfold replayPod. apply forE_invariant.
  intros s [i c] s' Hs Hrun. unfold replayContainer in Hrun.
  destruct (GetPredicateIdxOfContainer pod i) as [idxs [e|]].
  - by injection Hrun as <-.
  - revert Hs Hrun. apply forE_invariant.
    intros ? ? ?. apply replayIndex_inv.
Qed.

Lemma lookup_devMap (f : Z -> DeviceInfo) count i :
  0 <= i < count ->
  (list_to_map ((fun i => (i, f i)) <$> seqZ 0 count) : gmap Z DeviceInfo) !! i
  = Some (f i).
Proof.
  intros Hi. apply elem_of_list_to_map_1.
  - replace (((fun i => (i, f i)) <$> seqZ 0 count).*1) with (seqZ 0 count);
      [apply NoDup_seqZ|].
    induction (seqZ 0 count) as [|x l IH]; [done|]. simpl. f_equal. exact IH.
  - apply list_elem_of_fmap. exists i. split; [done|].
    apply elem_of_seqZ. lia.
Qed.

Lemma GetGPUDeviceCountOfNode_capacity nd :
  GetGPUDeviceCountOfNode nd = Z.quot (GetCapacityOfNode nd VCoreAnnotation) HundredCore.
Proof.
  unfold GetGPUDeviceCountOfNode, GetCapacityOfNode.
  by destruct (nodeCapacity nd !! VCoreAnnotation).
Qed.

Lemma GetCapacityOfNode_int nd r : - 2 ^ 63 <= GetCapacityOfNode nd r < 2 ^ 63.
Proof.
  unfold GetCapacityOfNode. destruct (nodeCapacity nd !! r); [|lia].
  unfold to_int. pose proof (Z.mod_pos_bound (z + 2 ^ 63) (2 ^ 64)). lia.
Qed.

(** NewNodeInfo divides by the device count, so it faults exactly on the
    nodes with less than one whole device. *)
Lemma NewNodeInfo_zero_devices nd pods :
  GetGPUDeviceCountOfNode nd = 0 -> NewNodeInfo nd pods = Panicked DivideByZero.
Proof. intros H. unfold NewNodeInfo. by rewrite H. Qed.

Lemma NewNodeInfo_guard_too_weak nd pods :
  IsGPUEnabledNode nd = true ->
  GetCapacityOfNode nd VCoreAnnotation < HundredCore ->
  NewNodeInfo nd pods = Panicked DivideByZero.
Proof.
  unfold IsGPUEnabledNode, HundredCore. intros Hpos%Z.ltb_lt Hlt.
  apply NewNodeInfo_zero_devices. rewrite GetGPUDeviceCountOfNode_capacity.
  apply Z.quot_small. unfold HundredCore. lia.
Qed.

Lemma device_count_positive nd :
  HundredCore <= GetCapacityOfNode nd VCoreAnnotation ->
  0 < GetGPUDeviceCountOfNode nd < 2 ^ 63.
Proof.
  unfold HundredCore. intros H. rewrite GetGPUDeviceCountOfNode_capacity.
  pose proof (GetCapacityOfNode_int nd VCoreAnnotation).
  unfold HundredCore. rewrite Z.quot_div_nonneg by lia.
  split.
  - apply Z.div_str_pos. lia.
  - apply Z.div_lt_upper_bound; lia.
Qed.

(** With at least one whole device and no pod to replay the view is built. *)
Lemma NewNodeInfo_whole_device nd :
  HundredCore <= GetCapacityOfNode nd VCoreAnnotation ->
  exists n, NewNodeInfo nd [] = Done n.
Proof.
  intros H. pose proof (device_count_positive nd H) as Hc.
  unfold NewNodeInfo, udiv.
  rewrite (to_uint_id (GetGPUDeviceCountOfNode nd)) by (pow2; lia).
  destruct (Z.eqb_spec (GetGPUDeviceCountOfNode nd) 0); [lia|].
  simpl. eauto.
Qed.

(** Every NodeInfo that NewNodeInfo returns for a node that passed the
    guard of the device filter satisfies the representation invariant. *)
Lemma NewNodeInfo_wf nd pods n :
  IsGPUEnabledNode nd = true ->
  NewNodeInfo nd pods = Done n ->
  wfNode n /\ node n = nd.
Proof.
  intros Hgpu Hrun.
  destruct (Z.lt_ge_cases (GetCapacityOfNode nd VCoreAnnotation) HundredCore) as [Hlt|Hge].
  { rewrite NewNodeInfo_guard_too_weak in Hrun by done. discriminate. }
  pose proof (device_count_positive nd Hge) as Hc.
  unfold NewNodeInfo, udiv in Hrun.
  rewrite (to_uint_id (GetGPUDeviceCountOfNode nd)) in Hrun by (pow2; lia).
  destruct (Z.eqb_spec (GetGPUDeviceCountOfNode nd) 0); [lia|].
  simpl in Hrun.
  set (dtm := to_uint (GetCapacityOfNode nd VMemoryAnnotation) / GetGPUDeviceCountOfNode nd) in *.
  assert (0 <= dtm < 2 ^ 64) as Hdtm.
  { pose proof (to_uint_range (GetCapacityOfNode nd VMemoryAnnotation)).
    subst dtm. pow2. split; [apply Z.div_pos; lia|].
    apply Z.div_lt_upper_bound; [lia|]. nia. }
  match type of Hrun with
  | forE _ ?ret0 _ = _ =>
      assert (replayInv (GetGPUDeviceCountOfNode nd) nd ret0) as H0
  end.
  { split; [|done]. intros i Hi. simpl in *.
    exists (newDeviceInfo i dtm). rewrite lookup_devMap by done.
    split; [done|]. split; [done|].
    split; [apply newDeviceInfo_within; lia|simpl; lia]. }
  pose proof (forE_invariant _ _ pods
                (fun s a s' Hs Hb => replayPod_inv _ _ _ s a s' Hs Hb) _ _ H0 Hrun)
    as (Hd & Hcount & Hnode).
  split; [|done]. unfold wfNode. rewrite Hnode, Hcount. split; [lia|done].
Qed.

(** An index at or above the device count is skipped; an index below it
    that names a device charges [replayCharge] to that device and to the
    node totals, unless the device would overflow, in which case the view
    is left as it was; in both cases the construction goes on. *)
Lemma replayIndex_spec count dtm c ret index :
  (count <= index -> replayIndex count dtm c ret index = Done ret) /\
  (forall dev, index < count -> devs ret !! index = Some dev ->
     exists ret', replayIndex count dtm c ret index = Done ret' /\
       let '(vcore, vmemory) := replayCharge dtm c in
       match (util.AddUsedResources dev vcore vmemory).1 with
       | Some _ => ret' = ret
       | None =>
           devs ret' = <[index := (util.AddUsedResources dev vcore vmemory).2]> (devs ret) /\
           usedCore ret' = uadd (usedCore ret) vcore /\
           usedMemory ret' = uadd (usedMemory ret) vmemory
       end) /\
  (index < count -> devs ret !! index = None ->
     replayIndex count dtm c ret index = Panicked NilDereference).
Proof.
  unfold replayIndex, replayCharge. split; [|split].
  - intros H. by destruct (Z.leb_spec count index); [|lia].
  - intros dev H Hdev. destruct (Z.leb_spec count index); [lia|].
    destruct (if GetGPUResourceOfContainer c VCoreAnnotation <? HundredCore
              then _ else _) as [vcore vmemory].
    destruct (AddUsedResources_present ret index vcore vmemory dev Hdev)
      as (err & n' & Hrun & Herr & Hdevs & _ & _ & _ & _ & Hok & Hfail).
    rewrite Hrun. simpl. eexists; split; [reflexivity|].
    rewrite <- Herr. destruct err; [apply Hfail; eauto|].
    destruct (Hok eq_refl). auto.
  - intros H Hdev. destruct (Z.leb_spec count index); [lia|].
    destruct (if GetGPUResourceOfContainer c VCoreAnnotation <? HundredCore
              then _ else _) as [vcore vmemory].
    by rewrite AddUsedResources_lookup.
Qed.

(** In a dense view the indices that fault are exactly the negative ones. *)
Lemma replayIndex_negative count dtm c ret index :
  dense ret -> deviceCount ret = count ->
  (forall i d, devs ret !! i = Some d -> 0 <= i) ->
  index < 0 -> 0 <= count ->
  replayIndex count dtm c ret index = Panicked NilDereference.
Proof.
  intros _ _ Hkeys Hneg Hc. apply replayIndex_spec; [lia|].
  destruct (devs ret !! index) eqn:E; [|done]. apply Hkeys in E. lia.
Qed.

Lemma forE_total {S A} (P : S -> Prop) (Q : A -> Prop) (body : S -> A -> exec S) l :
  (forall s a, P s -> Q a -> exists s', body s a = Done s' /\ P s') ->
  forall s, P s -> Forall Q l -> exists s', forE body s l = Done s' /\ P s'.
Proof.
  intros Hbody. induction l as [|a l IH]; intros s Hs Hl; simpl.
  - eauto.
  - inversion Hl as [|? ? Ha Hl']; subst.
    destruct (Hbody s a Hs Ha) as (s1 & -> & Hs1). cbn. by apply IH.
Qed.

Lemma replayIndex_total count dtm c nd ret index :
  replayInv count nd ret -> 0 <= index ->
  exists ret', replayIndex count dtm c ret index = Done ret' /\
               replayInv count nd ret'.
Proof.
  intros Hinv Hidx.
  assert (exists ret', replayIndex count dtm c ret index = Done ret') as [ret' Hrun].
  { destruct (Z.le_gt_cases count index) as [Hge|Hlt].
    - exists ret. by apply replayIndex_spec.
    - destruct Hinv as (Hd & Hc & _). destruct (Hd index) as (dev & Hlk & _); [lia|].
      destruct (proj1 (proj2 (replayIndex_spec count dtm c ret index)) dev)
        as (ret' & Hrun & _); [lia|done|]. eauto. }
  exists ret'. split; [done|]. by eapply replayIndex_inv.
Qed.

Lemma replayPod_total count dtm nd ret pod :
  replayInv count nd ret -> sanePod pod ->
  exists ret', replayPod count dtm ret pod = Done ret' /\ replayInv count nd ret'.
Proof.
  intros Hinv Hsane. unfold replayPod.
  apply (forE_total (replayInv count nd) (fun _ => True)); [|done|].
  - intros s [i c] Hs _. unfold replayContainer.
    destruct (GetPredicateIdxOfContainer pod i) as [idxs [e|]] eqn:E; [eauto|].
    apply (forE_total (replayInv count nd) (Z.le 0)); [|done|by eapply Hsane].
    intros s0 index Hs0 Hidx. by apply replayIndex_total.
  - by apply Forall_forall.
Qed.

(** With at least one whole device and no negative index among the
    annotations of the pods on the node, the view is built. *)
Lemma NewNodeInfo_total nd pods :
  HundredCore <= GetCapacityOfNode nd VCoreAnnotation ->
  Forall sanePod pods ->
  exists n, NewNodeInfo nd pods = Done n.
Proof.
  intros Hge Hsane. pose proof (device_count_positive nd Hge) as Hc.
  unfold NewNodeInfo, udiv.
  rewrite (to_uint_id (GetGPUDeviceCountOfNode nd)) by (pow2; lia).
  destruct (Z.eqb_spec (GetGPUDeviceCountOfNode nd) 0); [lia|].
  cbn.
  set (dtm := to_uint (GetCapacityOfNode nd VMemoryAnnotation) / GetGPUDeviceCountOfNode nd).
  assert (0 <= dtm < 2 ^ 64) as Hdtm.
  { pose proof (to_uint_range (GetCapacityOfNode nd VMemoryAnnotation)).
    subst dtm. pow2. split; [apply Z.div_pos; lia|].
    apply Z.div_lt_upper_bound; [lia|]. nia. }
  match goal with
  | |- exists _, forE _ ?ret0 _ = _ =>
      assert (replayInv (GetGPUDeviceCountOfNode nd) nd ret0) as H0
  end.
  { split; [|done]. intros i Hi. simpl in *.
    exists (newDeviceInfo i dtm). rewrite lookup_devMap by done.
    split; [done|]. split; [done|].
    split; [apply newDeviceInfo_within; lia|simpl; lia]. }
  pose proof (forE_total (replayInv (GetGPUDeviceCountOfNode nd) nd) sanePod
                (replayPod (GetGPUDeviceCountOfNode nd) dtm) pods) as Htotal.
  destruct (Htotal (fun s pod Hs Hp => replayPod_total _ _ _ s pod Hs Hp) _ H0 Hsane)
    as (ni & Hrun & _).
  eauto.
Qed.

End NodeInfoProps.

(** ** The comparators and the sort *)
Module OrderProps.
Import util device DeviceProps DeviceSpec OrderSpec.

(** [Less] over the three comparators, written out. *)
Lemma Less_priority {A} `{LessFuncs A} (x y : A) :
  Less priority x y =
    if ByAllocatableCores x y then true
    else if ByAllocatableCores y x then false
    else if ByAllocatableMemory x y then true
    else if ByAllocatableMemory y x then false
    else ByID x y.
Proof. reflexivity. Qed.

Lemma Less_devBefore (x y : DeviceInfo) :
  Less priority x y = true <-> devBefore x y.
Proof.
  rewrite Less_priority. unfold devBefore. simpl.
  destruct (Z.ltb_spec (AllocatableCores x) (AllocatableCores y));
  destruct (Z.ltb_spec (AllocatableCores y) (AllocatableCores x));
  destruct (Z.ltb_spec (AllocatableMemory x) (AllocatableMemory y));
  destruct (Z.ltb_spec (AllocatableMemory y) (AllocatableMemory x));
  destruct (Z.ltb_spec (GetID x) (GetID y)); split; intros; try lia; try done.
Qed.

Lemma notAfter_dev (x y : DeviceInfo) :
  notAfter priority x y <-> ~ devBefore y x.
Proof.
  unfold notAfter. rewrite <- Less_devBefore.
  destruct (Less priority y x); split; intros; try done.
Qed.

Lemma notAfter_dev_total : Total (notAfter (priority (A := DeviceInfo))).
Proof.
  intros x y. rewrite !notAfter_dev. unfold devBefore.
  destruct (Z.lt_total (AllocatableCores x) (AllocatableCores y)) as [?|[?|?]];
  destruct (Z.lt_total (AllocatableMemory x) (AllocatableMemory y)) as [?|[?|?]];
  destruct (Z.lt_total (GetID x) (GetID y)) as [?|[?|?]];
    first [left; lia | right; lia].
Qed.

Lemma notAfter_dev_trans : Transitive (notAfter (priority (A := DeviceInfo))).
Proof.
  intros x y z. rewrite !notAfter_dev. unfold devBefore. lia.
Qed.

(** Two devices that the order does not separate have the same id. *)
Lemma notAfter_dev_antisym (x y : DeviceInfo) :
  notAfter priority x y -> notAfter priority y x -> GetID x = GetID y.
Proof. rewrite !notAfter_dev. unfold devBefore. lia. Qed.

Lemma Sort_Permutation {A} (less : list (A -> A -> bool)) (data : list A) :
  Sort less data ≡ₚ data.
Proof. apply merge_sort_Permutation. Qed.

Lemma Sort_dev_sorted (data : list DeviceInfo) :
  StronglySorted (notAfter priority) (Sort priority data).
Proof.
  exact (@StronglySorted_merge_sort _ _ _ notAfter_dev_trans notAfter_dev_total data).
Qed.

(** On nodes the third comparator is the byte-wise order of the names. *)
Lemma ltb_not_leb (s1 s2 : string) : String.ltb s1 s2 = negb (String.leb s2 s1).
Proof.
  unfold String.ltb, String.leb. rewrite (String.compare_antisym s1 s2).
  by destruct (String.compare s2 s1).
Qed.

Lemma notAfter_node (x y : NodeInfo) :
  notAfter priority x y <-> nodeKeyLe x y.
Proof.
  unfold notAfter, nodeKeyLe. rewrite Less_priority. simpl.
  rewrite ltb_not_leb. unfold String.le.
  destruct (Z.ltb_spec (GetAvailableCore x) (GetAvailableCore y));
  destruct (Z.ltb_spec (GetAvailableCore y) (GetAvailableCore x));
  destruct (Z.ltb_spec (GetAvailableMemory x) (GetAvailableMemory y));
  destruct (Z.ltb_spec (GetAvailableMemory y) (GetAvailableMemory x));
  destruct (String.leb (GetName x) (GetName y)); simpl;
    split; intros; try lia; try done; try (by intuition lia).
Qed.

Lemma notAfter_node_total : Total (notAfter (priority (A := NodeInfo))).
Proof.
  intros x y. rewrite !notAfter_node. unfold nodeKeyLe.
  destruct (total String.le (GetName x) (GetName y));
  destruct (Z.lt_total (GetAvailableCore x) (GetAvailableCore y)) as [?|[?|?]];
  destruct (Z.lt_total (GetAvailableMemory x) (GetAvailableMemory y)) as [?|[?|?]];
    first [left; by intuition lia | right; by intuition lia].
Qed.

Lemma notAfter_node_trans : Transitive (notAfter (priority (A := NodeInfo))).
Proof.
  intros x y z. rewrite !notAfter_node. unfold nodeKeyLe.
  intros Hxy Hyz.
  assert (String.le (GetName x) (GetName y) -> String.le (GetName y) (GetName z) ->
          String.le (GetName x) (GetName z)) by (intros; by etrans).
  intuition lia.
Qed.

Lemma NodeInfoSort_sorted (data : list NodeInfo) :
  StronglySorted (notAfter priority) (NodeInfoSort data).
Proof.
  exact (@StronglySorted_merge_sort _ _ _ notAfter_node_trans notAfter_node_total data).
Qed.

Lemma NodeInfoSort_Permutation (data : list NodeInfo) :
  NodeInfoSort data ≡ₚ data.
Proof. apply merge_sort_Permutation. Qed.

(** [sort.Sort] is not stable, but where no two elements share the last
    key the ascending order is unique: whatever algorithm sorts the
    devices of a node, or views with distinct names, the result is the
    list that [Sort] computes. *)
Lemma NoDup_fmap_elem_inj {A B} (f : A -> B) (l : list A) x y :
  NoDup (f <$> l) -> x ∈ l -> y ∈ l -> f x = f y -> x = y.
Proof.
  induction l as [|a l IH]; intros Hnd Hx Hy Hxy; [by apply elem_of_nil in Hx|].
  rewrite fmap_cons in Hnd. apply NoDup_cons in Hnd as [Ha Hnd].
  apply elem_of_cons in Hx as [->|Hx]; apply elem_of_cons in Hy as [->|Hy]; auto.
  - exfalso. apply Ha. rewrite Hxy. by apply list_elem_of_fmap_2.
  - exfalso. apply Ha. rewrite <- Hxy. by apply list_elem_of_fmap_2.
Qed.

Lemma Sort_dev_unique (store l : list DeviceInfo) :
  NoDup (GetID <$> store) -> l ≡ₚ store ->
  StronglySorted (notAfter priority) l -> l = Sort priority store.
Proof.
  intros Hnd Hperm Hsorted.
  apply (StronglySorted_unique_strong (notAfter priority)); [|done|apply Sort_dev_sorted|].
  - intros x y Hx Hy Hxy Hyx. apply (NoDup_fmap_elem_inj GetID store); [done| | |].
    + by rewrite <- Hperm.
    + by rewrite <- (Sort_Permutation priority store).
    + by apply notAfter_dev_antisym.
  - by rewrite Hperm, (Sort_Permutation priority store).
Qed.

Lemma NodeInfoSort_unique (views l : list NodeInfo) :
  NoDup (GetName <$> views) -> l ≡ₚ views ->
  StronglySorted (notAfter priority) l -> l = NodeInfoSort views.
Proof.
  intros Hnd Hperm Hsorted.
  apply (StronglySorted_unique_strong (notAfter priority)); [|done|apply NodeInfoSort_sorted|].
  - intros x y Hx Hy Hxy%notAfter_node Hyx%notAfter_node.
    apply (NoDup_fmap_elem_inj GetName views); [done| | |].
    + by rewrite <- Hperm.
    + by rewrite <- (NodeInfoSort_Permutation views).
    + apply (anti_symm String.le); unfold nodeKeyLe in *; intuition lia.
  - by rewrite Hperm, (NodeInfoSort_Permutation views).
Qed.

(** The ascending order in terms of the keys. On devices of distinct ids
    it is strict: every device is before all later ones in the
    lexicographic order on (allocatable cores, allocatable memory, id). *)
Lemma StronglySorted_iff {A} (R R' : A -> A -> Prop) (l : list A) :
  (forall x y, R x y <-> R' x y) -> StronglySorted R l -> StronglySorted R' l.
Proof.
  intros Hiff Hs. induction Hs as [|x l Hs IH Hall]; constructor; [done|].
  eapply Forall_impl; [exact Hall|]. intros y Hy. by apply Hiff.
Qed.

Lemma StronglySorted_devBefore (l : list DeviceInfo) :
  NoDup (GetID <$> l) ->
  StronglySorted (notAfter priority) l <-> StronglySorted devBefore l.
Proof.
  intros Hnd. split; intros Hs.
  - induction Hs as [|x l Hs IH Hall]; [constructor|].
    rewrite fmap_cons in Hnd. apply NoDup_cons in Hnd as [Hx Hnd].
    constructor; [by apply IH|].
    rewrite Forall_forall in Hall |- *. intros y Hy.
    specialize (Hall y Hy). apply notAfter_dev in Hall.
    assert (GetID x <> GetID y) as Hne.
    { intros Heq. apply Hx. rewrite Heq. by apply list_elem_of_fmap_2. }
    unfold devBefore in *. lia.
  - clear Hnd. induction Hs as [|x l Hs IH Hall]; constructor; [done|].
    eapply Forall_impl; [exact Hall|]. intros y Hy.
    apply notAfter_dev. unfold devBefore in *. lia.
Qed.

Lemma Sort_devBefore (store : list DeviceInfo) :
  NoDup (GetID <$> store) -> StronglySorted devBefore (Sort priority store).
Proof.
  intros Hnd. apply StronglySorted_devBefore; [|apply Sort_dev_sorted].
  by rewrite (Sort_Permutation priority store).
Qed.

Lemma Sort_devBefore_unique (store l : list DeviceInfo) :
  NoDup (GetID <$> store) -> l ≡ₚ store ->
  StronglySorted devBefore l -> l = Sort priority store.
Proof.
  intros Hnd Hperm Hs. apply Sort_dev_unique; [done|done|].
  apply StronglySorted_devBefore; [by rewrite Hperm|done].
Qed.

Lemma NodeInfoSort_nodeKeyLe (data : list NodeInfo) :
  StronglySorted nodeKeyLe (NodeInfoSort data).
Proof.
  eapply StronglySorted_iff; [|apply NodeInfoSort_sorted].
  intros x y. apply notAfter_node.
Qed.

Lemma NodeInfoSort_nodeKeyLe_unique (views l : list NodeInfo) :
  NoDup (GetName <$> views) -> l ≡ₚ views ->
  StronglySorted nodeKeyLe l -> l = NodeInfoSort views.
Proof.
  intros Hnd Hperm Hs. apply NodeInfoSort_unique; [done|done|].
  eapply StronglySorted_iff; [|exact Hs]. intros x y. symmetry. apply notAfter_node.
Qed.

End OrderProps.

(** ** The allocator *)
Module AllocatorProps.
Import util device algorithm DeviceProps NodeInfoProps OrderProps DeviceSpec NodeInfoSpec OrderSpec AllocatorSpec.

Lemma mapM_dense n (l : list Z) :
  dense n -> Forall (fun i => 0 <= i < deviceCount n) l ->
  exists store,
    mapM (fun i => GetDeviceMap n !! i) l = Some store /\
    GetID <$> store = l /\
    Forall (fun d => devs n !! GetID d = Some d /\ within d /\
                     util.totalMemory d < 2 ^ 64) store.
Proof.
  intros Hd. induction l as [|i l IH]; intros Hl.
  - exists []. by repeat split.
  - inversion Hl as [|? ? Hi Hl']; subst.
    destruct (IH Hl') as (store & Hm & Hids & Hall).
    destruct (Hd i Hi) as (d & Hlk & Hid & Hw & Ht).
    exists (d :: store). cbn. unfold GetDeviceMap in *. rewrite Hlk. cbn.
    rewrite Hm. cbn. split; [done|]. split.
    + unfold GetID at 1. by rewrite Hid, Hids.
    + constructor; [|done]. unfold GetID. by rewrite Hid.
Qed.

Lemma tmpStore_wf n : wfNode n -> exists store, storeOf n store.
Proof.
  intros (Hpos & _ & Hd).
  destruct (mapM_dense n (seqZ 0 (deviceCount n)) Hd) as (store & Hm & Hids & Hall).
  { apply Forall_forall. intros i Hi%elem_of_seqZ. lia. }
  exists store. unfold storeOf, tmpStore, GetDeviceCount.
  destruct (Z.ltb_spec (deviceCount n) 0); [lia|]. by rewrite Hm.
Qed.

Lemma storeOf_NoDup n store : storeOf n store -> NoDup (GetID <$> store).
Proof. intros (_ & -> & _). apply NoDup_seqZ. Qed.

Lemma fits_test cores memory d :
  (cores <=? AllocatableCores d) && (memory <=? AllocatableMemory d) = true
  <-> fits cores memory d.
Proof. unfold fits. rewrite andb_true_iff, !Z.leb_le. tauto. Qed.

(** The scan returns the first fitting device of the slice, or nothing
    when no device fits. *)
Lemma pickShare_first cores memory l :
  (exists pre d post,
      l = pre ++ d :: post /\ Forall (fun d' => ~ fits cores memory d') pre /\
      fits cores memory d /\ pickShare cores memory l = [d]) \/
  (Forall (fun d' => ~ fits cores memory d') l /\ pickShare cores memory l = []).
Proof.
  induction l as [|x l IH]; [right; split; [constructor|done]|].
  simpl. destruct ((cores <=? AllocatableCores x) && (memory <=? AllocatableMemory x)) eqn:E.
  - left. exists [], x, l. apply fits_test in E.
    split; [done|]. split; [constructor|]. by split.
  - assert (~ fits cores memory x) as Hx.
    { intros H%fits_test. congruence. }
    destruct IH as [(pre & d & post & -> & Hpre & Hd & Hp)|[Hall Hp]].
    + left. exists (x :: pre), d, post.
      split; [done|]. split; [by constructor|]. by split.
    + right. split; [by constructor|done].
Qed.

(** A fitting request can be charged to a device within its ceilings. *)
Lemma fits_charge cores memory d :
  within d -> util.totalMemory d < 2 ^ 64 ->
  0 <= cores -> 0 <= memory ->
  fits cores memory d ->
  (util.AddUsedResources d cores memory).1 = None.
Proof.
  intros [Hc Hm] Ht Hcores Hmem [Hfc Hfm].
  unfold AllocatableCores, AllocatableMemory, HundredCore in *.
  rewrite usub_exact in Hfc, Hfm by (pow2; lia).
  destruct (util.AddUsedResources d cores memory).1 eqn:E; [|done].
  assert (is_Some (util.AddUsedResources d cores memory).1) as H by (rewrite E; eauto).
  apply AddUsedResources_fails_iff in H. unfold HundredCore in H.
  rewrite !uadd_exact in H by (pow2; lia). lia.
Qed.

Lemma GetGPUResourceOfContainer_uint c r :
  0 <= GetGPUResourceOfContainer c r < 2 ^ 64.
Proof.
  unfold GetGPUResourceOfContainer. destruct (cLimits c !! r).
  - apply to_uint_range.
  - pow2; lia.
Qed.

Lemma AllocateOne_unfold n c :
  wfNode n ->
  AllocateOne n c =
    let needCores := GetGPUResourceOfContainer c VCoreAnnotation in
    let needMemory := GetGPUResourceOfContainer c VMemoryAnnotation in
    let sharedMode := needCores <? HundredCore in
    devs ← (if sharedMode
            then shareMode.Evaluate n needCores needMemory
            else exclusiveMode.Evaluate n needCores needMemory);
    if (length devs =? 0)%nat then
      Done (Fail ("failed to allocate for container " +:+ cName c), n)
    else
      let '(vcore, vmemory) :=
        if sharedMode then (needCores, needMemory)
        else (HundredCore, deviceTotalMemoryOf n) in
      '(err, nodeInfo') ← chargeAll n vcore vmemory devs;
      match err with
      | Some e => Done (Fail e, nodeInfo')
      | None => Done (Ok devs, nodeInfo')
      end.
Proof.
  intros (Hpos & Hcount & _). unfold AllocateOne, idiv, deviceTotalMemoryOf, GetNode.
  rewrite Hcount. by destruct (Z.eqb_spec (deviceCount n) 0); [lia|].
Qed.

(** C5. For a container with 0 < cores < 100 on a node view of the device
    filter: the allocator sorts all devices of the node ascending by
    (allocatable cores, allocatable memory, id) (in the sorted slice every
    device is before all later ones in the lexicographic order on these
    three keys, which fixes the slice whatever the sorting algorithm), and
    returns exactly the first device of that order with
    allocatableCores >= cores and allocatableMemory >= memory; never more
    than one device; and when no single device fits the request is
    rejected. *)
Theorem shareMode_first_fit (n : NodeInfo) (c : Container) :
  wfNode n ->
  0 < GetGPUResourceOfContainer c VCoreAnnotation < HundredCore ->
  exists store picked,
    storeOf n store /\
    Sort priority store ≡ₚ store /\
    StronglySorted devBefore (Sort priority store) /\
    (forall l, l ≡ₚ store -> StronglySorted devBefore l ->
               l = Sort priority store) /\
    shareMode.Evaluate n (GetGPUResourceOfContainer c VCoreAnnotation)
                         (GetGPUResourceOfContainer c VMemoryAnnotation)
      = Done picked /\
    (length picked <= 1)%nat /\
    ((exists pre d post,
         Sort priority store = pre ++ d :: post /\
         Forall (fun d' => ~ fits (GetGPUResourceOfContainer c VCoreAnnotation)
                                  (GetGPUResourceOfContainer c VMemoryAnnotation) d') pre /\
         fits (GetGPUResourceOfContainer c VCoreAnnotation)
              (GetGPUResourceOfContainer c VMemoryAnnotation) d /\
         picked = [d] /\
         exists n', AllocateOne n c = Done (Ok [d], n')) \/
     (Forall (fun d' => ~ fits (GetGPUResourceOfContainer c VCoreAnnotation)
                               (GetGPUResourceOfContainer c VMemoryAnnotation) d') store /\
      picked = [] /\
      exists err, AllocateOne n c = Done (Fail err, n))).
Proof.
  intros Hwf Hcores.
  set (cores := GetGPUResourceOfContainer c VCoreAnnotation) in *.
  set (memory := GetGPUResourceOfContainer c VMemoryAnnotation) in *.
  destruct (tmpStore_wf n Hwf) as (store & Hstore).
  pose proof Hstore as (Htmp & Hids & Hall).
  assert (shareMode.Evaluate n cores memory
          = Done (pickShare cores memory (Sort priority store))) as Heval.
  { unfold shareMode.Evaluate. by rewrite Htmp. }
  exists store, (pickShare cores memory (Sort priority store)).
  split; [done|]. split; [apply Sort_Permutation|].
  split; [apply Sort_devBefore; by eapply storeOf_NoDup|].
  split; [intros l; apply Sort_devBefore_unique; by eapply storeOf_NoDup|].
  split; [done|].
  rewrite (AllocateOne_unfold n c Hwf). fold cores memory. cbv zeta.
  destruct (Z.ltb_spec cores HundredCore); [|lia].
  rewrite Heval. cbn.
  destruct (pickShare_first cores memory (Sort priority store))
    as [(pre & d & post & Hsplit & Hpre & Hd & Hp)|[Hnone Hp]]; rewrite Hp.
  - split; [simpl; lia|]. left. exists pre, d, post.
    split; [done|]. split; [done|]. split; [done|]. split; [done|].
    assert (d ∈ store) as Hin.
    { rewrite <- (Sort_Permutation priority store), Hsplit.
      rewrite elem_of_app, elem_of_cons. auto. }
    rewrite Forall_forall in Hall. destruct (Hall d Hin) as (Hlk & Hw & Ht).
    cbn. destruct (AddUsedResources_present n (GetID d) cores memory d Hlk)
      as (err & n' & Hrun & Herr & _).
    unfold mbind, exec_mbind. rewrite Hrun. cbn.
    rewrite fits_charge in Herr; try done; try lia.
    + subst err. eauto.
    + subst memory. apply GetGPUResourceOfContainer_uint.
  - split; [simpl; lia|]. right. split; [|split; [done|cbn; eauto]].
    by rewrite <- (Sort_Permutation priority store).
Qed.

(** The scan takes free devices in order until [num] of them are found. *)
Lemma pickExclusive_spec l : forall num acc,
  0 <= num ->
  pickExclusive num acc l =
    if Z.of_nat (length (filter isFree l)) <? num
    then (acc ++ filter isFree l, num - Z.of_nat (length (filter isFree l)))
    else (acc ++ take (Z.to_nat num) (filter isFree l), 0).
Proof.
  induction l as [|dev rest IH]; intros num acc Hnum; simpl.
  - change (Z.of_nat 0) with 0. rewrite filter_nil. destruct (Z.ltb_spec 0 num).
    + by rewrite app_nil_r, Z.sub_0_r.
    + rewrite take_nil, app_nil_r. f_equal. lia.
  - destruct (Z.eqb_spec num 0) as [->|Hne].
    + destruct (Z.ltb_spec (Z.of_nat (length (filter isFree (dev :: rest)))) 0); [lia|].
      simpl. by rewrite take_0, app_nil_r.
    + destruct (Z.eqb_spec (AllocatableCores dev) HundredCore) as [Hfree|Hused].
      * rewrite filter_cons_True by done. rewrite IH by lia. simpl length.
        destruct (Z.ltb_spec (Z.of_nat (length (filter isFree rest))) (num - 1));
        destruct (Z.ltb_spec (Z.of_nat (S (length (filter isFree rest)))) num);
          try lia.
        -- rewrite <- app_assoc. simpl. f_equal. lia.
        -- rewrite <- app_assoc. simpl.
           replace (Z.to_nat num) with (S (Z.to_nat (num - 1))) by lia. done.
      * rewrite filter_cons_False by done. by apply IH.
Qed.

Lemma exclusive_num cores k :
  0 < k -> cores = k * HundredCore -> cores < 2 ^ 64 ->
  to_int (cores / HundredCore) = k.
Proof.
  intros Hk -> Hlt. unfold HundredCore in *. rewrite Z.div_mul by lia.
  apply to_int_id. pow2. lia.
Qed.

Lemma exclusiveMode_Evaluate n store cores memory k :
  storeOf n store ->
  0 < k -> cores = k * HundredCore -> cores < 2 ^ 64 ->
  exclusiveMode.Evaluate n cores memory =
    Done (if Z.of_nat (length (filter isFree (Sort priority store))) <? k
          then []
          else take (Z.to_nat k) (filter isFree (Sort priority store))).
Proof.
  intros (Htmp & _) Hk Hcores Hlt. unfold exclusiveMode.Evaluate.
  rewrite Htmp. cbn. rewrite (exclusive_num cores k) by done.
  rewrite pickExclusive_spec by lia.
  destruct (Z.ltb_spec (Z.of_nat (length (filter isFree (Sort priority store)))) k).
  - by destruct (Z.ltb_spec 0 (k - Z.of_nat (length (filter isFree (Sort priority store)))));
      [|lia].
  - done.
Qed.

(** The charging loop on devices with distinct ids that the node holds:
    it stops at the first device that refuses the charge; the devices it
    charged hold the new counters, all other entries are untouched. *)
Lemma chargeAll_spec vcore vmemory : forall ds n,
  NoDup (GetID <$> ds) ->
  Forall (fun d => devs n !! GetID d = Some d) ds ->
  exists err n',
    chargeAll n vcore vmemory ds = Done (err, n') /\
    (forall i, i ∉ GetID <$> ds -> devs n' !! i = devs n !! i) /\
    (err = None ->
     Forall (fun d => (util.AddUsedResources d vcore vmemory).1 = None /\
                      devs n' !! GetID d
                      = Some (util.AddUsedResources d vcore vmemory).2) ds) /\
    (Forall (fun d => (util.AddUsedResources d vcore vmemory).1 = None) ds ->
     err = None) /\
    (ds = [] -> n' = n).
Proof.
  induction ds as [|d ds IH]; intros n Hnd Hlk.
  - exists None, n. simpl. repeat split; auto.
  - inversion Hlk as [|? ? Hd Hds]; subst.
    rewrite fmap_cons in Hnd. apply NoDup_cons in Hnd as [Hnotin Hnd].
    destruct (AddUsedResources_present n (GetID d) vcore vmemory d Hd)
      as (err0 & n1 & Hrun & Herr & Hdevs & _ & _ & _ & _ & _ & Hfail).
    simpl. unfold mbind, exec_mbind. rewrite Hrun. cbn.
    destruct err0 as [e|].
    + rewrite (Hfail (ltac:(eauto))) in *.
      exists (Some e), n. split; [done|]. split; [done|].
      split; [discriminate|]. split; [|discriminate].
      intros Hall. inversion Hall; subst. congruence.
    + assert (Forall (fun d' => devs n1 !! GetID d' = Some d') ds) as Hlk1.
      { rewrite Forall_forall in Hds |- *. intros d' Hd'.
        rewrite Hdevs, lookup_insert_ne; [by apply Hds|].
        intros Heq. apply Hnotin. rewrite Heq. by apply list_elem_of_fmap_2. }
      destruct (IH n1 Hnd Hlk1) as (err & n' & Hrun' & Hframe & Hok & Hall & _).
      exists err, n'. split; [done|]. split; [|split; [|split]].
      * intros i Hi. apply not_elem_of_cons in Hi as [Hne Hi].
        rewrite (Hframe i Hi), Hdevs. by rewrite lookup_insert_ne.
      * intros ->. constructor; [|by apply Hok].
        split; [done|]. rewrite (Hframe _ Hnotin), Hdevs. by rewrite lookup_insert_eq.
      * intros Hall'. inversion Hall'; subst. by apply Hall.
      * discriminate.
Qed.


(** *** The allocator never faults on a view of the device filter *)
Lemma store_ids n store d :
  storeOf n store -> d ∈ store -> 0 <= GetID d < deviceCount n.
Proof.
  intros (_ & Hids & _) Hd.
  assert (GetID d ∈ seqZ 0 (deviceCount n)) as Hin
    by (rewrite <- Hids; by apply list_elem_of_fmap_2).
  apply elem_of_seqZ in Hin. lia.
Qed.

Lemma pickShare_elem cores memory l d :
  d ∈ pickShare cores memory l -> d ∈ l.
Proof.
  destruct (pickShare_first cores memory l)
    as [(pre & x & post & -> & _ & _ & ->)|[_ ->]].
  - intros ->%list_elem_of_singleton. rewrite elem_of_app, elem_of_cons. auto.
  - by intros ?%elem_of_nil.
Qed.

Lemma exclusive_picked_elem num l d :
  0 <= num ->
  d ∈ (let '(devs, num') := pickExclusive num [] l in
       if 0 <? num' then [] else devs) ->
  d ∈ l.
Proof.
  intros Hnum. rewrite pickExclusive_spec by done.
  destruct (Z.of_nat (length (filter isFree l)) <? num) eqn:E.
  - apply Z.ltb_lt in E.
    destruct (Z.ltb_spec 0 (num - Z.of_nat (length (filter isFree l)))); [|lia].
    by intros ?%elem_of_nil.
  - simpl. intros Hd. eapply elem_of_sublist; [exact Hd|].
    etrans; [apply sublist_take|apply sublist_filter].
Qed.

Lemma Evaluate_total n (shared : bool) cores memory :
  wfNode n -> 0 <= cores < 2 ^ 64 ->
  exists devs,
    (if shared then shareMode.Evaluate n cores memory
     else exclusiveMode.Evaluate n cores memory) = Done devs /\
    Forall (fun d => 0 <= GetID d < deviceCount n) devs.
Proof.
  intros Hwf Hcores. destruct (tmpStore_wf n Hwf) as (store & Hstore).
  pose proof Hstore as (Htmp & _).
  assert (forall d, d ∈ Sort priority store -> 0 <= GetID d < deviceCount n) as Hrange.
  { intros d Hd. eapply store_ids; [exact Hstore|].
    by rewrite <- (Sort_Permutation priority store). }
  destruct shared.
  - unfold shareMode.Evaluate. rewrite Htmp. cbn. eexists; split; [reflexivity|].
    apply Forall_forall. intros d Hd%pickShare_elem. auto.
  - unfold exclusiveMode.Evaluate. rewrite Htmp. cbn.
    assert (0 <= to_int (cores / HundredCore)) as Hnum.
    { unfold HundredCore. rewrite to_int_id.
      - apply Z.div_pos; lia.
      - pow2. split; [pose proof (Z.div_pos cores 100); lia|].
        apply Z.div_lt_upper_bound; lia. }
    pose proof (exclusive_picked_elem (to_int (cores / HundredCore))
                  (Sort priority store)) as Hel.
    destruct (pickExclusive (to_int (cores / HundredCore)) [] (Sort priority store))
      as [devs num'].
    destruct (0 <? num'); eexists; (split; [reflexivity|]);
      apply Forall_forall; intros d Hd; apply Hrange, Hel; done.
Qed.

Lemma chargeAll_total vcore vmemory : forall ds n,
  dense n ->
  Forall (fun d => 0 <= GetID d < deviceCount n) ds ->
  exists err n',
    chargeAll n vcore vmemory ds = Done (err, n') /\
    dense n' /\ deviceCount n' = deviceCount n /\ node n' = node n.
Proof.
  induction ds as [|d ds IH]; intros n Hd Hids.
  - exists None, n. by repeat split.
  - inversion Hids as [|? ? Hid Hrest]; subst.
    destruct (Hd _ Hid) as (dev & Hlk & _).
    destruct (AddUsedResources_present n (GetID d) vcore vmemory dev Hlk)
      as (err0 & n1 & Hrun & _).
    destruct (AddUsedResources_dense _ _ _ _ _ _ Hd Hrun) as (Hd1 & Hc1 & Hn1).
    simpl. unfold mbind, exec_mbind. rewrite Hrun. cbn.
    destruct err0 as [e|]; [by exists (Some e), n1|].
    destruct (IH n1 Hd1) as (err & n' & Hrun' & Hd' & Hc' & Hn').
    { by rewrite Hc1. }
    exists err, n'. split; [done|]. split; [done|]. split; congruence.
Qed.

Lemma AllocateOne_total n c :
  wfNode n ->
  exists r n', AllocateOne n c = Done (r, n') /\ wfNode n'.
Proof.
  intros Hwf. rewrite (AllocateOne_unfold n c Hwf). cbv zeta.
  destruct (Evaluate_total n
              (GetGPUResourceOfContainer c VCoreAnnotation <? HundredCore)
              (GetGPUResourceOfContainer c VCoreAnnotation)
              (GetGPUResourceOfContainer c VMemoryAnnotation) Hwf
              (GetGPUResourceOfContainer_uint c VCoreAnnotation))
    as (devs & Heval & Hids).
  rewrite Heval. cbn.
  destruct (length devs =? 0)%nat; [by eexists _, _|].
  assert (forall vcore vmemory, exists r n',
             (chargeAll n vcore vmemory devs ≫= fun '(err, nodeInfo') =>
                match err with
                | Some e => Done (Fail e, nodeInfo')
                | None => Done (Ok devs, nodeInfo')
                end) = Done (r, n') /\ wfNode n') as Hcharge.
  { intros vcore vmemory. pose proof Hwf as (Hpos & Hcount & Hd).
    destruct (chargeAll_total vcore vmemory devs n Hd Hids)
      as (err & n' & Hrun & Hd' & Hc' & Hn').
    unfold mbind, exec_mbind. rewrite Hrun. cbn.
    assert (wfNode n') as Hwf' by (unfold wfNode; rewrite Hn', Hc'; done).
    destruct err; by eexists _, _. }
  destruct (GetGPUResourceOfContainer c VCoreAnnotation <? HundredCore); apply Hcharge.
Qed.

Lemma allocateContainers_total cs : forall n annotations,
  wfNode n ->
  exists r n', allocateContainers n annotations cs = Done (r, n').
Proof.
  induction cs as [|[i c] cs IH]; intros n annotations Hwf; simpl.
  - by eexists _, _.
  - destruct (IsGPURequiredContainer c); simpl; [|by apply IH].
    destruct (AllocateOne_total n c Hwf) as (r & n' & Hrun & Hwf').
    unfold mbind, exec_mbind. rewrite Hrun. cbn.
    destruct r as [devs|e]; [by apply IH|by eexists _, _].
Qed.

Lemma Allocate_total now n pod :
  wfNode n -> exists r n', Allocate now n pod = Done (r, n').
Proof.
  intros Hwf. unfold Allocate.
  destruct (allocateContainers_total (indexed (podContainers pod)) n
              (podAnnotations pod) Hwf) as (r & n' & Hrun).
  unfold mbind, exec_mbind. rewrite Hrun. cbn. destruct r; by eexists _, _.
Qed.

End AllocatorProps.

(** ** The device filter *)
Module FilterProps.
Import util device algorithm kube DeviceProps NodeInfoProps OrderProps AllocatorProps DeviceSpec NodeInfoSpec OrderSpec AllocatorSpec FilterSpec.

Lemma predicated_spec pod :
  predicated pod = true <->
  exists k v, podAnnotations pod !! k = Some v /\ predicateKey k = true.
Proof.
  unfold predicated. rewrite existsb_exists. split.
  - intros (k & Hin & Hk). apply list_elem_of_In, list_elem_of_fmap in Hin.
    destruct Hin as ([k' v] & -> & Hkv). apply elem_of_map_to_list in Hkv. eauto.
  - intros (k & v & Hkv & Hk). exists k. split; [|done].
    apply list_elem_of_In, list_elem_of_fmap. exists (k, v). split; [done|].
    by apply elem_of_map_to_list.
Qed.

Lemma Forall2_impl_elem {A B} (P Q : A -> B -> Prop) l k :
  Forall2 P l k -> (forall x y, x ∈ l -> P x y -> Q x y) -> Forall2 Q l k.
Proof.
  induction 1 as [|x y l k Hxy Hrest IH]; intros Himpl; constructor.
  - apply Himpl; [apply elem_of_cons; by left|done].
  - apply IH. intros x' y' Hx'. apply Himpl. apply elem_of_cons. by right.
Qed.

Section Walk.
Context (cluster : Cluster) (ticks : nat) (now : Z) (pod : Pod).

Local Abbreviation alreadyMatched := (FilterSpec.alreadyMatched pod).
Local Abbreviation doesNotMatch := (FilterSpec.doesNotMatch pod).
Local Abbreviation accepts := (FilterSpec.accepts cluster ticks now pod).
Local Abbreviation rejects := (FilterSpec.rejects cluster ticks now pod).
Local Abbreviation rejectedRun := (FilterSpec.rejectedRun cluster ticks now pod).
Local Abbreviation gpuCandidates := (FilterSpec.gpuCandidates cluster).
Local Abbreviation viewOf := (FilterSpec.viewOf cluster).
Local Abbreviation sanePods := (FilterSpec.sanePods cluster).

Local Abbreviation step := (tryNode cluster ticks now pod).

Lemma tryNode_after w x :
  success w = true -> step w x = Done (markFailed w (GetNode x) alreadyMatched).
Proof. intros H. unfold tryNode. by rewrite H. Qed.

Lemma tryNode_cases w x w' :
  success w = false -> step w x = Done w' ->
  (exists reason,
      rejects x (sent w) (sent w') reason /\
      filteredNodes w' = filteredNodes w /\ success w' = false /\
      failedNodesMap w' = <[nodeName (GetNode x) := reason]> (failedNodesMap w)) \/
  (accepts x (sent w) (sent w') /\
   filteredNodes w' = filteredNodes w ++ [GetNode x] /\ success w' = true /\
   failedNodesMap w' = failedNodesMap w).
Proof.
  intros Hs. unfold tryNode. rewrite Hs.
  destruct (Allocate now x pod) as [[r x']|] eqn:Ha; [|discriminate]. cbn.
  destruct r as [newPod|e].
  - destruct (patchPodWithAnnotations _ _ _ _ _) as [[e|] s'] eqn:Hp;
      intros [= <-]; simpl.
    + left. exists patchFailed. split; [|done]. right. by exists newPod, x', e.
    + right. split; [|done]. by exists newPod, x'.
  - intros [= <-]. simpl. left. exists doesNotMatch. split; [|by rewrite Hs].
    left. by exists e, x'.
Qed.

Lemma tryNode_total w x : wfNode x -> exists w', step w x = Done w'.
Proof.
  intros Hwf. unfold tryNode. destruct (success w); [eauto|].
  destruct (Allocate_total now x pod Hwf) as (r & x' & ->). cbn.
  destruct r; [|eauto]. destruct (patchPodWithAnnotations _ _ _ _ _) as [[e|] s']; eauto.
Qed.

Lemma walk_total l : Forall wfNode l -> forall w, exists w', forE step w l = Done w'.
Proof.
  intros Hl w.
  destruct (forE_total (fun _ => True) wfNode step l) with (s := w)
    as (w' & Hrun & _); eauto.
  intros s a _ Ha. destruct (tryNode_total s a Ha) as [s' ?]. eauto.
Qed.

(** After the first acceptance every further view is marked. *)
Lemma walk_after l : forall w w',
  success w = true -> forE step w l = Done w' ->
  filteredNodes w' = filteredNodes w /\ sent w' = sent w /\ success w' = true /\
  (forall k, is_Some (failedNodesMap w !! k) -> is_Some (failedNodesMap w' !! k)) /\
  (forall x, x ∈ l -> failedNodesMap w' !! nodeName (GetNode x) = Some alreadyMatched) /\
  (forall k, failedNodesMap w !! k = Some alreadyMatched ->
             failedNodesMap w' !! k = Some alreadyMatched).
Proof.
  induction l as [|x l IH]; intros w w' Hs Hrun; simpl in Hrun.
  - injection Hrun as <-. repeat split; auto. by intros x ?%elem_of_nil.
  - rewrite (tryNode_after w x Hs) in Hrun. cbn in Hrun.
    destruct (IH (markFailed w (GetNode x) alreadyMatched) w' Hs Hrun)
      as (Hf & Hsent & Hs' & Hmono & Hmarked & Hkeep).
    split; [done|]. split; [done|]. split; [done|]. split; [|split].
    + intros k Hk. apply Hmono. simpl. rewrite lookup_insert_is_Some'. auto.
    + intros y [->|Hy]%elem_of_cons; [|by apply Hmarked].
      apply Hkeep. simpl. by rewrite lookup_insert_eq.
    + intros k Hk. apply Hkeep. simpl.
      destruct (decide (nodeName (GetNode x) = k)) as [->|Hne].
      * by rewrite lookup_insert_eq.
      * by rewrite lookup_insert_ne.
Qed.

(** The walk over the sorted views: either every view is turned down, or
    the views before the first acceptable one are turned down, that one
    is accepted, and the views after it are marked as too late. *)
Lemma walk_spec l : forall w w',
  success w = false -> forE step w l = Done w' ->
  (forall k, is_Some (failedNodesMap w !! k) -> is_Some (failedNodesMap w' !! k)) /\
  ((filteredNodes w' = filteredNodes w /\ success w' = false /\
    rejectedRun (sent w) l (sent w') /\
    (forall x, x ∈ l -> is_Some (failedNodesMap w' !! nodeName (GetNode x)))) \/
   (exists pre x post s1,
       l = pre ++ x :: post /\
       rejectedRun (sent w) pre s1 /\ accepts x s1 (sent w') /\
       filteredNodes w' = filteredNodes w ++ [GetNode x] /\ success w' = true /\
       (forall y, y ∈ pre -> is_Some (failedNodesMap w' !! nodeName (GetNode y))) /\
       (forall y, y ∈ post ->
                  failedNodesMap w' !! nodeName (GetNode y) = Some alreadyMatched))).
Proof.
  induction l as [|x l IH]; intros w w' Hs Hrun; simpl in Hrun.
  - injection Hrun as <-. split; [done|]. left.
    split; [done|]. split; [done|]. split; [constructor|]. by intros x ?%elem_of_nil.
  - destruct (step w x) as [w1|] eqn:Hstep; [|discriminate]. cbn in Hrun.
    destruct (tryNode_cases w x w1 Hs Hstep)
      as [(reason & Hrej & Hf1 & Hs1 & Hm1)|(Hacc & Hf1 & Hs1 & Hm1)].
    + destruct (IH _ _ Hs1 Hrun) as (Hmono & Hcases).
      assert (forall k, is_Some (failedNodesMap w !! k) ->
                        is_Some (failedNodesMap w' !! k)) as Hmono'.
      { intros k Hk. apply Hmono. rewrite Hm1, lookup_insert_is_Some'. auto. }
      assert (is_Some (failedNodesMap w' !! nodeName (GetNode x))) as Hx.
      { apply Hmono. rewrite Hm1, lookup_insert_eq. eauto. }
      split; [done|].
      destruct Hcases as [(Hf & Hs' & Hrr & Hall)|
                          (pre & y & post & s1 & -> & Hrr & Hacc & Hf & Hs' & Hpre & Hpost)].
      * left. split; [congruence|]. split; [done|].
        split; [econstructor; eauto|].
        intros y [->|Hy]%elem_of_cons; auto.
      * right. exists (x :: pre), y, post, s1.
        split; [done|]. split; [econstructor; eauto|]. split; [done|].
        split; [congruence|]. split; [done|]. split; [|done].
        intros z [->|Hz]%elem_of_cons; auto.
    + destruct (walk_after l w1 w' Hs1 Hrun) as (Hf & Hsent & Hs' & Hmono & Hmarked & _).
      split.
      { intros k Hk. apply Hmono. by rewrite Hm1. }
      right. exists [], x, l, (sent w).
      split; [done|]. split; [constructor|]. split; [by rewrite Hsent|].
      split; [congruence|]. split; [done|]. split; [|done].
      by intros y ?%elem_of_nil.
Qed.

Lemma collectNodeInfos_spec nodes : forall failed acc,
  Forall saneNode nodes -> sanePods ->
  exists failed' views,
    collectNodeInfos cluster nodes failed acc = Done (failed', acc ++ views) /\
    Forall2 viewOf (gpuCandidates nodes) views /\
    (forall k, is_Some (failed !! k) -> is_Some (failed' !! k)) /\
    (forall nd, nd ∈ nodes ->
                is_Some (failed' !! nodeName nd) \/ nd ∈ gpuCandidates nodes).
Proof.
  unfold FilterSpec.gpuCandidates, FilterSpec.viewOf, ListPodsOnNode, FilterSpec.sanePods.
  destruct (podLister cluster) as [pods|e] eqn:Hl.
  - intros failed acc Hsane Hpods. specialize (Hpods pods eq_refl).
    revert failed acc.
    induction nodes as [|nd nodes IH]; intros failed acc; simpl.
    { exists failed, []. rewrite app_nil_r. split; [done|].
      split; [constructor|]. split; [done|]. by intros nd ?%elem_of_nil. }
    inversion Hsane as [|? ? Hnd Hrest]; subst.
    destruct (IsGPUEnabledNode nd) eqn:Hgpu; simpl.
    + assert (Forall sanePod (List.filter (onNode nd) pods)) as Hfp.
      { rewrite Forall_forall in Hpods |- *.
        intros p Hp. apply Hpods. apply list_elem_of_In in Hp.
        apply filter_In in Hp as [Hp _]. by apply list_elem_of_In. }
      destruct (NewNodeInfo_total nd _ (Hnd Hgpu) Hfp) as (ni & Hni).
      unfold ListPodsOnNode. rewrite Hl, Hni. cbn.
      destruct (IH Hrest failed (acc ++ [ni]))
        as (failed' & views & Hrun & Hviews & Hmono & Hall).
      exists failed', (ni :: views). rewrite <- app_assoc in Hrun.
      split; [done|]. split; [|split; [done|]].
      * constructor; [|done]. by exists (List.filter (onNode nd) pods).
      * intros nd' [->|Hin]%elem_of_cons.
        -- right. apply elem_of_cons. by left.
        -- destruct (Hall nd' Hin); [by left|]. right. apply elem_of_cons. by right.
    + destruct (IH Hrest (<[nodeName nd := "no GPU device"]> failed) acc)
        as (failed' & views & Hrun & Hviews & Hmono & Hall).
      exists failed', views. split; [done|]. split; [done|]. split.
      * intros k Hk. apply Hmono. rewrite lookup_insert_is_Some'. auto.
      * intros nd' [->|Hin]%elem_of_cons; [|by apply Hall].
        left. apply Hmono. rewrite lookup_insert_eq. eauto.
  - intros failed acc Hsane _. revert failed acc.
    induction nodes as [|nd nodes IH]; intros failed acc; simpl.
    { exists failed, []. rewrite app_nil_r. split; [done|].
      split; [constructor|]. split; [done|]. by intros nd ?%elem_of_nil. }
    inversion Hsane as [|? ? Hnd Hrest]; subst.
    destruct (IsGPUEnabledNode nd) eqn:Hgpu; simpl.
    + unfold ListPodsOnNode. rewrite Hl.
      destruct (IH Hrest (<[nodeName nd := "failed to get pods on node"]> failed) acc)
        as (failed' & views & Hrun & Hviews & Hmono & Hall).
      exists failed', views. split; [done|]. split; [done|]. split.
      * intros k Hk. apply Hmono. rewrite lookup_insert_is_Some'. auto.
      * intros nd' [->|Hin]%elem_of_cons; [|by apply Hall].
        left. apply Hmono. rewrite lookup_insert_eq. eauto.
    + destruct (IH Hrest (<[nodeName nd := "no GPU device"]> failed) acc)
        as (failed' & views & Hrun & Hviews & Hmono & Hall).
      exists failed', views. split; [done|]. split; [done|]. split.
      * intros k Hk. apply Hmono. rewrite lookup_insert_is_Some'. auto.
      * intros nd' [->|Hin]%elem_of_cons; [|by apply Hall].
        left. apply Hmono. rewrite lookup_insert_eq. eauto.
Qed.

Lemma viewOf_wf nd ni :
  IsGPUEnabledNode nd = true -> viewOf nd ni -> wfNode ni /\ GetNode ni = nd.
Proof. intros Hgpu (pods & _ & Hni). by apply (NewNodeInfo_wf nd pods). Qed.

End Walk.

Lemma pollTicks_fails cluster : forall budget s,
  is_Some (pollTicks cluster budget s).1 <->
  (exists j e, (j < budget)%nat /\
     (forall i, (i < j)%nat -> retryable (patchReply cluster (s + i))) /\
     patchReply cluster (s + j)%nat = Some e /\ ShouldRetry e = false) \/
  (forall i, (i < budget)%nat -> retryable (patchReply cluster (s + i))).
Proof.
  induction budget as [|budget IH]; intros s; simpl.
  - split; [intros _; right; lia | eauto].
  - destruct (patchReply cluster s) as [e|] eqn:Hr.
    + destruct (ShouldRetry e) eqn:He.
      * rewrite IH. split.
        -- intros [(j & e' & Hj & Hbefore & Hat & Hno)|Hall].
           ++ left. exists (S j), e'. split; [lia|]. split; [|split; [|done]].
              ** intros [|i] Hi.
                 --- rewrite Nat.add_0_r. by exists e.
                 --- replace (s + S i)%nat with (S s + i)%nat by lia. apply Hbefore. lia.
              ** by replace (s + S j)%nat with (S s + j)%nat by lia.
           ++ right. intros [|i] Hi.
              ** rewrite Nat.add_0_r. by exists e.
              ** replace (s + S i)%nat with (S s + i)%nat by lia. apply Hall. lia.
        -- intros [(j & e' & Hj & Hbefore & Hat & Hno)|Hall].
           ++ destruct j as [|j].
              { rewrite Nat.add_0_r in Hat. congruence. }
              left. exists j, e'. split; [lia|]. split; [|split; [|done]].
              ** intros i Hi. replace (S s + i)%nat with (s + S i)%nat by lia.
                 apply Hbefore. lia.
              ** by replace (S s + j)%nat with (s + S j)%nat by lia.
           ++ right. intros i Hi. replace (S s + i)%nat with (s + S i)%nat by lia.
              apply Hall. lia.
      * simpl. split; [intros _|eauto]. left. exists 0%nat, e.
        rewrite Nat.add_0_r. split; [lia|]. split; [intros; lia|done].
    + simpl. split.
      * intros [? [=]].
      * intros [(j & e' & Hj & Hbefore & Hat & Hno)|Hall].
        -- destruct j as [|j].
           ++ rewrite Nat.add_0_r in Hat. congruence.
           ++ destruct (Hbefore 0%nat) as (e & He & _); [lia|].
              rewrite Nat.add_0_r in He. congruence.
        -- destruct (Hall 0%nat) as (e & He & _); [lia|].
           rewrite Nat.add_0_r in He. congruence.
Qed.

Lemma patch_fails_iff cluster ticks newPod annotationMap s :
  is_Some (patchPodWithAnnotations cluster ticks newPod annotationMap s).1 <->
  terminal cluster ticks s.
Proof.
  unfold patchPodWithAnnotations, PollImmediate, terminal.
  pose proof (pollTicks_fails cluster (S (S ticks)) s) as H.
  destruct (pollTicks cluster (S (S ticks)) s) as [[e|] s']; simpl in *.
  - split; [intros _|eauto]. destruct (proj1 H) as [(j & e' & Hj & Hrest)|Hall]; [eauto|..].
    + left. exists j, e'. split; [lia|done].
    + right. intros i Hi. apply Hall. lia.
  - split; [intros [? [=]]|]. intros Ht.
    assert (is_Some (@None pollError)) as [? [=]].
    apply (proj2 H). destruct Ht as [(j & e' & Hj & Hrest)|Hall].
    + left. exists j, e'. split; [lia|done].
    + right. intros i Hi. apply Hall. lia.
Qed.

(** *** The filter *)
Section DeviceFilter.
Context (cluster : Cluster) (ticks : nat) (now : Z) (pod : Pod).

Local Abbreviation step := (tryNode cluster ticks now pod).

(** C3, as amended. When the annotation write-back fails terminally on
    a view on which allocation succeeded, the node is marked failed with
    the reason "update pod annotation failed", it is not accepted, and
    the walk goes on with the next view of the sorted list as if nothing
    had been accepted: when the walk returns, the accepted list holds
    what it held before, or in addition one later node. *)
Theorem patch_failure_moves_on (w : walk) (x : NodeInfo) (rest : list NodeInfo)
    (newPod : Pod) (x' : NodeInfo) :
  success w = false ->
  Allocate now x pod = Done (Ok newPod, x') ->
  terminal cluster ticks (sent w) ->
  exists e s',
    patchOf cluster ticks newPod (sent w) = (Some e, s') /\
    forE step w (x :: rest)
    = forE step {| filteredNodes := filteredNodes w;
                   failedNodesMap :=
                     <[nodeName (GetNode x) := "update pod annotation failed"]>
                       (failedNodesMap w);
                   success := false; sent := s' |} rest /\
    forall w',
      forE step w (x :: rest) = Done w' ->
      is_Some (failedNodesMap w' !! nodeName (GetNode x)) /\
      (filteredNodes w' = filteredNodes w \/
       exists y, y ∈ rest /\ filteredNodes w' = filteredNodes w ++ [GetNode y]).
Proof.
  intros Hs Ha Ht.
  apply (patch_fails_iff cluster ticks newPod
           (filter (fun kv => patchKey kv.1 = true) (podAnnotations newPod))) in Ht.
  fold (patchOf cluster ticks newPod (sent w)) in Ht.
  destruct (patchOf cluster ticks newPod (sent w)) as [[e|] s'] eqn:Hp;
    [|by destruct Ht].
  exists e, s'. split; [done|].
  assert (step w x = Done {| filteredNodes := filteredNodes w;
                   failedNodesMap :=
                     <[nodeName (GetNode x) := "update pod annotation failed"]>
                       (failedNodesMap w);
                   success := false; sent := s' |}) as Hstep.
  { unfold tryNode. rewrite Hs, Ha. cbn. unfold patchOf in Hp. rewrite Hp.
    unfold markFailed. simpl. done. }
  split; [simpl; by rewrite Hstep|].
  intros w' Hrun. simpl in Hrun. rewrite Hstep in Hrun. cbn in Hrun.
  apply walk_spec in Hrun as (Hmono & Hcases); [|done].
  split.
  - apply Hmono. simpl. rewrite lookup_insert_eq. eauto.
  - destruct Hcases as [(Hf & _)|(pre & y & post & s1 & -> & _ & _ & Hf & _)].
    + by left.
    + right. exists y. split; [|done]. rewrite elem_of_app, elem_of_cons. auto.
Qed.


(** C2. A pod one of whose annotation keys contains gpu-assigned,
    predicate-time or predicate-gpu-idx- is accepted on no node: the
    device filter of either revision returns an empty list of accepted
    nodes, without a view being built or a patch being sent, and so does
    Filter whenever the pod requests GPU. *)
Theorem predicated_pod_never_accepted
    (conf : predicate.GPUFilterConfig) (validateLabelKey validateLabelValue : string -> bool)
    (gpuFilter : predicate.GPUFilter) (nodes : list Node) (sent0 : nat)
    (k v : string) :
  podAnnotations pod !! k = Some v ->
  (Contains k GPUAssigned = true \/
   Contains k PredicateTimeAnnotation = true \/
   Contains k PredicateGPUIndexPrefix = true) ->
  (exists r, predicate_v1.deviceFilter cluster ticks now pod nodes sent0 = Done (r, sent0) /\
             passedNodes r = []) /\
  (exists r, predicate.deviceFilter cluster ticks now pod nodes sent0 = Done (r, sent0) /\
             passedNodes r = []) /\
  (IsGPURequiredPod pod = true ->
   exists r, predicate_v1.Filter cluster ticks now pod nodes sent0 = Done (r, sent0) /\
             default [] (Nodes r) = []) /\
  (IsGPURequiredPod pod = true ->
   exists r, predicate.Filter conf validateLabelKey validateLabelValue
               cluster ticks now gpuFilter pod nodes sent0 = Done (r, sent0) /\
             default [] (Nodes r) = []).
Proof.
  intros Hkv Hk.
  assert (predicated pod = true) as Hpred.
  { apply predicated_spec. exists k, v. split; [done|]. unfold predicateKey.
    destruct Hk as [-> | [-> | ->]]; by rewrite ?orb_true_r. }
  split; [|split; [|split]].
  - unfold predicate_v1.deviceFilter. rewrite Hpred. by eexists.
  - unfold predicate.deviceFilter. rewrite Hpred. by eexists.
  - intros Hgpu. unfold predicate_v1.Filter. rewrite Hgpu. simpl.
    unfold predicate_v1.deviceFilter. rewrite Hpred. cbn. by eexists.
  - intros Hgpu. unfold predicate.Filter. rewrite Hgpu. simpl.
    destruct (_ =? _)%nat; [by eexists|].
    cbn. destruct (err (predicate.quotaFilter _ _ _ _ _ _ _)); [by eexists|].
    unfold predicate.deviceFilter. rewrite Hpred. cbn. by eexists.
Qed.

End DeviceFilter.

End FilterProps.

(** ** The quota filter *)
Module QuotaProps.
Import util device algorithm kube predicate QuotaSpec.

Section Quota.
Context (conf : GPUFilterConfig).
Context (validateLabelKey validateLabelValue : string -> bool).
Context (cluster : Cluster).

Local Abbreviation placedOn := (QuotaSpec.placedOn conf).
Local Abbreviation keeps := (QuotaSpec.keeps conf).
Local Abbreviation healthy :=
  (QuotaSpec.healthy conf validateLabelKey validateLabelValue cluster).
Local Abbreviation underQuota := (QuotaSpec.underQuota conf).

Lemma GetGPUResourceOfPod_uint pod r : 0 <= GetGPUResourceOfPod pod r < 2 ^ 64.
Proof.
  unfold GetGPUResourceOfPod.
  assert (forall cs acc, 0 <= acc < 2 ^ 64 ->
            0 <= foldl (fun total container =>
                          match cLimits container !! r with
                          | Some val => uadd total (to_uint val)
                          | None => total
                          end) acc cs < 2 ^ 64) as H.
  { induction cs as [|c cs IH]; intros acc Hacc; simpl; [done|].
    apply IH. destruct (cLimits c !! r); [apply uadd_range|done]. }
  apply H. pow2. lia.
Qed.

Lemma quotaPod_phase pod :
  quotaPod pod = bool_decide (podPhase pod <> PodFailed /\ podPhase pod <> PodSucceeded).
Proof. unfold quotaPod. by destruct (podPhase pod). Qed.

Lemma vcoreSum_nonneg pods : 0 <= vcoreSum pods.
Proof.
  induction pods as [|pod pods IH]; simpl; [done|].
  pose proof (GetGPUResourceOfPod_uint pod VCoreAnnotation).
  destruct (bool_decide _); lia.
Qed.

Lemma vcoreSum_app pods1 pods2 : vcoreSum (pods1 ++ pods2) = vcoreSum pods1 + vcoreSum pods2.
Proof.
  induction pods1 as [|pod pods1 IH]; simpl; [done|].
  destruct (bool_decide _); lia.
Qed.

Lemma calculateGPUUsage_snoc pods pod :
  calculateGPUUsage (pods ++ [pod]) =
    if quotaPod pod
    then iadd (calculateGPUUsage pods) (to_int (GetGPUResourceOfPod pod VCoreAnnotation))
    else calculateGPUUsage pods.
Proof. unfold calculateGPUUsage. by rewrite foldl_app. Qed.

(** Without wrap-around calculateGPUUsage is the sum of the requests. *)
Lemma calculateGPUUsage_exact pods :
  vcoreSum pods < 2 ^ 63 -> calculateGPUUsage pods = vcoreSum pods.
Proof.
  induction pods as [|pod pods IH] using rev_ind; intros Hsum; [done|].
  rewrite vcoreSum_app in Hsum. simpl in Hsum.
  rewrite calculateGPUUsage_snoc, vcoreSum_app. simpl.
  rewrite quotaPod_phase.
  pose proof (vcoreSum_nonneg pods).
  pose proof (GetGPUResourceOfPod_uint pod VCoreAnnotation).
  destruct (bool_decide _).
  - rewrite IH by lia. unfold iadd.
    rewrite (to_int_id (GetGPUResourceOfPod pod VCoreAnnotation)) by (pow2; lia).
    rewrite to_int_id by (pow2; lia). lia.
  - rewrite IH by lia. lia.
Qed.

Lemma LabelSelectorAsSelector_ok key vals :
  validateLabelKey key = true -> vals <> [] ->
  Forall (fun v => validateLabelValue v = true) vals ->
  LabelSelectorAsSelector validateLabelKey validateLabelValue key vals
  = Ok (Requirements [{| reqKey := key; reqValues := vals |}]).
Proof.
  intros Hk Hne Hv. unfold LabelSelectorAsSelector, NewRequirement. rewrite Hk. simpl.
  destruct vals as [|v vals]; [done|]. simpl.
  assert (forallb validateLabelValue (v :: vals) = true) as Hall.
  { apply forallb_forall. intros x Hx%list_elem_of_In.
    rewrite Forall_forall in Hv. by apply Hv. }
  simpl in Hall. by rewrite Hall.
Qed.

Lemma listPodsOnNodes_placed allNodes allPods namespace m :
  namespace <> "" ->
  nodeLister cluster = Ok allNodes -> podLister cluster = Ok allPods ->
  listPodsOnNodes cluster
    (Requirements [{| reqKey := GPUModelLabel conf; reqValues := [m] |}]) namespace
  = Ok (placedOn allNodes allPods namespace m).
Proof.
  intros Hns Hn Hp. unfold listPodsOnNodes, Pods, QuotaSpec.placedOn. rewrite Hn, Hp.
  destruct (String.eqb_spec namespace ""); [done|]. f_equal.
  apply filter_ext_in. intros pod _.
  apply Bool.eq_iff_eq_true.
  rewrite bool_decide_eq_true, existsb_exists, elem_of_list_to_set, list_elem_of_fmap.
  split.
  - intros (node & Hname & Hin). apply list_elem_of_In, filter_In in Hin as [Hin Hm].
    exists node. split; [done|].
    simpl in Hm. rewrite andb_true_r in Hm. unfold matchesRequirement in Hm. simpl in Hm.
    apply andb_true_iff. split; [|by apply String.eqb_eq].
    apply bool_decide_eq_true.
    destruct (nodeLabels node !! GPUModelLabel conf) as [v|]; [|done].
    apply bool_decide_eq_true, list_elem_of_singleton in Hm. by subst.
  - intros (node & Hin & [Hm Hname]%andb_true_iff).
    apply bool_decide_eq_true in Hm. apply String.eqb_eq in Hname.
    exists node. split; [done|].
    apply list_elem_of_In, filter_In. split; [done|].
    simpl. unfold matchesRequirement. simpl. rewrite Hm, andb_true_r.
    apply bool_decide_eq_true, list_elem_of_singleton. done.
Qed.

Lemma filterGPUModelLoop_spec allNodes allPods pod entries : forall acc,
  podNamespace pod <> "" ->
  validateLabelKey (GPUModelLabel conf) = true ->
  Forall (fun e => validateLabelValue e.1 = true) entries ->
  nodeLister cluster = Ok allNodes -> podLister cluster = Ok allPods ->
  exists models,
    filterGPUModelLoop conf validateLabelKey validateLabelValue cluster pod entries acc
    = Ok (acc ++ models) /\
    forall m, m ∈ models <->
              exists limit, (m, limit) ∈ entries /\ underQuota allNodes allPods pod m limit.
Proof.
  induction entries as [|[m limit] entries IH]; intros acc Hns Hk Hv Hn Hp; simpl.
  - exists []. rewrite app_nil_r. split; [done|]. intros m. split.
    + by intros ?%elem_of_nil.
    + by intros (? & ?%elem_of_nil & _).
  - inversion Hv as [|? ? Hm Hrest]; subst. simpl in Hm.
    rewrite LabelSelectorAsSelector_ok; [|done|done|by repeat constructor].
    rewrite (listPodsOnNodes_placed allNodes allPods) by done.
    fold (underQuota allNodes allPods pod m limit).
    destruct (Z.leb_spec
                (calculateGPUUsage (placedOn allNodes allPods (podNamespace pod) m ++ [pod]))
                (imul limit HundredCore)) as [Hle|Hgt].
    + destruct (IH (acc ++ [m]) Hns Hk Hrest Hn Hp) as (models & Hrun & Hspec).
      exists (m :: models). rewrite <- app_assoc in Hrun. split; [done|].
      intros m'. rewrite elem_of_cons, Hspec. split.
      * intros [->|(l & Hin & Hu)]; [exists limit|exists l];
          (split; [|done]); apply elem_of_cons; auto.
      * intros (l & [[= -> ->]|Hin]%elem_of_cons & Hu); [by left|right; eauto].
    + destruct (IH acc Hns Hk Hrest Hn Hp) as (models & Hrun & Hspec).
      exists models. split; [done|].
      intros m'. rewrite Hspec. split.
      * intros (l & Hin & Hu). exists l. split; [|done]. apply elem_of_cons; auto.
      * intros (l & [[= -> ->]|Hin]%elem_of_cons & Hu); [|eauto].
        unfold QuotaSpec.underQuota in Hu. lia.
Qed.

Lemma filterNodesLoop_spec gpuModelSelector poolSelector nodes : forall acc failed,
  let keep node := Matches gpuModelSelector (nodeLabels node)
                   && Matches poolSelector (nodeLabels node) in
  let '(passed, failed') :=
    filterNodesLoop gpuModelSelector poolSelector nodes acc failed in
  passed = acc ++ List.filter keep nodes /\
  (forall node, node ∈ nodes -> keep node = false ->
                failed' !! nodeName node = Some "ExceedsGPUQuota") /\
  (forall k, is_Some (failed' !! k) ->
             is_Some (failed !! k) \/
             exists node, node ∈ nodes /\ nodeName node = k /\ keep node = false) /\
  (forall k, failed !! k = Some "ExceedsGPUQuota" -> failed' !! k = Some "ExceedsGPUQuota").
Proof.
  induction nodes as [|node nodes IH]; intros acc failed keep; simpl.
  - rewrite app_nil_r. split; [done|]. split; [by intros ? ?%elem_of_nil|].
    split; [by left|done].
  - fold (keep node). destruct (keep node) eqn:Hkeep.
    + specialize (IH (acc ++ [node]) failed). cbv zeta in IH.
      destruct (filterNodesLoop _ _ nodes (acc ++ [node]) failed) as [passed failed'].
      destruct IH as (-> & Hmarked & Hkeys & Hmono).
      split; [by rewrite <- app_assoc|]. split; [|split; [|done]].
      * intros nd [->|Hin]%elem_of_cons Hk; [congruence|by apply Hmarked].
      * intros k Hk. destruct (Hkeys k Hk) as [?|(nd & Hin & Hname & Hf)]; [by left|].
        right. exists nd. split; [apply elem_of_cons; by right|done].
    + specialize (IH acc (<[nodeName node := "ExceedsGPUQuota"]> failed)). cbv zeta in IH.
      destruct (filterNodesLoop _ _ nodes acc _) as [passed failed'].
      destruct IH as (-> & Hmarked & Hkeys & Hmono).
      split; [done|]. split; [|split].
      * intros nd [->|Hin]%elem_of_cons Hk; [|by apply Hmarked].
        apply Hmono. by rewrite lookup_insert_eq.
      * intros k Hk. destruct (Hkeys k Hk) as [Hin|(nd & Hin & Hname & Hf)].
        -- destruct (decide (nodeName node = k)) as [<-|Hne].
           ++ right. exists node. split; [apply elem_of_cons; by left|done].
           ++ left. by rewrite lookup_insert_ne in Hin.
        -- right. exists nd. split; [apply elem_of_cons; by right|done].
      * intros k Hk. apply Hmono.
        destruct (decide (nodeName node = k)) as [<-|Hne].
        -- by rewrite lookup_insert_eq.
        -- by rewrite lookup_insert_ne.
Qed.

Lemma filterNodes_spec nodes gpuModels pools :
  validateLabelKey (GPUModelLabel conf) = true ->
  validateLabelKey (GPUPoolLabel conf) = true ->
  Forall (fun m => validateLabelValue m = true) gpuModels ->
  Forall (fun pool => validateLabelValue pool = true) pools ->
  let r := filterNodes conf validateLabelKey validateLabelValue nodes gpuModels pools in
  err r = None /\
  passedNodes r = List.filter (keeps gpuModels pools) nodes /\
  (forall node, node ∈ nodes -> keeps gpuModels pools node = false ->
                failedNodes r !! nodeName node = Some "ExceedsGPUQuota") /\
  (forall k, is_Some (failedNodes r !! k) ->
             exists node, node ∈ nodes /\ nodeName node = k /\
                          keeps gpuModels pools node = false).
Proof.
  intros Hmk Hpk Hm Hp.
  assert (exists gsel psel,
             (if negb (length gpuModels =? 0)%nat
              then LabelSelectorAsSelector validateLabelKey validateLabelValue
                     (GPUModelLabel conf) gpuModels
              else Ok Nothing) = Ok gsel /\
             (if negb (length pools =? 0)%nat
              then LabelSelectorAsSelector validateLabelKey validateLabelValue
                     (GPUPoolLabel conf) pools
              else Ok Everything) = Ok psel /\
             forall node, Matches gsel (nodeLabels node) && Matches psel (nodeLabels node)
                          = keeps gpuModels pools node) as (gsel & psel & Hg & Hps & Hkeep).
  { unfold QuotaSpec.keeps.
    destruct gpuModels as [|m ms]; destruct pools as [|pl pls]; simpl;
      rewrite ?LabelSelectorAsSelector_ok by done; eexists _, _;
      (split; [reflexivity|]); (split; [reflexivity|]); intros node; simpl;
      unfold matchesRequirement; simpl;
      destruct (nodeLabels node !! GPUModelLabel conf);
      destruct (nodeLabels node !! GPUPoolLabel conf); simpl;
      rewrite ?andb_true_r; reflexivity. }
  unfold filterNodes. rewrite Hg, Hps.
  pose proof (filterNodesLoop_spec gsel psel nodes [] ∅) as Hloop. cbv zeta in Hloop.
  destruct (filterNodesLoop gsel psel nodes [] ∅) as [passed failed].
  destruct Hloop as (-> & Hmarked & Hkeys & _). simpl.
  split; [done|]. split; [apply filter_ext_in; auto|]. split.
  - intros node Hin Hk. apply Hmarked; [done|]. by rewrite Hkeep.
  - intros k Hk. destruct (Hkeys k Hk) as [[? H]|(node & Hin & Hname & Hf)].
    + by rewrite lookup_empty in H.
    + exists node. by rewrite <- Hkeep.
Qed.

(** C8, as amended. For a pod of a namespace other than the empty one that
    has a quota record, the pod itself being neither Failed nor Succeeded,
    with selectors that can be built and listers that answer, and with
    limit*100 and the sum below within Go's int for every model of the
    record: the quota filter accepts the model m exactly when the sum of
    the vcuda-core requests of the pods of the namespace that are neither
    Failed nor Succeeded and are placed on nodes labelled m, plus the
    request of the pending pod, is at most limit*100; a candidate node is
    kept exactly when its model label is accepted and, with a non-empty
    pool list, its pool label is listed; every other candidate is marked
    ExceedsGPUQuota; and with no accepted model no candidate passes. *)
Theorem quotaFilter_accepts_within_limit
    (gpuFilter : GPUFilter) (pod : Pod) (nodes : list Node)
    (nq : NamespaceQuota) (allNodes : list Node) (allPods : list Pod) :
  getQuotaForNamespace gpuFilter (podNamespace pod) = Some nq ->
  healthy nq allNodes allPods ->
  podNamespace pod <> "" ->
  podPhase pod <> PodFailed -> podPhase pod <> PodSucceeded ->
  (forall m limit, Quota nq !! m = Some limit ->
     - 2 ^ 63 <= limit * HundredCore < 2 ^ 63 /\
     vcoreSum (placedOn allNodes allPods (podNamespace pod) m)
       + GetGPUResourceOfPod pod VCoreAnnotation < 2 ^ 63) ->
  exists gpuModels,
    filterGPUModel conf validateLabelKey validateLabelValue cluster pod nq = Ok gpuModels /\
    (forall m, m ∈ gpuModels <->
               exists limit, Quota nq !! m = Some limit /\
                 vcoreSum (placedOn allNodes allPods (podNamespace pod) m)
                   + GetGPUResourceOfPod pod VCoreAnnotation
                 <= limit * HundredCore) /\
    err (quotaFilter conf validateLabelKey validateLabelValue cluster gpuFilter pod nodes)
      = None /\
    passedNodes (quotaFilter conf validateLabelKey validateLabelValue cluster
                   gpuFilter pod nodes)
      = List.filter (keeps gpuModels (Pool nq)) nodes /\
    (forall node, node ∈ nodes ->
        (node ∈ passedNodes (quotaFilter conf validateLabelKey validateLabelValue
                               cluster gpuFilter pod nodes)
         <-> keeps gpuModels (Pool nq) node = true) /\
        (keeps gpuModels (Pool nq) node = false ->
         failedNodes (quotaFilter conf validateLabelKey validateLabelValue cluster
                        gpuFilter pod nodes) !! nodeName node
         = Some "ExceedsGPUQuota")) /\
    (gpuModels = [] ->
     passedNodes (quotaFilter conf validateLabelKey validateLabelValue cluster
                    gpuFilter pod nodes) = [] /\
     forall node, node ∈ nodes ->
       failedNodes (quotaFilter conf validateLabelKey validateLabelValue cluster
                      gpuFilter pod nodes) !! nodeName node
       = Some "ExceedsGPUQuota").
Proof.
  intros Hq [Hmk Hpk Hmodels Hpools Hn Hp] Hns Hnf Hns' Hnowrap.
  assert (quotaPod pod = true) as Hpending.
  { rewrite quotaPod_phase. by apply bool_decide_eq_true. }
  assert (Forall (fun e => validateLabelValue e.1 = true) (map_to_list (Quota nq))) as Hentries.
  { apply Forall_forall. intros [m limit] Hin%elem_of_map_to_list. eauto. }
  destruct (filterGPUModelLoop_spec allNodes allPods pod (map_to_list (Quota nq)) []
              Hns Hmk Hentries Hn Hp) as (gpuModels & Hrun & Hspec).
  rewrite app_nil_l in Hrun.
  assert (forall m, m ∈ gpuModels <->
            exists limit, Quota nq !! m = Some limit /\
                          underQuota allNodes allPods pod m limit) as Hacc.
  { intros m. rewrite Hspec. by setoid_rewrite elem_of_map_to_list. }
  assert (forall m limit, Quota nq !! m = Some limit ->
            (underQuota allNodes allPods pod m limit <->
             vcoreSum (placedOn allNodes allPods (podNamespace pod) m)
               + GetGPUResourceOfPod pod VCoreAnnotation <= limit * HundredCore))
    as Hexact.
  { intros m limit Hl. destruct (Hnowrap m limit Hl) as [Hlimit Hsum].
    unfold QuotaSpec.underQuota. rewrite calculateGPUUsage_exact.
    - rewrite vcoreSum_app. simpl. rewrite <- quotaPod_phase, Hpending.
      unfold imul. rewrite to_int_id by done. lia.
    - rewrite vcoreSum_app. simpl. rewrite <- quotaPod_phase, Hpending. lia. }
  assert (Forall (fun m => validateLabelValue m = true) gpuModels) as Hvalid.
  { apply Forall_forall. intros m (limit & Hl & _)%Hacc. eauto. }
  pose proof (filterNodes_spec nodes gpuModels (Pool nq) Hmk Hpk Hvalid Hpools)
    as (Herr & Hpassed & Hmarked & _).
  assert (quotaFilter conf validateLabelKey validateLabelValue cluster gpuFilter pod nodes
          = filterNodes conf validateLabelKey validateLabelValue nodes gpuModels (Pool nq))
    as Hqf.
  { unfold quotaFilter. rewrite Hq. unfold filterGPUModel. by rewrite Hrun. }
  exists gpuModels. rewrite Hqf.
  split; [exact Hrun|]. split; [|split; [done|]].
  - intros m. rewrite Hacc.
    split; intros (limit & Hl & Hu); exists limit; (split; [done|]);
      by apply (Hexact m limit Hl).
  - split; [done|]. split.
    + intros node Hin. split; [|by apply Hmarked].
      rewrite Hpassed. rewrite list_elem_of_In, filter_In, <- list_elem_of_In. tauto.
    + intros ->. split.
      * rewrite Hpassed. clear. induction nodes as [|nd nds IH]; [done|].
        simpl. unfold QuotaSpec.keeps at 1. destruct (nodeLabels nd !! GPUModelLabel conf); simpl; auto.
      * intros node Hin. apply Hmarked; [done|].
        unfold QuotaSpec.keeps. destruct (nodeLabels node !! GPUModelLabel conf); simpl; auto.
Qed.

End Quota.

Section ColdStart.
Context (conf : GPUFilterConfig).
Context (validateLabelKey validateLabelValue : string -> bool).
Context (jsonUnmarshal : string -> result (gmap string NamespaceQuota)).
Context (cluster : Cluster) (ticks : nat) (now : Z).

Local Abbreviation loads := (QuotaSpec.loads jsonUnmarshal).
Local Abbreviation syncAll := (QuotaSpec.syncAll jsonUnmarshal).

Lemma syncQuota_idle gpuFilter configData :
  loads gpuFilter configData = false ->
  syncQuota jsonUnmarshal gpuFilter configData = gpuFilter.
Proof.
  unfold QuotaSpec.loads, syncQuota. destruct configData as [cm|e]; [|by intros ->].
  destruct (String.eqb _ _); [done|]. simpl.
  by destruct (parseQuota jsonUnmarshal (Data cm)).
Qed.

Lemma syncAll_idle events :
  Forall (fun ev => loads newGPUFilter ev = false) events ->
  syncAll newGPUFilter events = newGPUFilter.
Proof.
  unfold QuotaSpec.syncAll. induction 1 as [|ev events Hev _ IH]; simpl; [done|].
  by rewrite syncQuota_idle.
Qed.

Lemma syncQuota_keeps_synced gpuFilter configData :
  quotaLastSyncedRevision gpuFilter <> "" ->
  (forall cm, configData = Ok cm -> ResourceVersion cm <> "") ->
  quotaLastSyncedRevision (syncQuota jsonUnmarshal gpuFilter configData) <> "".
Proof.
  intros Hs Hrv. unfold syncQuota. destruct configData as [cm|e].
  - destruct (String.eqb _ _); [done|].
    destruct (parseQuota jsonUnmarshal (Data cm)); [|done]. simpl. by apply Hrv.
  - by destruct (Contains e "not found").
Qed.

(** C9. As long as no sync has loaded a quota since the filter was
    made, Filter answers a GPU-requesting pod with the retry-later error,
    returns no node and no failed-nodes map, builds no view and sends no
    patch. A sync that finds the config map missing counts as a load: it
    sets the quota to empty and the revision to "none", after which
    Filter runs the filters (with an empty quota, the device filter
    alone); and later syncs keep the gate open as long as the config maps
    they read carry a resource version. *)
Theorem cold_start_gate :
  (forall events pod nodes sent,
      Forall (fun ev => loads newGPUFilter ev = false) events ->
      IsGPURequiredPod pod = true ->
      Filter conf validateLabelKey validateLabelValue cluster ticks now
             (syncAll newGPUFilter events) pod nodes sent
      = Done ({| Nodes := None; FailedNodes := None; Error := notSynced |}, sent)) /\
  (forall gpuFilter e,
      Contains e "not found" = true ->
      syncQuota jsonUnmarshal gpuFilter (Fail e)
      = {| quota := ∅; quotaLastSyncedRevision := "none" |} /\
      forall pod nodes sent,
        IsGPURequiredPod pod = true ->
        Filter conf validateLabelKey validateLabelValue cluster ticks now
               (syncQuota jsonUnmarshal gpuFilter (Fail e)) pod nodes sent
        = runFilters [deviceFilter cluster ticks now pod] nodes ∅ sent) /\
  (forall gpuFilter events,
      quotaLastSyncedRevision gpuFilter <> "" ->
      Forall (fun ev => forall cm, ev = Ok cm -> ResourceVersion cm <> "") events ->
      quotaLastSyncedRevision (syncAll gpuFilter events) <> "").
Proof.
  split; [|split].
  - intros events pod nodes sent Hidle Hgpu.
    rewrite syncAll_idle by done. unfold Filter. by rewrite Hgpu.
  - intros gpuFilter e He. unfold syncQuota. rewrite He. split; [done|].
    intros pod nodes sent Hgpu. unfold Filter. rewrite Hgpu. simpl.
    unfold quotaFilter, getQuotaForNamespace. simpl. rewrite lookup_empty. cbn.
    by rewrite (left_id_L ∅ (∪)).
  - intros gpuFilter events Hs Hall. revert gpuFilter Hs. unfold QuotaSpec.syncAll.
    induction Hall as [|ev events Hev _ IH]; intros gpuFilter Hs; simpl; [done|].
    apply IH. by apply syncQuota_keeps_synced.
Qed.

End ColdStart.

End QuotaProps.

(** ** The scenario *)

Module ScenarioProps.
Import util device algorithm kube DeviceSpec NodeInfoSpec AllocatorSpec FilterSpec QuotaSpec.
Import NodeInfoProps AllocatorProps FilterProps QuotaProps Scenario Fixtures.

Lemma freshView_built i : NewNodeInfo (testnode i) [] = Done (freshView (testnode i)).
Proof. reflexivity. Qed.

Lemma freshView_wf i : wfNode (freshView (testnode i)).
Proof. by apply (NewNodeInfo_wf (testnode i) []). Qed.

Lemma view0_after_pod0_built :
  NewNodeInfo (testnode 0) [pod0_bound] = Done view0_after_pod0.
Proof. vm_compute. reflexivity. Qed.

Lemma view0_after_pod0_wf : wfNode view0_after_pod0.
Proof. by apply (NewNodeInfo_wf (testnode 0) [pod0_bound]). Qed.

(** C5 on testnode0 after pod-0, for the container of pod-3 (10 cores,
    2 units of memory). *)
Lemma shareMode_first_fit_witness :
  wfNode view0_after_pod0 /\
  0 < GetGPUResourceOfContainer (container "container-1" 10 2) VCoreAnnotation
    < HundredCore /\
  exists store picked,
    storeOf view0_after_pod0 store /\
    shareMode.Evaluate view0_after_pod0
      (GetGPUResourceOfContainer (container "container-1" 10 2) VCoreAnnotation)
      (GetGPUResourceOfContainer (container "container-1" 10 2) VMemoryAnnotation)
    = Done picked /\
    (length picked <= 1)%nat.
Proof.
  assert (0 < GetGPUResourceOfContainer (container "container-1" 10 2) VCoreAnnotation
            < HundredCore) as Hcores by (vm_compute; split; reflexivity).
  split; [exact view0_after_pod0_wf|]. split; [exact Hcores|].
  destruct (shareMode_first_fit view0_after_pod0 (container "container-1" 10 2)
              view0_after_pod0_wf Hcores)
    as (store & picked & Hstore & _ & _ & _ & Heval & Hlen & _).
  exists store, picked. split; [exact Hstore|]. split; [exact Heval|exact Hlen].
Defined.

(** Share mode never spans devices: with 50 cores free on each of the two
    devices a request for 60 cores is rejected. *)
Example share_mode_never_spans_devices :
  AllocateOne (view (testnode 0) (device 0 4 0 50) (device 1 4 0 50))
              (container "c" 60 1)
  = Done (Fail "failed to allocate for container c",
          view (testnode 0) (device 0 4 0 50) (device 1 4 0 50)).
Proof. vm_compute. reflexivity. Qed.



(** The exclusive allocation of pod-2 (200 cores, 10 units of memory asked)
    on a fresh node takes both devices and charges 4 units on each. *)
Example exclusive_two_devices :
  AllocateOne (freshView (testnode 2)) (container "container-0" 200 10)
  = Done (Ok [device 0 4 0 0; device 1 4 0 0],
          view (testnode 2) (device 0 4 4 100) (device 1 4 4 100)).
Proof. vm_compute. reflexivity. Qed.

(** C10. The guard of the device filter does not keep the device count
    away from zero: a node with a vcuda-core capacity of 50 passes
    IsGPUEnabledNode, its device count is 50/100 = 0, and NewNodeInfo
    divides the node memory by it; AllocateOne repeats the division; the
    device filter of either revision faults on such a candidate. *)
Theorem guard_admits_zero_device_count :
  IsGPUEnabledNode halfDeviceNode = true /\
  GetGPUDeviceCountOfNode halfDeviceNode = 0 /\
  (forall pods, NewNodeInfo halfDeviceNode pods = Panicked DivideByZero) /\
  AllocateOne (freshView halfDeviceNode) (container "container-0" 10 1)
    = Panicked DivideByZero /\
  predicate_v1.deviceFilter (quietCluster []) 10 1 pod0 [halfDeviceNode] 0
    = Panicked DivideByZero /\
  predicate.deviceFilter (quietCluster []) 10 1 pod0 [halfDeviceNode] 0
    = Panicked DivideByZero.
Proof.
  split; [reflexivity|]. split; [reflexivity|].
  split; [intros pods; by apply NewNodeInfo_zero_devices|].
  split; [reflexivity|]. split; vm_compute; reflexivity.
Qed.

(** C6, at a negative index. The annotation parses, -1 is not at or above
    the device count, the node's device map has no entry for it, and the
    charge dereferences the nil device: the construction of the view is
    aborted, and with it the device filter of either revision. *)
Theorem replay_negative_index_aborts :
  GetPredicateIdxOfContainer strayPod 0 = ([-1], None) /\
  NewNodeInfo (testnode 0) [strayPod] = Panicked NilDereference /\
  predicate_v1.deviceFilter (quietCluster [strayPod]) 10 1 pod0
    [testnode 0; testnode 1; testnode 2] 0 = Panicked NilDereference /\
  predicate.deviceFilter (quietCluster [strayPod]) 10 1 pod0
    [testnode 0; testnode 1; testnode 2] 0 = Panicked NilDereference.
Proof. repeat split; vm_compute; reflexivity. Qed.

(** The same annotation with an index beyond the device count and a
    charge that overflows device 0 is replayed without fault: the stray
    entries are dropped. *)
Example replay_drops_out_of_range :
  NewNodeInfo (testnode 0)
    [bound pod2 [(PredicateGPUIndexPrefix +:+ "0", "0,7")] (testnode 0);
     bound pod1 [(PredicateGPUIndexPrefix +:+ "0", "0");
                 (PredicateGPUIndexPrefix +:+ "1", "1")] (testnode 0)]
  = Done {| name := "testnode0"; node := testnode 0;
            devs := {[ 0 := device 0 4 4 100; 1 := device 1 4 3 80 ]};
            deviceCount := 2; totalMemory := 8; usedCore := 180; usedMemory := 7 |}.
Proof. vm_compute. reflexivity. Qed.

(** TestDeviceFilter of the repository: the four pods are accepted on
    testnode0, testnode1, testnode2 and testnode0, one node each. *)
Example TestDeviceFilter :
  acceptedNames (predicate_v1.deviceFilter (quietCluster placed0) 10 1 pod0 nodeList 0)
    = Some ["testnode0"] /\
  acceptedNames (predicate_v1.deviceFilter (quietCluster placed1) 10 1 pod1 nodeList 0)
    = Some ["testnode1"] /\
  acceptedNames (predicate_v1.deviceFilter (quietCluster placed2) 10 1 pod2 nodeList 0)
    = Some ["testnode2"] /\
  acceptedNames (predicate_v1.deviceFilter (quietCluster placed3) 10 1 pod3 nodeList 0)
    = Some ["testnode0"].
Proof. repeat split; vm_compute; reflexivity. Qed.

(** The device indices that the allocator records for the four pods. *)
Example TestDeviceFilter_indices :
  podAnnotations (allocated (view_of (testnode 0) placed0) pod0)
    !! (PredicateGPUIndexPrefix +:+ "1") = Some "0" /\
  podAnnotations (allocated (view_of (testnode 1) placed1) pod1)
    !! (PredicateGPUIndexPrefix +:+ "1") = Some "1" /\
  podAnnotations (allocated (view_of (testnode 2) placed2) pod2)
    !! (PredicateGPUIndexPrefix +:+ "0") = Some "0,1" /\
  podAnnotations (allocated (view_of (testnode 0) placed3) pod3)
    !! (PredicateGPUIndexPrefix +:+ "0") = Some "0".
Proof. repeat split; vm_compute; reflexivity. Qed.


Lemma nodeList_sane : Forall saneNode nodeList.
Proof.
  repeat constructor; intros _; vm_compute; discriminate.
Defined.

Lemma quietCluster_sane : sanePods (quietCluster []).
Proof. intros pods [= <-]. constructor. Defined.


(** C2 on the resubmitted pod-0. *)
Lemma predicated_pod_never_accepted_witness :
  podAnnotations pod0_retried !! GPUAssigned = Some "false" /\
  Contains GPUAssigned GPUAssigned = true /\
  exists r,
    predicate.deviceFilter (quietCluster []) 10 1 pod0_retried nodeList 0
    = Done (r, 0%nat) /\ passedNodes r = [].
Proof.
  split; [vm_compute; reflexivity|]. split; [reflexivity|].
  destruct (predicated_pod_never_accepted (quietCluster []) 10 1 pod0_retried
              (predicate.mkGPUFilterConfig "gpuquota" "kube-system" "gpu-model" "gpu-pool")
              (fun _ => true) (fun _ => true) predicate.newGPUFilter nodeList 0
              GPUAssigned "false" ltac:(vm_compute; reflexivity)
              (or_introl eq_refl))
    as (_ & Hquota & _).
  exact Hquota.
Defined.

Lemma refusingCluster_terminal : terminal refusingCluster 10 0.
Proof.
  left. exists 0%nat, (OtherError "forbidden").
  split; [lia|]. split; [intros i Hi; lia|]. split; reflexivity.
Defined.

(** C3 fails when a later node fits: the write-back for testnode0 fails
    terminally, testnode0 is marked, and Filter of either revision still
    returns an accepted node, testnode1. *)
Lemma patch_failure_next_node_accepted :
  terminal refusingCluster 10 0 /\
  predicate_v1.Filter refusingCluster 10 1 pod0 nodeList 0
    = Done ({| Nodes := Some [testnode 1];
               FailedNodes :=
                 Some {[ "testnode0" := "update pod annotation failed";
                         "testnode2" :=
                           "pod uid-0 has already been matched to another node" ]};
               Error := "" |}, 2%nat) /\
  predicate.Filter testConf (fun _ => true) (fun _ => true) refusingCluster 10 1
      syncedFilter pod0 nodeList 0
    = Done ({| Nodes := Some [testnode 1];
               FailedNodes :=
                 Some {[ "testnode0" := "update pod annotation failed";
                         "testnode2" :=
                           "pod uid-0 has already been matched to another node" ]};
               Error := "" |}, 2%nat).
Proof.
  split; [exact refusingCluster_terminal|]. split; vm_compute; reflexivity.
Qed.

Lemma pod0_allocation :
  Allocate 1 (freshView (testnode 0)) pod0 = Done (Ok pod0_retried, view0_charged).
Proof. vm_compute. reflexivity. Defined.

(** C3 (as amended) on that cluster. *)
Lemma patch_failure_moves_on_witness :
  success startWalk = false /\
  Allocate 1 (freshView (testnode 0)) pod0 = Done (Ok pod0_retried, view0_charged) /\
  terminal refusingCluster 10 (sent startWalk) /\
  exists e s',
    patchOf refusingCluster 10 pod0_retried (sent startWalk) = (Some e, s') /\
    forE (tryNode refusingCluster 10 1 pod0) startWalk
         [freshView (testnode 0); freshView (testnode 1)]
    = forE (tryNode refusingCluster 10 1 pod0)
           {| filteredNodes := filteredNodes startWalk;
              failedNodesMap :=
                <[nodeName (GetNode (freshView (testnode 0)))
                  := "update pod annotation failed"]> (failedNodesMap startWalk);
              success := false; sent := s' |}
           [freshView (testnode 1)].
Proof.
  split; [reflexivity|]. split; [exact pod0_allocation|].
  split; [exact refusingCluster_terminal|].
  destruct (patch_failure_moves_on refusingCluster 10 1 pod0 startWalk
              (freshView (testnode 0)) [freshView (testnode 1)]
              pod0_retried view0_charged eq_refl pod0_allocation
              refusingCluster_terminal)
    as (e & s' & Hp & Hgo & _).
  exists e, s'. split; [exact Hp|exact Hgo].
Defined.

(** The quota-exhausted scenario: the first pod that asks for a whole GPU
    is accepted on testnode0; with it placed, the second one is accepted
    nowhere and every node is marked ExceedsGPUQuota. *)
Example quota_exhausted :
  predicate.Filter testConf (fun _ => true) (fun _ => true) (m40cluster []) 10 1
    quotaFilterM40 (wholeGPUPod 0) m40nodes 0
  = Done ({| Nodes := Some [m40node 0];
             FailedNodes :=
               Some {[ "testnode1" :=
                         "pod uid-0 has already been matched to another node";
                       "testnode2" :=
                         "pod uid-0 has already been matched to another node" ]};
             Error := "" |}, 1%nat) /\
  predicate.Filter testConf (fun _ => true) (fun _ => true)
    (m40cluster [firstWholeGPUPod]) 10 1 quotaFilterM40 (wholeGPUPod 1) m40nodes 0
  = Done ({| Nodes := Some [];
             FailedNodes := Some {[ "testnode0" := "ExceedsGPUQuota";
                                    "testnode1" := "ExceedsGPUQuota";
                                    "testnode2" := "ExceedsGPUQuota" ]};
             Error := "" |}, 0%nat).
Proof. split; vm_compute; reflexivity. Qed.

Lemma m40cluster_healthy pods :
  healthy testConf (fun _ => true) (fun _ => true) (m40cluster pods) oneM40 m40nodes pods.
Proof. split; try reflexivity. constructor. Defined.

(** C8 on the second pod of the quota-exhausted scenario. *)
Lemma quotaFilter_accepts_within_limit_witness :
  predicate.getQuotaForNamespace quotaFilterM40 (podNamespace (wholeGPUPod 1)) = Some oneM40 /\
  healthy testConf (fun _ => true) (fun _ => true) (m40cluster [firstWholeGPUPod])
          oneM40 m40nodes [firstWholeGPUPod] /\
  podNamespace (wholeGPUPod 1) <> "" /\
  podPhase (wholeGPUPod 1) <> PodFailed /\ podPhase (wholeGPUPod 1) <> PodSucceeded /\
  (forall m limit, predicate.Quota oneM40 !! m = Some limit ->
     - 2 ^ 63 <= limit * HundredCore < 2 ^ 63 /\
     vcoreSum (placedOn testConf m40nodes [firstWholeGPUPod]
                        (podNamespace (wholeGPUPod 1)) m)
       + GetGPUResourceOfPod (wholeGPUPod 1) VCoreAnnotation < 2 ^ 63) /\
  exists gpuModels,
    predicate.filterGPUModel testConf (fun _ => true) (fun _ => true)
      (m40cluster [firstWholeGPUPod]) (wholeGPUPod 1) oneM40 = Ok gpuModels /\
    (forall m, m ∈ gpuModels <->
               exists limit, predicate.Quota oneM40 !! m = Some limit /\
                 vcoreSum (placedOn testConf m40nodes [firstWholeGPUPod]
                                    (podNamespace (wholeGPUPod 1)) m)
                   + GetGPUResourceOfPod (wholeGPUPod 1) VCoreAnnotation
                 <= limit * HundredCore) /\
    passedNodes (predicate.quotaFilter testConf (fun _ => true) (fun _ => true)
                   (m40cluster [firstWholeGPUPod]) quotaFilterM40 (wholeGPUPod 1) m40nodes)
    = List.filter (keeps testConf gpuModels (predicate.Pool oneM40)) m40nodes.
Proof.
  assert (predicate.getQuotaForNamespace quotaFilterM40 (podNamespace (wholeGPUPod 1))
          = Some oneM40) as Hq by (vm_compute; reflexivity).
  assert (podNamespace (wholeGPUPod 1) <> "") as Hns by discriminate.
  assert (podPhase (wholeGPUPod 1) <> PodFailed) as Hnf by discriminate.
  assert (podPhase (wholeGPUPod 1) <> PodSucceeded) as Hnsu by discriminate.
  assert (forall m limit, predicate.Quota oneM40 !! m = Some limit ->
            - 2 ^ 63 <= limit * HundredCore < 2 ^ 63 /\
            vcoreSum (placedOn testConf m40nodes [firstWholeGPUPod]
                               (podNamespace (wholeGPUPod 1)) m)
              + GetGPUResourceOfPod (wholeGPUPod 1) VCoreAnnotation < 2 ^ 63) as Hfit.
  { intros m limit Hl. unfold oneM40 in Hl. simpl in Hl.
    apply lookup_singleton_Some in Hl as [<- <-].
    split; [split|]; vm_compute; first [reflexivity | discriminate]. }
  split; [exact Hq|]. split; [exact (m40cluster_healthy [firstWholeGPUPod])|].
  split; [exact Hns|]. split; [exact Hnf|]. split; [exact Hnsu|]. split; [exact Hfit|].
  destruct (quotaFilter_accepts_within_limit testConf (fun _ => true) (fun _ => true)
              (m40cluster [firstWholeGPUPod]) quotaFilterM40 (wholeGPUPod 1) m40nodes
              oneM40 m40nodes [firstWholeGPUPod] Hq
              (m40cluster_healthy [firstWholeGPUPod]) Hns Hnf Hnsu Hfit)
    as (gpuModels & Hrun & Hacc & _ & Hpassed & _).
  exists gpuModels. split; [exact Hrun|]. split; [exact Hacc|exact Hpassed].
Defined.

(** C8 fails in three places. With one M40 used in the namespace and a
    limit of one, a pending pod that is itself Failed has the model
    accepted although the sum with its own request is 200: its request is
    not counted. For a pending pod of the empty namespace the pods of
    every namespace are counted, and the model is refused although no pod
    of that namespace is placed. And a limit whose hundredfold exceeds
    Go's int is compared after wrap-around: the model is refused for a
    request of 100 on the empty cluster. *)
Lemma quota_claim_fails :
  (vcoreSum (placedOn testConf m40nodes [firstWholeGPUPod] (podNamespace failedPod) "M40")
     + GetGPUResourceOfPod failedPod VCoreAnnotation > 1 * HundredCore /\
   predicate.Quota oneM40 !! "M40" = Some 1 /\
   predicate.filterGPUModel testConf (fun _ => true) (fun _ => true)
     (m40cluster [firstWholeGPUPod]) failedPod oneM40 = Ok ["M40"]) /\
  (vcoreSum (placedOn testConf m40nodes [firstWholeGPUPod] (podNamespace anonymousPod) "M40")
     + GetGPUResourceOfPod anonymousPod VCoreAnnotation <= 1 * HundredCore /\
   predicate.filterGPUModel testConf (fun _ => true) (fun _ => true)
     (m40cluster [firstWholeGPUPod]) anonymousPod oneM40 = Ok [] /\
   predicate.quotaFilter testConf (fun _ => true) (fun _ => true)
     (m40cluster [firstWholeGPUPod]) anonymousQuota anonymousPod m40nodes
   = {| passedNodes := [];
        failedNodes := {[ "testnode0" := "ExceedsGPUQuota";
                          "testnode1" := "ExceedsGPUQuota";
                          "testnode2" := "ExceedsGPUQuota" ]};
        err := None |}) /\
  (vcoreSum (placedOn testConf m40nodes [] (podNamespace (wholeGPUPod 1)) "M40")
     + GetGPUResourceOfPod (wholeGPUPod 1) VCoreAnnotation
   <= 92233720368547759 * HundredCore /\
   predicate.Quota hugeM40 !! "M40" = Some 92233720368547759 /\
   predicate.filterGPUModel testConf (fun _ => true) (fun _ => true)
     (m40cluster []) (wholeGPUPod 1) hugeM40 = Ok []).
Proof.
  split; [|split].
  - split; [vm_compute; reflexivity|]. split; vm_compute; reflexivity.
  - split; [vm_compute; discriminate|]. split; vm_compute; reflexivity.
  - split; [vm_compute; discriminate|]. split; vm_compute; reflexivity.
Qed.

(** C9 for a filter whose only sync so far met an unreachable API server. *)
Lemma cold_start_gate_witness :
  Forall (fun ev => loads (fun _ => Fail "not json") predicate.newGPUFilter ev = false)
         [Fail "connection refused"] /\
  IsGPURequiredPod pod0 = true /\
  predicate.Filter testConf (fun _ => true) (fun _ => true) (quietCluster []) 10 1
    (syncAll (fun _ => Fail "not json") predicate.newGPUFilter [Fail "connection refused"])
    pod0 nodeList 0
  = Done ({| Nodes := None; FailedNodes := None; Error := predicate.notSynced |}, 0%nat).
Proof.
  assert (Forall (fun ev => loads (fun _ => Fail "not json") predicate.newGPUFilter ev = false)
                 [Fail "connection refused"]) as Hidle
    by (repeat constructor).
  split; [exact Hidle|]. split; [reflexivity|].
  exact (proj1 (cold_start_gate testConf (fun _ => true) (fun _ => true)
                  (fun _ => Fail "not json") (quietCluster []) 10 1)
           [Fail "connection refused"] pod0 nodeList 0%nat Hidle eq_refl).
Defined.

(** After the config map was found missing the same request is decided. *)
Example not_found_opens_gate :
  acceptedNames
    (match predicate.Filter testConf (fun _ => true) (fun _ => true) (quietCluster []) 10 1
             (predicate.syncQuota (fun _ => Fail "not json") predicate.newGPUFilter
                (Fail "configmap gpuquota not found"))
             pod0 nodeList 0 with
     | Done (r, s) => Done ({| passedNodes := default [] (Nodes r);
                               failedNodes := default ∅ (FailedNodes r);
                               err := None |}, s)
     | Panicked p => Panicked p
     end) = Some ["testnode0"].
Proof. vm_compute. reflexivity. Qed.

End ScenarioProps.

(** ** Writing and reading device indices *)
Module CodecProps.
Import util CodecSpec.

Lemma digit_of_char (d : N) :
  (d < 10)%N -> digit_of (pretty_N_char d) = Some (Z.of_N d).
Proof.
  intros H.
  assert (d = 0 \/ d = 1 \/ d = 2 \/ d = 3 \/ d = 4 \/ d = 5 \/ d = 6 \/ d = 7
          \/ d = 8 \/ d = 9)%N as Hd by lia.
  repeat (destruct Hd as [->|Hd]; [reflexivity|]). by subst.
Qed.

Lemma char_plain (d : N) :
  (d < 10)%N ->
  Ascii.eqb (pretty_N_char d) "," = false /\
  Ascii.eqb (pretty_N_char d) "-" = false /\
  Ascii.eqb (pretty_N_char d) "+" = false.
Proof.
  intros H.
  assert (d = 0 \/ d = 1 \/ d = 2 \/ d = 3 \/ d = 4 \/ d = 5 \/ d = 6 \/ d = 7
          \/ d = 8 \/ d = 9)%N as Hd by lia.
  repeat (destruct Hd as [->|Hd]; [done|]). by subst.
Qed.

(** [pretty_N_go x s] writes the decimal digits of [x] in front of [s]. *)
Lemma digits_go_pretty (x : N) : forall s,
  exists k, forall acc,
    digits_go acc (pretty_N_go x s) = digits_go (acc * 10 ^ k + Z.of_N x) s /\ 0 <= k.
Proof.
  induction (N.lt_wf_0 x) as [x _ IH]. intros s.
  destruct (decide (x = 0%N)) as [->|Hx].
  - exists 0. intros acc. rewrite pretty_N_go_0. split; [f_equal; lia|lia].
  - rewrite pretty_N_go_step by lia.
    destruct (IH (x `div` 10)%N) with (s := String (pretty_N_char (x `mod` 10)) s)
      as [k Hk].
    { apply N.div_lt; lia. }
    exists (k + 1). intros acc. destruct (Hk acc) as [-> Hk0]. split; [|lia].
    simpl. rewrite digit_of_char by (apply N.mod_lt; lia).
    f_equal. rewrite Z.pow_add_r by lia.
    rewrite (N.div_mod x 10) at 3 by lia.
    rewrite N2Z.inj_add, N2Z.inj_mul. change (Z.of_N 10) with 10. lia.
Qed.

Lemma pretty_N_go_head (x : N) : forall s,
  (0 < x)%N ->
  exists d s', (d < 10)%N /\ pretty_N_go x s = String (pretty_N_char d) s'.
Proof.
  induction (N.lt_wf_0 x) as [x _ IH]. intros s Hx.
  rewrite pretty_N_go_step by lia.
  destruct (decide (x `div` 10 = 0)%N) as [E|E].
  - rewrite E, pretty_N_go_0. eexists _, _. split; [|reflexivity].
    apply N.mod_lt. lia.
  - apply IH; [apply N.div_lt; lia|by apply N.neq_0_lt_0].
Qed.

Lemma noComma_pretty_N_go (x : N) : forall s,
  noComma s = true -> noComma (pretty_N_go x s) = true.
Proof.
  induction (N.lt_wf_0 x) as [x _ IH]. intros s Hs.
  destruct (decide (x = 0%N)) as [->|Hx].
  - by rewrite pretty_N_go_0.
  - rewrite pretty_N_go_step by lia. apply IH; [apply N.div_lt; lia|].
    simpl. rewrite Hs.
    by destruct (char_plain (x `mod` 10)) as (-> & _); [apply N.mod_lt; lia|].
Qed.

Lemma pretty_pos (p : positive) : pretty (Z.pos p) = pretty_N_go (N.pos p) "".
Proof. reflexivity. Qed.

Lemma pretty_neg (p : positive) :
  pretty (Z.neg p) = String "-" (pretty_N_go (N.pos p) "").
Proof. reflexivity. Qed.

Lemma digits_pretty_pos (p : positive) :
  digits (pretty_N_go (N.pos p) "") = Some (Z.pos p) /\
  exists d s', (d < 10)%N /\ pretty_N_go (N.pos p) "" = String (pretty_N_char d) s'.
Proof.
  destruct (pretty_N_go_head (N.pos p) "") as (d & s' & Hd & E); [lia|].
  split; [|eauto].
  unfold digits. rewrite E, <- E.
  destruct (digits_go_pretty (N.pos p) "") as [k Hk].
  destruct (Hk 0) as [-> _]. simpl. f_equal.
Qed.

(** [strconv.Atoi] reads back what [strconv.Itoa] wrote. *)
Lemma Atoi_Itoa (z : Z) : - 2 ^ 63 <= z < 2 ^ 63 -> Atoi (Itoa z) = Some z.
Proof.
  intros Hz. unfold Itoa. destruct z as [|p|p].
  - reflexivity.
  - rewrite pretty_pos.
    destruct (digits_pretty_pos p) as (Hdig & d & s' & Hd & E).
    unfold Atoi.
    assert (match pretty_N_go (N.pos p) "" with
            | String "-" s' => (fun n => - n) <$> digits s'
            | String "+" s' => digits s'
            | _ => digits (pretty_N_go (N.pos p) "")
            end = Some (Z.pos p)) as ->.
    { rewrite <- Hdig. rewrite E.
      assert (d = 0 \/ d = 1 \/ d = 2 \/ d = 3 \/ d = 4 \/ d = 5 \/ d = 6 \/ d = 7
              \/ d = 8 \/ d = 9)%N as Hc by lia.
      repeat (destruct Hc as [->|Hc]; [reflexivity|]). by subst. }
    destruct (Z.leb_spec (- 2 ^ 63) (Z.pos p)); [|lia].
    destruct (Z.ltb_spec (Z.pos p) (2 ^ 63)); [done|lia].
  - destruct Hz as [Hlo Hhi]. rewrite pretty_neg.
    destruct (digits_pretty_pos p) as (Hdig & _).
    unfold Atoi. rewrite Hdig. simpl fmap.
    change (- Z.pos p) with (Z.neg p).
    apply Z.leb_le in Hlo. apply Z.ltb_lt in Hhi.
    cbv beta iota. by rewrite Hlo, Hhi.
Qed.

Lemma noComma_Itoa (z : Z) : noComma (Itoa z) = true.
Proof.
  unfold Itoa. destruct z as [|p|p].
  - reflexivity.
  - rewrite pretty_pos. by apply noComma_pretty_N_go.
  - rewrite pretty_neg. simpl. by apply noComma_pretty_N_go.
Qed.

(** [strings.Split] on a piece without separator. *)
Lemma SplitComma_plain (w : string) : noComma w = true -> SplitComma w = [w].
Proof.
  induction w as [|c w IH]; [done|]. simpl.
  intros [Hc Hw]%andb_prop. apply negb_true_iff in Hc. rewrite Hc.
  by rewrite IH.
Qed.

Lemma SplitComma_cons (w rest : string) :
  noComma w = true ->
  SplitComma (w +:+ "," +:+ rest) = w :: SplitComma rest.
Proof.
  induction w as [|c w IH]; [done|]. simpl.
  intros [Hc Hw]%andb_prop. apply negb_true_iff in Hc. rewrite Hc.
  by rewrite IH.
Qed.

(** [strings.Split] undoes [strings.Join] on pieces without separator. *)
Lemma SplitComma_JoinComma (l : list string) :
  l <> [] -> Forall (fun w => noComma w = true) l ->
  SplitComma (JoinComma l) = l.
Proof.
  induction l as [|w l IH]; [done|]. intros _ Hl.
  inversion Hl as [|? ? Hw Hl']; subst.
  destruct l as [|w' l].
  - simpl. by apply SplitComma_plain.
  - change (JoinComma (w :: w' :: l)) with (w +:+ "," +:+ JoinComma (w' :: l)).
    rewrite SplitComma_cons by done. f_equal. by apply IH.
Qed.

Lemma parseIndexes_app (strs : list string) : forall ret,
  parseIndexes ret strs =
    match parseIndexes [] strs with
    | (idxs, e) => (ret ++ idxs, e)
    end.
Proof.
  induction strs as [|w strs IH]; intros ret; simpl.
  - by rewrite app_nil_r.
  - destruct (Atoi w) as [index|]; [|by rewrite app_nil_r].
    rewrite (IH (ret ++ [index])), (IH [index]).
    destruct (parseIndexes [] strs) as [idxs e]. by rewrite <- app_assoc.
Qed.

(** The loop of GetPredicateIdxOfContainer succeeds exactly when every
    piece is an integer, and then returns the integers in order. *)
Lemma parseIndexes_mapM (strs : list string) (idxs : list Z) :
  parseIndexes [] strs = (idxs, None) <-> mapM Atoi strs = Some idxs.
Proof.
  revert idxs. induction strs as [|w strs IH]; intros idxs; simpl.
  - split; [by intros [= <-]|by intros [= <-]].
  - destruct (Atoi w) as [index|] eqn:E; simpl.
    2:{ split; [intros [=]|intros [=]]. }
    rewrite parseIndexes_app.
    destruct (parseIndexes [] strs) as [rest e] eqn:Er.
    split.
    + intros [= <- ->]. by rewrite (proj1 (IH rest) eq_refl).
    + destruct (mapM Atoi strs) as [rest'|] eqn:Em; simpl; [|intros [=]].
      intros [= <-]. pose proof (proj2 (IH rest') eq_refl) as Hp.
      by injection Hp as -> ->.
Qed.

Lemma mapM_Atoi_Itoa (ids : list Z) :
  Forall (fun z => - 2 ^ 63 <= z < 2 ^ 63) ids ->
  mapM Atoi (Itoa <$> ids) = Some ids.
Proof.
  induction 1 as [|z ids Hz _ IH]; [done|].
  rewrite fmap_cons. cbn [mapM]. by rewrite (Atoi_Itoa z Hz), IH.
Qed.

(** GetPredicateIdxOfContainer in terms of the pieces of the annotation. *)
Lemma GetPredicateIdx_mapM (pod : Pod) (i : Z) (idxs : list Z) :
  GetPredicateIdxOfContainer pod i = (idxs, None) <->
  exists s, podAnnotations pod !! idxKey i = Some s /\
            mapM Atoi (SplitComma s) = Some idxs.
Proof.
  unfold GetPredicateIdxOfContainer. fold (idxKey i).
  destruct (podAnnotations pod !! idxKey i) as [s|].
  - rewrite parseIndexes_mapM. split; [by exists s|]. by intros (? & [= <-] & H).
  - split; [intros [=]|]. by intros (? & [=] & _).
Qed.

(** X1. GetPredicateIdxOfContainer succeeds exactly when the annotation
    of the container is present and every comma-separated piece of it is
    an integer that [strconv.Atoi] accepts; it then returns these integers
    in order. So an absent annotation, an empty annotation and a list with
    one malformed piece all give an error. *)
Theorem GetPredicateIdxOfContainer_parses (pod : Pod) (i : Z) (idxs : list Z) :
  GetPredicateIdxOfContainer pod i = (idxs, None) <->
  exists s, podAnnotations pod !! idxKey i = Some s /\
            mapM Atoi (SplitComma s) = Some idxs.
Proof. apply GetPredicateIdx_mapM. Qed.

(** X2. The index annotation that Allocate writes for a container, the
    decimal device ids joined by commas, is read back by
    GetPredicateIdxOfContainer as the same list of ids; the annotation of
    an empty list of ids is the empty string, which is read as an error. *)
Theorem predicate_index_round_trip (pod : Pod) (i : Z) (ids : list Z) :
  Forall (fun z => - 2 ^ 63 <= z < 2 ^ 63) ids ->
  podAnnotations pod !! idxKey i = Some (JoinComma (Itoa <$> ids)) ->
  match ids with
  | [] => exists e, GetPredicateIdxOfContainer pod i = ([], Some e)
  | _ => GetPredicateIdxOfContainer pod i = (ids, None)
  end.
Proof.
  intros Hids Hlk. destruct ids as [|z ids].
  - unfold GetPredicateIdxOfContainer. fold (idxKey i). rewrite Hlk. simpl. eauto.
  - apply GetPredicateIdx_mapM. eexists. split; [exact Hlk|].
    rewrite SplitComma_JoinComma.
    + by apply mapM_Atoi_Itoa.
    + done.
    + apply Forall_fmap, Forall_forall. intros. apply noComma_Itoa.
Qed.

End CodecProps.

(** ** The accounts of a view *)
Module ViewProps.
Import util device DeviceSpec NodeInfoSpec ViewSpec.
Import DeviceProps NodeInfoProps.

Lemma replayIndex_charge count dtm c ret index :
  replayIndex count dtm c ret index =
    if count <=? index then Done ret
    else '(_, ret') ← AddUsedResources ret index (replayCharge dtm c).1
                                                (replayCharge dtm c).2;
         Done ret'.
Proof.
  unfold replayIndex, replayCharge. destruct (count <=? index); [done|].
  by destruct (GetGPUResourceOfContainer c VCoreAnnotation <? HundredCore).
Qed.

(** The sum over a list of indices after one entry of the map changed. *)
Lemma sum_insert (f : DeviceInfo -> Z) (m : gmap Z DeviceInfo) k d d' (l : list Z) :
  NoDup l -> k ∈ l -> m !! k = Some d ->
  foldr Z.add 0 ((fun i => from_option f 0 (<[k := d']> m !! i)) <$> l)
  = foldr Z.add 0 ((fun i => from_option f 0 (m !! i)) <$> l) + f d' - f d.
Proof.
  intros Hnd Hk Hlk. induction l as [|a l IH]; [by apply elem_of_nil in Hk|].
  apply NoDup_cons in Hnd as [Ha Hnd]. rewrite !fmap_cons. simpl.
  destruct (decide (a = k)) as [->|Hne].
  - rewrite lookup_insert_eq, Hlk. simpl.
    assert ((fun i => from_option f 0 (<[k := d']> m !! i)) <$> l
            = (fun i => from_option f 0 (m !! i)) <$> l) as ->; [|lia].
    apply list_fmap_ext. intros j i Hi. rewrite lookup_insert_ne; [done|].
    intros ->. apply Ha. by eapply list_elem_of_lookup_2.
  - rewrite lookup_insert_ne by done.
    apply elem_of_cons in Hk as [->|Hk]; [done|]. rewrite IH by done. lia.
Qed.

Lemma sum_bound (f : DeviceInfo -> Z) (m : gmap Z DeviceInfo) (B : Z) (l : list Z) :
  0 <= B ->
  (forall i d, m !! i = Some d -> 0 <= f d <= B) ->
  0 <= foldr Z.add 0 ((fun i => from_option f 0 (m !! i)) <$> l)
    <= B * Z.of_nat (length l).
Proof.
  intros HB Hf. induction l as [|a l IH]; [simpl; lia|].
  rewrite fmap_cons. simpl foldr. simpl length.
  assert (0 <= from_option f 0 (m !! a) <= B).
  { destruct (m !! a) as [d|] eqn:E; simpl; [by eapply Hf|lia]. }
  lia.
Qed.

Lemma sum_complement (f : DeviceInfo -> Z) (m : gmap Z DeviceInfo) (B : Z) (l : list Z) :
  (forall i, i ∈ l -> is_Some (m !! i)) ->
  foldr Z.add 0 ((fun i => from_option (fun d => B - f d) 0 (m !! i)) <$> l)
  = B * Z.of_nat (length l) - foldr Z.add 0 ((fun i => from_option f 0 (m !! i)) <$> l).
Proof.
  intros Hl. induction l as [|a l IH]; [simpl; lia|].
  rewrite !fmap_cons. simpl foldr. simpl length.
  rewrite IH by (intros; apply Hl; by right).
  destruct (Hl a) as [d ->]; [by left|]. simpl. lia.
Qed.

Lemma sum_ext (f g : DeviceInfo -> Z) (m : gmap Z DeviceInfo) (l : list Z) :
  (forall i d, m !! i = Some d -> f d = g d) ->
  foldr Z.add 0 ((fun i => from_option f 0 (m !! i)) <$> l)
  = foldr Z.add 0 ((fun i => from_option g 0 (m !! i)) <$> l).
Proof.
  intros Hfg. induction l as [|a l IH]; [done|].
  rewrite !fmap_cons. simpl. rewrite IH. f_equal.
  destruct (m !! a) as [d|] eqn:E; simpl; [by eapply Hfg|done].
Qed.

Lemma to_uint_charge (S u v : Z) :
  to_uint (S + uadd u v - u) = uadd (to_uint S) v.
Proof.
  unfold uadd, to_uint.
  replace (S + (u + v) mod 2 ^ 64 - u) with ((u + v) mod 2 ^ 64 + (S - u)) by lia.
  rewrite Z.add_mod_idemp_l by lia. rewrite (Z.add_mod_idemp_l S) by lia.
  f_equal. lia.
Qed.

(** A charge keeps the accounts of the view. *)
Lemma AddUsedResources_viewInv nd dtm n devID vcore vmemory err n' :
  viewInv nd dtm n ->
  AddUsedResources n devID vcore vmemory = Done (err, n') ->
  viewInv nd dtm n'.
Proof.
  intros Hinv Hrun.
  pose proof Hinv as (Hname & Hnode & Hcount & Htotal & Hdom & Hdev & Hcore & Hmem).
  destruct (devs n !! devID) as [dev|] eqn:Hlk.
  2:{ rewrite AddUsedResources_lookup in Hrun by done. discriminate. }
  destruct (AddUsedResources_present n devID vcore vmemory dev Hlk)
    as (err0 & n0 & Hrun0 & Herr & Hdevs & Hc' & Hn' & Hname' & Ht' & Hok & Hfail).
  rewrite Hrun0 in Hrun. injection Hrun as <- <-.
  destruct err0 as [e|].
  { by rewrite (Hfail (mk_is_Some _ _ eq_refl)). }
  destruct (Hok eq_refl) as [Huc Hum].
  destruct (AddUsedResources_success dev vcore vmemory (eq_sym Herr)) as [Hdc Hdm].
  destruct (AddUsedResources_static dev vcore vmemory) as [Hid Htm].
  assert (devID ∈ seqZ 0 (deviceCount n)) as Hin.
  { apply elem_of_seqZ. apply Hdom. eauto. }
  unfold viewInv. rewrite Hname', Hn', Hc', Ht'.
  split; [done|]. split; [done|]. split; [done|]. split; [done|].
  split; [|split; [|split]].
  - intros i. rewrite Hdevs, <- Hdom. destruct (decide (devID = i)) as [->|Hne].
    + rewrite lookup_insert_eq, Hlk. split; eauto.
    + by rewrite lookup_insert_ne.
  - intros i d. rewrite Hdevs. destruct (decide (devID = i)) as [->|Hne].
    + rewrite lookup_insert_eq. intros [= <-].
      destruct (Hdev i dev Hlk) as (? & ? & ?).
      rewrite Hid, Htm. split; [done|]. split; [done|].
      by apply AddUsedResources_within.
    + rewrite lookup_insert_ne by done. apply Hdev.
  - unfold deviceSum. rewrite Hc', Hdevs.
    rewrite (sum_insert _ _ _ dev) by (done || apply NoDup_seqZ).
    rewrite Huc, Hcore, Hdc. apply eq_sym, to_uint_charge.
  - unfold deviceSum. rewrite Hc', Hdevs.
    rewrite (sum_insert _ _ _ dev) by (done || apply NoDup_seqZ).
    rewrite Hum, Hmem, Hdm. apply eq_sym, to_uint_charge.
Qed.

Lemma replayPod_viewInv nd dtm count ret pod ret' :
  viewInv nd dtm ret ->
  replayPod count dtm ret pod = Done ret' ->
  viewInv nd dtm ret'.
Proof.
  unfold replayPod. apply forE_invariant.
  intros s [i c] s' Hs Hrun. unfold replayContainer in Hrun.
  destruct (GetPredicateIdxOfContainer pod i) as [idxs [e|]].
  - by injection Hrun as <-.
  - revert Hs Hrun. apply forE_invariant.
    intros s0 index s1 Hs0. rewrite replayIndex_charge.
    destruct (count <=? index); [by intros [= <-]|].
    unfold mbind, exec_mbind.
    destruct (AddUsedResources s0 index _ _) as [[e n1]|] eqn:E; [|done].
    cbn. intros [= <-]. by eapply AddUsedResources_viewInv.
Qed.

Lemma NewNodeInfo_viewInv nd pods n :
  IsGPUEnabledNode nd = true ->
  NewNodeInfo nd pods = Done n ->
  0 < GetGPUDeviceCountOfNode nd < 2 ^ 63 /\
  HundredCore * GetGPUDeviceCountOfNode nd <= GetCapacityOfNode nd VCoreAnnotation /\
  viewInv nd (to_uint (GetCapacityOfNode nd VMemoryAnnotation)
              / GetGPUDeviceCountOfNode nd) n.
Proof.
  intros Hgpu Hrun.
  destruct (Z.lt_ge_cases (GetCapacityOfNode nd VCoreAnnotation) HundredCore) as [Hlt|Hge].
  { rewrite NewNodeInfo_guard_too_weak in Hrun by done. discriminate. }
  pose proof (device_count_positive nd Hge) as Hc.
  split; [done|]. split.
  { rewrite GetGPUDeviceCountOfNode_capacity. unfold HundredCore in *.
    rewrite Z.quot_div_nonneg by lia. apply Z.mul_div_le. lia. }
  unfold NewNodeInfo, udiv in Hrun.
  rewrite (to_uint_id (GetGPUDeviceCountOfNode nd)) in Hrun by (pow2; lia).
  destruct (Z.eqb_spec (GetGPUDeviceCountOfNode nd) 0); [lia|].
  simpl in Hrun.
  set (dtm := to_uint (GetCapacityOfNode nd VMemoryAnnotation) / GetGPUDeviceCountOfNode nd) in *.
  assert (0 <= dtm) as Hdtm.
  { pose proof (to_uint_range (GetCapacityOfNode nd VMemoryAnnotation)).
    subst dtm. apply Z.div_pos; lia. }
  match type of Hrun with
  | forE _ ?ret0 _ = _ => assert (viewInv nd dtm ret0) as H0
  end.
  { assert (forall i d,
               (list_to_map ((fun i => (i, newDeviceInfo i dtm))
                               <$> seqZ 0 (GetGPUDeviceCountOfNode nd))
                : gmap Z DeviceInfo) !! i = Some d ->
               0 <= i < GetGPUDeviceCountOfNode nd /\ d = newDeviceInfo i dtm) as Hmap.
    { intros i d Hl. apply elem_of_list_to_map_2 in Hl.
      apply list_elem_of_fmap in Hl as (j & [= -> ->] & Hj).
      apply elem_of_seqZ in Hj. split; [lia|done]. }
    unfold viewInv. simpl.
    split; [done|]. split; [done|]. split; [done|]. split; [done|].
    split; [|split; [|split]].
    - intros i. split.
      + intros [d Hd]. by apply Hmap in Hd as [? _].
      + intros Hi. rewrite lookup_devMap by done. eauto.
    - intros i d Hd. apply Hmap in Hd as [Hi ->]. split; [done|]. split; [done|].
      by apply newDeviceInfo_within.
    - unfold deviceSum. simpl.
      match goal with
      | |- 0 = to_uint ?s => assert (0 <= s <= 0 * Z.of_nat (length (seqZ 0 (GetGPUDeviceCountOfNode nd)))) as Hs
      end.
      { apply sum_bound; [lia|]. intros i d Hd. apply Hmap in Hd as [_ ->]. simpl. lia. }
      replace (foldr _ _ _) with 0 by lia. done.
    - unfold deviceSum. simpl.
      match goal with
      | |- 0 = to_uint ?s => assert (0 <= s <= 0 * Z.of_nat (length (seqZ 0 (GetGPUDeviceCountOfNode nd)))) as Hs
      end.
      { apply sum_bound; [lia|]. intros i d Hd. apply Hmap in Hd as [_ ->]. simpl. lia. }
      replace (foldr _ _ _) with 0 by lia. done. }
  exact (forE_invariant _ _ pods
           (fun s a s' Hs Hb => replayPod_viewInv _ _ _ s a s' Hs Hb) _ _ H0 Hrun).
Qed.

(** X3. The view that NewNodeInfo returns for a node that passed the guard
    of the device filter: it carries the node and its name, it has
    capacity/100 devices (at least one), the device map holds exactly the
    keys 0, ..., count-1, device [i] has id [i] and the per-device memory
    (the node memory divided by the device count, rounded down), and no
    replay, whatever annotations the pods carry, drives a device above 100
    used cores or above its memory. *)
Theorem NewNodeInfo_view (nd : Node) (pods : list Pod) (n : NodeInfo) :
  IsGPUEnabledNode nd = true ->
  NewNodeInfo nd pods = Done n ->
  GetName n = nodeName nd /\ GetNode n = nd /\
  GetDeviceCount n = GetCapacityOfNode nd VCoreAnnotation `div` HundredCore /\
  0 < GetDeviceCount n /\
  (forall i, is_Some (GetDeviceMap n !! i) <-> 0 <= i < GetDeviceCount n) /\
  (forall i d, GetDeviceMap n !! i = Some d ->
     GetID d = i /\
     util.totalMemory d
     = to_uint (GetCapacityOfNode nd VMemoryAnnotation) `div` GetDeviceCount n /\
     0 <= util.usedCore d <= HundredCore /\
     0 <= util.usedMemory d <= util.totalMemory d).
Proof.
  intros Hgpu Hrun.
  destruct (NewNodeInfo_viewInv nd pods n Hgpu Hrun)
    as (Hc & Hcap & Hname & Hnode & Hcount & _ & Hdom & Hdev & _).
  unfold GetName, GetNode, GetDeviceCount, GetDeviceMap.
  split; [done|]. split; [done|]. split.
  { rewrite Hcount, GetGPUDeviceCountOfNode_capacity. unfold HundredCore in *.
    apply Z.quot_div_nonneg; lia. }
  split; [lia|]. split; [done|].
  intros i d Hd. destruct (Hdev i d Hd) as (Hid & Htm & Hw).
  rewrite Hcount. split; [done|]. split; [done|]. exact Hw.
Qed.

(** X4. For a node with a positive vcuda-core capacity and a vcuda-memory
    capacity that is not negative: in the view that NewNodeInfo returns,
    the counters of the node are the sums of the counters of its devices,
    and the available cores of the node are the sum of the allocatable
    cores of the devices. The available memory of the node exceeds the sum
    of the allocatable memory of the devices by the remainder of the
    division of the node memory by the device count, which belongs to no
    device. *)
Theorem view_accounts (nd : Node) (pods : list Pod) (n : NodeInfo) :
  IsGPUEnabledNode nd = true ->
  0 <= GetCapacityOfNode nd VMemoryAnnotation ->
  NewNodeInfo nd pods = Done n ->
  usedCore n = deviceSum util.usedCore n /\
  usedMemory n = deviceSum util.usedMemory n /\
  GetAvailableCore n = deviceSum AllocatableCores n /\
  GetAvailableMemory n
  = deviceSum AllocatableMemory n
    + GetCapacityOfNode nd VMemoryAnnotation `mod` GetDeviceCount n.
Proof.
  intros Hgpu Hmem0 Hrun.
  destruct (NewNodeInfo_viewInv nd pods n Hgpu Hrun)
    as (Hc & Hcap & Hname & Hnode & Hcount & Htotal & Hdom & Hdev & Hcore & Hmem).
  pose proof (GetCapacityOfNode_int nd VCoreAnnotation) as Hci.
  pose proof (GetCapacityOfNode_int nd VMemoryAnnotation) as Hmi.
  set (count := GetGPUDeviceCountOfNode nd) in *.
  set (M := GetCapacityOfNode nd VMemoryAnnotation) in *.
  rewrite (to_uint_id M) in * by (pow2; lia).
  set (dtm := M `div` count) in *.
  assert (0 <= dtm /\ dtm * count <= M) as [Hdtm0 Hdtm].
  { subst dtm. split; [apply Z.div_pos; lia|]. rewrite Z.mul_comm.
    apply Z.mul_div_le. lia. }
  assert (Z.of_nat (length (seqZ 0 (deviceCount n))) = count) as Hlen.
  { rewrite length_seqZ, Hcount. lia. }
  assert (0 <= deviceSum util.usedCore n <= HundredCore * count) as Hsc.
  { rewrite <- Hlen. apply sum_bound; [unfold HundredCore; lia|].
    intros i d Hd. by destruct (Hdev i d Hd) as (_ & _ & Hw & _). }
  assert (0 <= deviceSum util.usedMemory n <= dtm * count) as Hsm.
  { rewrite <- Hlen. apply sum_bound; [done|].
    intros i d Hd. destruct (Hdev i d Hd) as (_ & Ht & _ & Hw). by rewrite <- Ht. }
  assert (deviceSum AllocatableCores n = HundredCore * count - deviceSum util.usedCore n)
    as Hac.
  { unfold deviceSum at 1.
    rewrite (sum_ext _ (fun d => HundredCore - util.usedCore d)).
    - rewrite sum_complement, Hlen; [done|]. intros i Hi%elem_of_seqZ. apply Hdom. lia.
    - intros i d Hd. destruct (Hdev i d Hd) as (_ & _ & Hw & _).
      unfold AllocatableCores. apply usub_exact; [done|]. unfold HundredCore. pow2. lia. }
  assert (deviceSum AllocatableMemory n = dtm * count - deviceSum util.usedMemory n)
    as Ham.
  { unfold deviceSum at 1.
    rewrite (sum_ext _ (fun d => dtm - util.usedMemory d)).
    - rewrite sum_complement, Hlen; [done|]. intros i Hi%elem_of_seqZ. apply Hdom. lia.
    - intros i d Hd. destruct (Hdev i d Hd) as (_ & Ht & _ & Hw).
      unfold AllocatableMemory. rewrite Ht in *. apply usub_exact; [done|].
      pow2. nia. }
  unfold HundredCore in *.
  assert (usedCore n = deviceSum util.usedCore n) as Huc.
  { rewrite Hcore. apply to_uint_id. pow2. lia. }
  assert (usedMemory n = deviceSum util.usedMemory n) as Hum.
  { rewrite Hmem. apply to_uint_id. pow2. nia. }
  split; [done|]. split; [done|]. split.
  - unfold GetAvailableCore, isub, imul. rewrite Hcount, Huc. fold count.
    unfold HundredCore. rewrite Hac.
    rewrite (to_int_id (count * 100)) by (pow2; lia).
    rewrite (to_int_id (deviceSum util.usedCore n)) by (pow2; lia).
    rewrite to_int_id by (pow2; lia). lia.
  - unfold GetAvailableMemory, GetDeviceCount. rewrite Htotal, Hum, Hcount. fold count.
    rewrite usub_exact by (pow2; nia).
    rewrite to_int_id by (pow2; nia).
    rewrite Ham. pose proof (Z.div_mod M count ltac:(lia)). subst dtm. lia.
Qed.

End ViewProps.

(** ** Allocate and the replay of its annotations *)
Module AllocateProps.
Import util device algorithm kube DeviceSpec NodeInfoSpec AllocatorSpec FilterSpec CodecSpec.
Import NodeInfoProps AllocatorProps CodecProps ViewProps FilterProps.

Lemma idxKey_inj i j : idxKey i = idxKey j -> i = j.
Proof.
  unfold idxKey, PredicateGPUIndexPrefix, Itoa. simpl. intros [= H].
  simpl in H. by apply pretty_Z_inj in H.
Qed.

Lemma idxKey_other i :
  idxKey i <> PredicateNode /\ idxKey i <> GPUAssigned /\
  idxKey i <> PredicateTimeAnnotation.
Proof. unfold idxKey, PredicateGPUIndexPrefix. simpl. by repeat split. Qed.

Lemma idxKey_predicateKey i : predicateKey (idxKey i) = true.
Proof.
  unfold predicateKey.
  assert (Contains (idxKey i) PredicateGPUIndexPrefix = true) as ->.
  { unfold idxKey, PredicateGPUIndexPrefix. by destruct (Itoa i). }
  by rewrite !orb_true_r.
Qed.

Lemma indexed_fst {A} (l : list A) : (indexed l).*1 = seqZ 0 (Z.of_nat (length l)).
Proof. unfold indexed. apply fst_zip. rewrite length_seqZ. lia. Qed.

Lemma indexed_NoDup {A} (l : list A) : NoDup (indexed l).*1.
Proof. rewrite indexed_fst. apply NoDup_seqZ. Qed.

Lemma forE_app {S A} (body : S -> A -> exec S) (l1 l2 : list A) (s : S) :
  forE body s (l1 ++ l2) = s' ← forE body s l1; forE body s' l2.
Proof.
  revert s. induction l1 as [|a l1 IH]; intros s; [done|].
  simpl. unfold mbind, exec_mbind. destruct (body s a) as [s1|]; [|done].
  simpl. apply IH.
Qed.

(** *** What a charge leaves untouched *)

Lemma AddUsedResources_frame n devID vc vm err n' :
  AddUsedResources n devID vc vm = Done (err, n') ->
  name n' = name n /\ node n' = node n /\ deviceCount n' = deviceCount n.
Proof.
  unfold AddUsedResources. destruct (devs n !! devID); [|done].
  destruct (util.AddUsedResources d vc vm) as [[e|] d']; by intros [= <- <-].
Qed.

Lemma chargeAll_frame vc vm : forall ds n err n',
  chargeAll n vc vm ds = Done (err, n') ->
  name n' = name n /\ node n' = node n /\ deviceCount n' = deviceCount n.
Proof.
  induction ds as [|d ds IH]; intros n err n'; simpl.
  - by intros [= <- <-].
  - unfold mbind, exec_mbind.
    destruct (AddUsedResources n (GetID d) vc vm) as [[e n1]|] eqn:E; [|done].
    apply AddUsedResources_frame in E as (Hn & Hd & Hc). cbn.
    destruct e; [by intros [= <- <-]|].
    intros (? & ? & ?)%IH. split; [|split]; congruence.
Qed.

Lemma AllocateOne_frame n c r n' :
  AllocateOne n c = Done (r, n') ->
  name n' = name n /\ node n' = node n /\ deviceCount n' = deviceCount n.
Proof.
  unfold AllocateOne. unfold mbind, exec_mbind.
  destruct (idiv _ _) as [q|]; [|done]. cbn.
  match goal with
  | |- context [if ?b then shareMode.Evaluate ?a1 ?a2 ?a3 else ?y] =>
      destruct (if b then shareMode.Evaluate a1 a2 a3 else y) as [ds|]; [|done]
  end. cbn.
  destruct (length ds =? 0)%nat; [by intros [= <- <-]|].
  match goal with
  | |- context [if ?b then (?x1, ?x2) else (?y1, ?y2)] =>
      destruct (if b then (x1, x2) else (y1, y2)) as [vc vm]
  end.
  destruct (chargeAll n vc vm ds) as [[e n1]|] eqn:E; [|done]. cbn.
  apply chargeAll_frame in E. by destruct e; intros [= <- <-].
Qed.

(** The loop of Allocate writes index annotations only. *)
Lemma allocateContainers_frame ics : forall n ann r n',
  allocateContainers n ann ics = Done (r, n') ->
  (name n' = name n /\ node n' = node n /\ deviceCount n' = deviceCount n) /\
  forall ann', r = Ok ann' ->
    forall k, (forall i, i ∈ ics.*1 -> k <> idxKey i) -> ann' !! k = ann !! k.
Proof.
  induction ics as [|[i c] ics IH]; intros n ann r n'; simpl.
  - intros [= <- <-]. split; [done|]. by intros ann' [= <-].
  - destruct (IsGPURequiredContainer c); simpl.
    2:{ intros [Hf Ha]%IH. split; [done|]. intros ann' -> k Hk.
        apply (Ha ann' eq_refl). intros j Hj. apply Hk. by right. }
    unfold mbind, exec_mbind.
    destruct (AllocateOne n c) as [[r1 n1]|] eqn:E; [|done]. cbn.
    apply AllocateOne_frame in E as (Hn & Hd & Hc).
    destruct r1 as [ds|e].
    + intros [(? & ? & ?) Ha]%IH. split; [split; [|split]; congruence|].
      intros ann' -> k Hk. rewrite (Ha ann' eq_refl).
      * apply lookup_insert_ne. intros Heq. by apply (Hk i); [left|].
      * intros j Hj. apply Hk. by right.
    + intros [= <- <-]. split; [done|]. intros ann' [=].
Qed.

(** Allocate, when it succeeds: the annotation map its loop built, with
    the three closing annotations on top. *)
Lemma Allocate_ok now n pod pod' n' :
  Allocate now n pod = Done (Ok pod', n') ->
  exists ann,
    allocateContainers n (podAnnotations pod) (indexed (podContainers pod))
    = Done (Ok ann, n') /\
    pod' = {| podName := podName pod; podNamespace := podNamespace pod;
              podUID := podUID pod;
              podAnnotations :=
                <[PredicateTimeAnnotation := Itoa now]>
                  (<[GPUAssigned := "false"]> (<[PredicateNode := GetName n']> ann));
              podNodeName := podNodeName pod;
              podContainers := podContainers pod;
              podPhase := podPhase pod |}.
Proof.
  unfold Allocate, mbind, exec_mbind.
  destruct (allocateContainers _ _ _) as [[[ann|e] n1]|]; [|done|done].
  cbn. intros [= <- <-]. by exists ann.
Qed.

Lemma closing_lookup_idx (ann : gmap string string) (now nm : string) i :
  (<[PredicateTimeAnnotation := now]>
     (<[GPUAssigned := "false"]> (<[PredicateNode := nm]> ann))) !! idxKey i
  = ann !! idxKey i.
Proof.
  destruct (idxKey_other i) as (H1 & H2 & H3). by rewrite !lookup_insert_ne.
Qed.

(** The fields and annotations of the pod that Allocate returns. *)
Lemma Allocate_fields now n pod pod' n' :
  Allocate now n pod = Done (Ok pod', n') ->
  (podName pod' = podName pod /\ podNamespace pod' = podNamespace pod /\
   podUID pod' = podUID pod /\ podNodeName pod' = podNodeName pod /\
   podContainers pod' = podContainers pod /\ podPhase pod' = podPhase pod) /\
  podAnnotations pod' !! PredicateNode = Some (GetName n) /\
  podAnnotations pod' !! GPUAssigned = Some "false" /\
  podAnnotations pod' !! PredicateTimeAnnotation = Some (Itoa now) /\
  forall k,
    k <> PredicateNode -> k <> GPUAssigned -> k <> PredicateTimeAnnotation ->
    (forall i, 0 <= i < Z.of_nat (length (podContainers pod)) -> k <> idxKey i) ->
    podAnnotations pod' !! k = podAnnotations pod !! k.
Proof.
  intros (ann & Hloop & ->)%Allocate_ok. simpl.
  apply allocateContainers_frame in Hloop as [(Hname & _) Hann].
  split; [done|].
  split. { rewrite lookup_insert_ne, lookup_insert_ne, lookup_insert_eq by done.
           unfold GetName. by rewrite Hname. }
  split. { by rewrite lookup_insert_ne, lookup_insert_eq by done. }
  split. { by rewrite lookup_insert_eq. }
  intros k H1 H2 H3 Hk. rewrite !lookup_insert_ne by done.
  apply (Hann ann eq_refl). intros i Hi. apply Hk.
  rewrite indexed_fst in Hi. apply elem_of_seqZ in Hi. lia.
Qed.

(** X5. The pod that Allocate returns is the given pod with new annotations:
    predicate-node names the view, gpu-assigned is "false", predicate-time
    is the clock reading, and every annotation under another key than
    these three and the index keys of the pod's containers is as it was. *)
Theorem Allocate_annotations now n pod pod' n' :
  Allocate now n pod = Done (Ok pod', n') ->
  (podName pod' = podName pod /\ podNamespace pod' = podNamespace pod /\
   podUID pod' = podUID pod /\ podNodeName pod' = podNodeName pod /\
   podContainers pod' = podContainers pod /\ podPhase pod' = podPhase pod) /\
  podAnnotations pod' !! PredicateNode = Some (GetName n) /\
  podAnnotations pod' !! GPUAssigned = Some "false" /\
  podAnnotations pod' !! PredicateTimeAnnotation = Some (Itoa now) /\
  forall k,
    k <> PredicateNode -> k <> GPUAssigned -> k <> PredicateTimeAnnotation ->
    (forall i, 0 <= i < Z.of_nat (length (podContainers pod)) -> k <> idxKey i) ->
    podAnnotations pod' !! k = podAnnotations pod !! k.
Proof. apply Allocate_fields. Qed.

(** X6. A pod that Allocate returns counts as predicated: the guard of the
    device filter turns it away, with an error in the extender/v1 revision
    and with no node and no reason in the quota revision. *)
Theorem allocated_pod_is_predicated cluster ticks now n pod pod' n' nodes s :
  Allocate now n pod = Done (Ok pod', n') ->
  predicated pod' = true /\
  predicate_v1.deviceFilter cluster ticks now pod' nodes s
  = Done ({| passedNodes := []; failedNodes := ∅;
             err := Some ("pod " +:+ podName pod +:+ " had been predicated!") |}, s) /\
  predicate.deviceFilter cluster ticks now pod' nodes s
  = Done ({| passedNodes := []; failedNodes := ∅; err := None |}, s).
Proof.
  intros Hrun. destruct (Allocate_fields _ _ _ _ _ Hrun)
    as ((Hname & _) & _ & Hassigned & _).
  assert (predicated pod' = true) as Hp.
  { apply predicated_spec. by exists GPUAssigned, "false". }
  unfold predicate_v1.deviceFilter, predicate.deviceFilter.
  by rewrite Hp, Hname.
Qed.

(** *** Replay *)

(** The charges of AllocateOne, made again from the device ids. *)
Lemma chargeAll_replay count dtm c : forall ds n n1,
  chargeAll n (replayCharge dtm c).1 (replayCharge dtm c).2 ds = Done (None, n1) ->
  Forall (fun d => GetID d < count) ds ->
  forE (replayIndex count dtm c) n (GetID <$> ds) = Done n1.
Proof.
  induction ds as [|d ds IH]; intros n n1; simpl.
  - by intros [= <-].
  - intros Hrun Hids. inversion Hids as [|? ? Hid Hrest]; subst.
    rewrite replayIndex_charge. destruct (Z.leb_spec count (GetID d)); [lia|].
    unfold mbind, exec_mbind in *.
    destruct (AddUsedResources n (GetID d) _ _) as [[e n2]|]; [|done].
    cbn in *. destruct e; [done|]. by apply IH.
Qed.

Lemma AllocateOne_ok n c ds n' :
  wfNode n -> AllocateOne n c = Done (Ok ds, n') ->
  ds <> [] /\ Forall (fun d => 0 <= GetID d < deviceCount n) ds /\
  chargeAll n (replayCharge (deviceTotalMemoryOf n) c).1
              (replayCharge (deviceTotalMemoryOf n) c).2 ds = Done (None, n') /\
  wfNode n'.
Proof.
  intros Hwf Hrun.
  destruct (AllocateOne_total n c Hwf) as (r & n1 & Hrun1 & Hwf1).
  rewrite Hrun in Hrun1. injection Hrun1 as <- <-.
  rewrite (AllocateOne_unfold n c Hwf) in Hrun. cbv zeta in Hrun.
  destruct (Evaluate_total n
              (GetGPUResourceOfContainer c VCoreAnnotation <? HundredCore)
              (GetGPUResourceOfContainer c VCoreAnnotation)
              (GetGPUResourceOfContainer c VMemoryAnnotation) Hwf
              (GetGPUResourceOfContainer_uint c VCoreAnnotation))
    as (devs & Heval & Hids).
  rewrite Heval in Hrun. cbn [mbind exec_mbind exec_bind] in Hrun.
  destruct (Nat.eqb_spec (length devs) 0) as [|Hlen]; [done|].
  change (if GetGPUResourceOfContainer c VCoreAnnotation <? HundredCore
          then (GetGPUResourceOfContainer c VCoreAnnotation,
                GetGPUResourceOfContainer c VMemoryAnnotation)
          else (HundredCore, deviceTotalMemoryOf n))
    with (replayCharge (deviceTotalMemoryOf n) c) in Hrun.
  destruct (replayCharge (deviceTotalMemoryOf n) c) as [vc vm]. simpl.
  unfold mbind, exec_mbind in Hrun.
  destruct (chargeAll n vc vm devs) as [[e n1]|] eqn:Ec; [|done].
  cbn in Hrun. destruct e; [done|]. injection Hrun as <- <-.
  split; [by destruct devs|done].
Qed.

Lemma count_int nd : - 2 ^ 63 <= GetGPUDeviceCountOfNode nd < 2 ^ 63.
Proof.
  rewrite GetGPUDeviceCountOfNode_capacity.
  pose proof (GetCapacityOfNode_int nd VCoreAnnotation) as H. unfold HundredCore.
  pose proof (Z.quot_rem' (GetCapacityOfNode nd VCoreAnnotation) 100) as Hqr.
  destruct (Z.le_gt_cases 0 (GetCapacityOfNode nd VCoreAnnotation)) as [Hp|Hn].
  - pose proof (Z.rem_bound_pos (GetCapacityOfNode nd VCoreAnnotation) 100).
    pow2. lia.
  - pose proof (Z.rem_bound_pos_neg (GetCapacityOfNode nd VCoreAnnotation) 100).
    pow2. lia.
Qed.

(** GetPredicateIdxOfContainer reads back the ids that Allocate wrote. *)
Lemma GetPredicateIdx_written P i ds count :
  ds <> [] -> Forall (fun d => 0 <= GetID d < count) ds -> count < 2 ^ 63 ->
  podAnnotations P !! idxKey i
  = Some (JoinComma ((fun dev => Itoa (GetID dev)) <$> ds)) ->
  GetPredicateIdxOfContainer P i = (GetID <$> ds, None).
Proof.
  intros Hne Hids Hc Hlk. unfold GetPredicateIdxOfContainer. fold (idxKey i).
  rewrite Hlk. apply parseIndexes_mapM.
  replace ((fun dev => Itoa (GetID dev)) <$> ds) with (Itoa <$> (GetID <$> ds))
    by (by rewrite <- list_fmap_compose).
  rewrite SplitComma_JoinComma.
  - apply mapM_Atoi_Itoa, Forall_fmap. eapply Forall_impl; [exact Hids|].
    simpl. intros. pow2. lia.
  - by destruct ds.
  - apply Forall_fmap, Forall_forall. intros. apply noComma_Itoa.
Qed.

Lemma allocateContainers_replay P count dtm ics : forall n ann ann' n',
  wfNode n -> count = deviceCount n -> dtm = deviceTotalMemoryOf n ->
  NoDup ics.*1 ->
  (forall i, i ∈ ics.*1 -> ann !! idxKey i = None) ->
  allocateContainers n ann ics = Done (Ok ann', n') ->
  (forall i, i ∈ ics.*1 -> podAnnotations P !! idxKey i = ann' !! idxKey i) ->
  forE (replayContainer count dtm P) n ics = Done n'.
Proof.
  induction ics as [|[i c] ics IH]; intros n ann ann' n' Hwf Hc Hdtm Hnd Hfree Hrun HP.
  - simpl in *. by injection Hrun as _ <-.
  - simpl in Hnd. apply NoDup_cons in Hnd as [Hi Hnd].
    assert (forall a1 n1, allocateContainers n1 a1 ics = Done (Ok ann', n') ->
                          ann' !! idxKey i = a1 !! idxKey i) as Hkeep.
    { intros a1 n1 Hr. apply allocateContainers_frame in Hr as [_ Ha].
      apply (Ha ann' eq_refl). intros j Hj Heq. apply idxKey_inj in Heq.
      by subst. }
    assert (count < 2 ^ 63) as Hcount.
    { destruct Hwf as (_ & Heq & _). rewrite Hc, <- Heq. apply count_int. }
    simpl in Hrun.
    destruct (IsGPURequiredContainer c) eqn:Ereq; simpl in Hrun.
    + unfold mbind, exec_mbind in Hrun.
      destruct (AllocateOne n c) as [[r n1]|] eqn:E; [|done]. cbn in Hrun.
      destruct r as [ds|e]; [|done].
      destruct (AllocateOne_ok n c ds n1 Hwf E) as (Hne & Hids & Hcharge & Hwf1).
      destruct (AllocateOne_frame _ _ _ _ E) as (_ & Hnode & Hcnt).
      assert (replayContainer count dtm P n (i, c) = Done n1) as Hstep.
      { unfold replayContainer.
        rewrite (GetPredicateIdx_written P i ds count); [|done| |done|].
        - apply chargeAll_replay; [by rewrite Hdtm|].
          eapply Forall_impl; [exact Hids|]. simpl. intros. lia.
        - eapply Forall_impl; [exact Hids|]. simpl. intros. lia.
        - rewrite HP by (by left). rewrite (Hkeep _ _ Hrun).
          by rewrite lookup_insert_eq. }
      cbn [forE]. unfold mbind, exec_mbind. rewrite Hstep. cbn.
      eapply IH; [exact Hwf1|congruence| |exact Hnd| |exact Hrun|].
      * rewrite Hdtm. unfold deviceTotalMemoryOf, GetNode. by rewrite Hnode.
      * intros j Hj. rewrite lookup_insert_ne; [apply Hfree; by right|].
        intros Heq%idxKey_inj. by subst.
      * intros j Hj. apply HP. by right.
    + assert (replayContainer count dtm P n (i, c) = Done n) as Hstep.
      { unfold replayContainer, GetPredicateIdxOfContainer. fold (idxKey i).
        rewrite HP by (by left). rewrite (Hkeep _ _ Hrun).
        by rewrite Hfree by (by left). }
      cbn [forE]. unfold mbind, exec_mbind. rewrite Hstep. cbn.
      eapply IH; [exact Hwf|done|done|exact Hnd| |exact Hrun|].
      * intros j Hj. apply Hfree. by right.
      * intros j Hj. apply HP. by right.
Qed.

(** X7. For a node with a positive vcuda-core capacity and a vcuda-memory
    capacity that is not negative, the view that NewNodeInfo built for it,
    and a pod that was not predicated before (no annotation key of it
    contains gpu-assigned, predicate-time or predicate-gpu-idx-): the
    reservations that a successful Allocate made on the view are the ones
    that the annotations of the returned pod stand for. Building the view
    again with that pod listed last on the node gives the view that
    Allocate left. *)
Theorem replay_reproduces_allocation nd pods n now pod pod' n' :
  IsGPUEnabledNode nd = true ->
  0 <= GetCapacityOfNode nd VMemoryAnnotation ->
  predicated pod = false ->
  NewNodeInfo nd pods = Done n ->
  Allocate now n pod = Done (Ok pod', n') ->
  NewNodeInfo nd (pods ++ [pod']) = Done n'.
Proof.
  intros Hgpu Hmem Hfresh Hbuilt Halloc.
  destruct (NewNodeInfo_wf nd pods n Hgpu Hbuilt) as [Hwf Hnode].
  pose proof Hwf as (Hpos & Hcount & _). rewrite Hnode in Hcount.
  pose proof (count_int nd) as Hci.
  pose proof (GetCapacityOfNode_int nd VMemoryAnnotation) as Hmi.
  apply Allocate_ok in Halloc as (ann & Hloop & ->).
  unfold NewNodeInfo in *. unfold mbind, exec_mbind in *.
  destruct (udiv _ _) as [dtm|] eqn:Eu; [|done]. cbn in *.
  rewrite forE_app. unfold mbind, exec_mbind. rewrite Hbuilt. cbn.
  assert (dtm = deviceTotalMemoryOf n) as Hdtm.
  { unfold udiv in Eu. rewrite !to_uint_id in Eu by (pow2; lia).
    destruct (Z.eqb_spec (GetGPUDeviceCountOfNode nd) 0); [lia|].
    injection Eu as <-. unfold deviceTotalMemoryOf, GetNode. rewrite Hnode.
    rewrite Z.quot_div_nonneg by lia.
    assert (0 <= GetCapacityOfNode nd VMemoryAnnotation `div` GetGPUDeviceCountOfNode nd
            <= GetCapacityOfNode nd VMemoryAnnotation).
    { split; [apply Z.div_pos; lia|]. apply Z.div_le_upper_bound; [lia|]. nia. }
    rewrite to_int_id, to_uint_id by (pow2; lia). done. }
  assert (replayPod (GetGPUDeviceCountOfNode nd) dtm n
            {| podName := podName pod; podNamespace := podNamespace pod;
               podUID := podUID pod;
               podAnnotations :=
                 <[PredicateTimeAnnotation := Itoa now]>
                   (<[GPUAssigned := "false"]> (<[PredicateNode := GetName n']> ann));
               podNodeName := podNodeName pod;
               podContainers := podContainers pod;
               podPhase := podPhase pod |} = Done n') as ->; [|done].
  unfold replayPod. simpl podContainers.
  eapply allocateContainers_replay;
    [exact Hwf|done|exact Hdtm|apply indexed_NoDup| |exact Hloop|].
  - intros i _. destruct (podAnnotations pod !! idxKey i) as [v|] eqn:E; [|done].
    assert (predicated pod = true) as Hp; [|congruence].
    apply predicated_spec. exists (idxKey i), v. split; [done|].
    apply idxKey_predicateKey.
  - intros i _. simpl. apply closing_lookup_idx.
Qed.

(** X8. Until it is bound, a pod that Allocate returned is listed on the
    nodes that carry the name of the view (and on a node without a name),
    and on no other node. *)
Theorem allocated_pod_listed now n pod pod' n' nd :
  Allocate now n pod = Done (Ok pod', n') ->
  podNodeName pod = "" ->
  podPhase pod <> PodSucceeded -> podPhase pod <> PodFailed ->
  onNode nd pod' = true <-> nodeName nd = GetName n \/ nodeName nd = "".
Proof.
  intros Hrun Hunbound Hs Hf.
  destruct (Allocate_fields _ _ _ _ _ Hrun)
    as ((_ & _ & _ & Hnn & _ & Hph) & Hnode & _).
  unfold onNode. rewrite Hnn, Hph, Hunbound, Hnode. simpl.
  rewrite !bool_decide_eq_false_2 by done. simpl. rewrite !andb_true_r.
  rewrite orb_true_iff, String.eqb_eq.
  destruct (nodeName nd) as [|a s] eqn:E; [by split; auto|].
  split; [by intros [?|<-]; auto|by intros [->|?]; auto].
Qed.

(** *** IsAllocatable *)

Lemma isAllocatableContainers_agrees ics : forall n ann,
  isAllocatableContainers n ics.*2 =
    match allocateContainers n ann ics with
    | Done (Ok _, n') => Done (true, n')
    | Done (Fail _, n') => Done (false, n')
    | Panicked p => Panicked p
    end.
Proof.
  induction ics as [|[i c] ics IH]; intros n ann; simpl; [done|].
  destruct (IsGPURequiredContainer c); simpl; [|apply IH].
  unfold mbind, exec_mbind.
  destruct (AllocateOne n c) as [[[ds|e] n1]|]; cbn; [apply IH|done|done].
Qed.

(** X9. IsAllocatable answers true exactly when Allocate succeeds on the
    same view, it faults exactly when Allocate faults, and it leaves on the
    view the reservations that Allocate would leave: a probe with
    IsAllocatable is not free of effect. *)
Theorem IsAllocatable_agrees_with_Allocate (now : Z) (n : NodeInfo) (pod : Pod) :
  IsAllocatable n pod =
    match Allocate now n pod with
    | Done (Ok _, n') => Done (true, n')
    | Done (Fail _, n') => Done (false, n')
    | Panicked p => Panicked p
    end.
Proof.
  unfold IsAllocatable, Allocate.
  replace (podContainers pod) with (indexed (podContainers pod)).*2 at 1.
  2:{ unfold indexed. apply snd_zip. rewrite length_seqZ. lia. }
  rewrite (isAllocatableContainers_agrees _ n (podAnnotations pod)).
  unfold mbind, exec_mbind.
  by destruct (allocateContainers _ _ _) as [[[ann|e] n1]|].
Qed.

(** *** Allocate on the views of the device filter *)

Lemma allocateContainers_wf ics : forall n ann r n',
  wfNode n -> allocateContainers n ann ics = Done (r, n') -> wfNode n'.
Proof.
  induction ics as [|[i c] ics IH]; intros n ann r n' Hwf; simpl.
  - by intros [= _ <-].
  - destruct (IsGPURequiredContainer c); simpl; [|by apply IH].
    destruct (AllocateOne_total n c Hwf) as (r1 & n1 & Hrun & Hwf1).
    unfold mbind, exec_mbind. rewrite Hrun. cbn.
    destruct r1 as [ds|e]; [by apply IH|by intros [= _ <-]].
Qed.

(** X10. On a view that satisfies the representation invariant of
    NewNodeInfo, Allocate returns (it does not fault), whether it succeeds
    or fails, and the view it leaves satisfies the invariant again and has
    the same node, name and device count. *)
Theorem Allocate_keeps_invariant (now : Z) (n : NodeInfo) (pod : Pod) :
  wfNode n ->
  exists r n',
    Allocate now n pod = Done (r, n') /\
    wfNode n' /\
    GetNode n' = GetNode n /\ GetName n' = GetName n /\
    GetDeviceCount n' = GetDeviceCount n.
Proof.
  intros Hwf. unfold Allocate.
  destruct (allocateContainers_total (indexed (podContainers pod)) n
              (podAnnotations pod) Hwf) as (r & n' & Hrun).
  pose proof (allocateContainers_wf _ _ _ _ _ Hwf Hrun) as Hwf'.
  destruct (allocateContainers_frame _ _ _ _ _ Hrun) as [(Hname & Hnode & Hcount) _].
  unfold mbind, exec_mbind. rewrite Hrun. cbn.
  destruct r; eexists _, _; (split; [reflexivity|]); done.
Qed.

Lemma allocateContainers_idle ics : forall n ann,
  Forall (fun c => IsGPURequiredContainer c = false) ics.*2 ->
  allocateContainers n ann ics = Done (Ok ann, n).
Proof.
  induction ics as [|[i c] ics IH]; intros n ann Hl; simpl; [done|].
  inversion Hl as [|? ? Hc Hrest]; subst. simpl in Hc. rewrite Hc. simpl.
  by apply IH.
Qed.

(** X11. When no container of the pod asks for GPU by itself (each has no
    cores, or fewer than 100 cores and no memory), Allocate succeeds on
    every view without reserving anything, whatever the pod asks for in
    total: the view is left as it was and the pod only receives the three
    closing annotations. *)
Theorem Allocate_without_gpu_container (now : Z) (n : NodeInfo) (pod : Pod) :
  Forall (fun c => IsGPURequiredContainer c = false) (podContainers pod) ->
  Allocate now n pod
  = Done (Ok {| podName := podName pod; podNamespace := podNamespace pod;
                podUID := podUID pod;
                podAnnotations :=
                  <[PredicateTimeAnnotation := Itoa now]>
                    (<[GPUAssigned := "false"]>
                       (<[PredicateNode := GetName n]> (podAnnotations pod)));
                podNodeName := podNodeName pod;
                podContainers := podContainers pod;
                podPhase := podPhase pod |}, n).
Proof.
  intros Hl. unfold Allocate. rewrite allocateContainers_idle; [done|].
  unfold indexed. rewrite snd_zip; [done|]. rewrite length_seqZ. lia.
Qed.

End AllocateProps.

(** ** Requests and devices *)
Module RequestProps.
Import util device algorithm DeviceSpec NodeInfoSpec OrderSpec AllocatorSpec.
Import DeviceProps NodeInfoProps OrderProps AllocatorProps.

Lemma GetGPUResourceOfPod_foldl (r : string) (cs : list Container) : forall acc,
  0 <= acc < 2 ^ 64 ->
  foldl (fun total container =>
           match cLimits container !! r with
           | Some val => uadd total (to_uint val)
           | None => total
           end) acc cs
  = to_uint (acc + foldr Z.add 0 ((fun c => GetGPUResourceOfContainer c r) <$> cs)).
Proof.
  induction cs as [|c cs IH]; intros acc Hacc.
  - simpl. rewrite Z.add_0_r. by rewrite to_uint_id.
  - rewrite fmap_cons. cbn [foldl foldr].
    unfold GetGPUResourceOfContainer at 1.
    destruct (cLimits c !! r) as [val|].
    + rewrite IH by apply uadd_range. unfold uadd, to_uint.
      rewrite Z.add_mod_idemp_l by lia. f_equal; lia.
    + rewrite IH by done. f_equal; lia.
Qed.

(** X12. The amount that GetGPUResourceOfPod returns is the sum of the
    amounts that GetGPUResourceOfContainer returns for the containers of
    the pod, reduced modulo 2^64. *)
Theorem GetGPUResourceOfPod_sum (pod : Pod) (r : string) :
  GetGPUResourceOfPod pod r
  = to_uint (foldr Z.add 0 ((fun c => GetGPUResourceOfContainer c r)
                              <$> podContainers pod)).
Proof.
  unfold GetGPUResourceOfPod. rewrite GetGPUResourceOfPod_foldl by (pow2; lia).
  done.
Qed.

Lemma sum_ge_elem (f : Container -> Z) (cs : list Container) (c : Container) :
  (forall x, 0 <= f x) -> c ∈ cs -> f c <= foldr Z.add 0 (f <$> cs).
Proof.
  intros Hf Hc. induction cs as [|a cs IH]; [by apply elem_of_nil in Hc|].
  rewrite fmap_cons. cbn [foldr].
  assert (0 <= foldr Z.add 0 (f <$> cs)).
  { clear -Hf. induction cs as [|b cs IH]; [simpl; lia|].
    rewrite fmap_cons. cbn [foldr]. pose proof (Hf b). lia. }
  apply elem_of_cons in Hc as [->|Hc]; [lia|]. pose proof (Hf a).
  specialize (IH Hc). lia.
Qed.

(** X13. A pod with a container that asks for GPU is itself a pod that asks
    for GPU, so Filter does not let it bypass the device filter, as long
    as the cores and the memory of its containers add up without
    wrap-around. *)
Theorem IsGPURequiredPod_of_container (pod : Pod) (c : Container) :
  c ∈ podContainers pod ->
  IsGPURequiredContainer c = true ->
  foldr Z.add 0 ((fun c => GetGPUResourceOfContainer c VCoreAnnotation)
                   <$> podContainers pod) < 2 ^ 64 ->
  foldr Z.add 0 ((fun c => GetGPUResourceOfContainer c VMemoryAnnotation)
                   <$> podContainers pod) < 2 ^ 64 ->
  IsGPURequiredPod pod = true.
Proof.
  intros Hc Hreq Hcores Hmem.
  pose proof (sum_ge_elem (fun c => GetGPUResourceOfContainer c VCoreAnnotation)
                (podContainers pod) c
                (fun x => proj1 (GetGPUResourceOfContainer_uint x _)) Hc) as Hc1.
  pose proof (sum_ge_elem (fun c => GetGPUResourceOfContainer c VMemoryAnnotation)
                (podContainers pod) c
                (fun x => proj1 (GetGPUResourceOfContainer_uint x _)) Hc) as Hm1.
  pose proof (GetGPUResourceOfContainer_uint c VCoreAnnotation) as Hcu.
  pose proof (GetGPUResourceOfContainer_uint c VMemoryAnnotation) as Hmu.
  simpl in Hc1, Hm1.
  unfold IsGPURequiredPod, GetGPUResourceOfPod.
  rewrite !GetGPUResourceOfPod_foldl by (pow2; lia). rewrite !Z.add_0_l.
  rewrite !to_uint_id by (pow2; lia).
  unfold IsGPURequiredContainer in Hreq. unfold HundredCore in *.
  destruct (Z.leb_spec (GetGPUResourceOfContainer c VCoreAnnotation) 0);
    [done|].
  destruct (Z.ltb_spec (GetGPUResourceOfContainer c VCoreAnnotation) 100);
  destruct (Z.leb_spec (GetGPUResourceOfContainer c VMemoryAnnotation) 0);
    try done; simpl in Hreq.
  all: match goal with
       | |- (if (?a <=? 0) || (?a <? 100) && (?b <=? 0) then _ else _) = _ =>
           destruct (Z.leb_spec a 0); [lia|];
           destruct (Z.ltb_spec a 100); destruct (Z.leb_spec b 0);
           simpl; try done; lia
       end.
Qed.

(** X14. On a device whose counters are within their ceilings, and for a
    request that does not wrap the [uint] sums, AddUsedResources succeeds
    exactly when the request is no more than what AllocatableCores and
    AllocatableMemory report, which is the test of shareMode.Evaluate; and
    a successful call lowers the two allocatable amounts by the request. *)
Theorem AddUsedResources_iff_allocatable (dev : DeviceInfo) (c m : Z) :
  within dev -> util.totalMemory dev < 2 ^ 64 ->
  0 <= c -> 0 <= m ->
  c + util.usedCore dev < 2 ^ 64 -> m + util.usedMemory dev < 2 ^ 64 ->
  ((util.AddUsedResources dev c m).1 = None <->
   c <= AllocatableCores dev /\ m <= AllocatableMemory dev) /\
  ((util.AddUsedResources dev c m).1 = None ->
   AllocatableCores (util.AddUsedResources dev c m).2 = AllocatableCores dev - c /\
   AllocatableMemory (util.AddUsedResources dev c m).2 = AllocatableMemory dev - m).
Proof.
  intros [Hwc Hwm] Ht Hc Hm Hcw Hmw.
  assert (AllocatableCores dev = HundredCore - util.usedCore dev) as Hac.
  { unfold AllocatableCores. apply usub_exact; [done|]. unfold HundredCore. pow2. lia. }
  assert (AllocatableMemory dev = util.totalMemory dev - util.usedMemory dev) as Ham.
  { unfold AllocatableMemory. by apply usub_exact. }
  assert ((util.AddUsedResources dev c m).1 = None <->
          c <= AllocatableCores dev /\ m <= AllocatableMemory dev) as Hiff.
  { rewrite Hac, Ham.
    pose proof (AddUsedResources_fails_iff_exact dev c m Hc Hm
                  ltac:(lia) ltac:(lia) Hcw Hmw) as Hf.
    destruct ((util.AddUsedResources dev c m).1) as [e|] eqn:E.
    - split; [done|]. intros [? ?].
      assert (is_Some (Some e)) as Hs by eauto. apply Hf in Hs. lia.
    - split; [|done]. intros _.
      destruct (Z.le_gt_cases c (HundredCore - util.usedCore dev));
      destruct (Z.le_gt_cases m (util.totalMemory dev - util.usedMemory dev));
        try done.
      all: assert (is_Some (@None error)) as [? [=]]; apply Hf; lia. }
  split; [done|].
  intros Hok. destruct (AddUsedResources_success dev c m Hok) as [Huc Hum].
  destruct (AddUsedResources_static dev c m) as [_ Htm].
  apply Hiff in Hok as [Hfc Hfm]. rewrite Hac in Hfc. rewrite Ham in Hfm.
  unfold AllocatableCores, AllocatableMemory. rewrite Huc, Hum, Htm.
  rewrite !uadd_exact by lia.
  rewrite !usub_exact by (unfold HundredCore in *; pow2; lia).
  lia.
Qed.

(** The device that share mode picks, against the other devices of
    the node. *)
Lemma shareMode_picks_least (n : NodeInfo) (c : Container) (ds : list DeviceInfo)
    (n' : NodeInfo) :
  wfNode n ->
  GetGPUResourceOfContainer c VCoreAnnotation < HundredCore ->
  AllocateOne n c = Done (Ok ds, n') ->
  exists d,
    ds = [d] /\ GetDeviceMap n !! GetID d = Some d /\
    fits (GetGPUResourceOfContainer c VCoreAnnotation)
         (GetGPUResourceOfContainer c VMemoryAnnotation) d /\
    forall i d',
      GetDeviceMap n !! i = Some d' -> 0 <= i < GetDeviceCount n ->
      fits (GetGPUResourceOfContainer c VCoreAnnotation)
           (GetGPUResourceOfContainer c VMemoryAnnotation) d' ->
      AllocatableCores d < AllocatableCores d' \/
      (AllocatableCores d = AllocatableCores d' /\
       (AllocatableMemory d < AllocatableMemory d' \/
        (AllocatableMemory d = AllocatableMemory d' /\ GetID d <= GetID d'))).
Proof.
  intros Hwf Hshare Hrun.
  destruct (tmpStore_wf n Hwf) as (store & Hstore).
  pose proof Hstore as (Htmp & Hids & Hall).
  rewrite (AllocateOne_unfold n c Hwf) in Hrun. cbv zeta in Hrun.
  destruct (Z.ltb_spec (GetGPUResourceOfContainer c VCoreAnnotation) HundredCore);
    [|lia].
  unfold shareMode.Evaluate in Hrun. rewrite Htmp in Hrun.
  cbn [mbind exec_mbind exec_bind] in Hrun.
  destruct (pickShare_first (GetGPUResourceOfContainer c VCoreAnnotation)
              (GetGPUResourceOfContainer c VMemoryAnnotation) (Sort priority store))
    as [(pre & d & post & Hsplit & Hpre & Hfit & Hpick)|[_ Hpick]];
    rewrite Hpick in Hrun; [|done].
  cbn in Hrun.
  assert (ds = [d]) as ->.
  { destruct (AddUsedResources n (GetID d) _ _) as [[[e|] n1]|];
      cbn in Hrun; congruence. }
  assert (d ∈ store) as Hd.
  { rewrite <- (Sort_Permutation priority store), Hsplit.
    rewrite elem_of_app, elem_of_cons. auto. }
  exists d. split; [done|].
  split. { rewrite Forall_forall in Hall. by apply Hall. }
  split; [done|].
  intros i d' Hlk Hi Hfit'.
  assert (d' ∈ Sort priority store) as Hd'.
  { rewrite (Sort_Permutation priority store).
    assert (i ∈ GetID <$> store) as Hin.
    { rewrite Hids. apply elem_of_seqZ. unfold GetDeviceCount in Hi. lia. }
    apply list_elem_of_fmap in Hin as (x & -> & Hx).
    rewrite Forall_forall in Hall. destruct (Hall x Hx) as (Hlx & _).
    unfold GetDeviceMap in Hlk. rewrite Hlx in Hlk. by injection Hlk as <-. }
  pose proof (Sort_dev_sorted store) as Hsorted. rewrite Hsplit in Hsorted, Hd'.
  apply elem_of_app in Hd' as [Hin|Hin].
  { rewrite Forall_forall in Hpre. by destruct (Hpre d' Hin). }
  apply elem_of_cons in Hin as [->|Hin]; [lia|].
  apply StronglySorted_app_1_r in Hsorted.
  apply StronglySorted_inv in Hsorted as [_ Hle].
  rewrite Forall_forall in Hle. specialize (Hle d' Hin).
  apply notAfter_dev in Hle. unfold devBefore in Hle. lia.
Qed.

(** X15. Share mode is a best fit: when AllocateOne succeeds for a request
    below 100 cores, the device it returns has the least allocatable cores
    among all devices of the node that can hold the request; among those
    with the same cores, the least allocatable memory; among those, the
    lowest id. *)
Theorem shareMode_best_fit (n : NodeInfo) (c : Container) (ds : list DeviceInfo)
    (n' : NodeInfo) :
  wfNode n ->
  GetGPUResourceOfContainer c VCoreAnnotation < HundredCore ->
  AllocateOne n c = Done (Ok ds, n') ->
  exists d,
    ds = [d] /\ GetDeviceMap n !! GetID d = Some d /\
    fits (GetGPUResourceOfContainer c VCoreAnnotation)
         (GetGPUResourceOfContainer c VMemoryAnnotation) d /\
    forall i d',
      GetDeviceMap n !! i = Some d' -> 0 <= i < GetDeviceCount n ->
      fits (GetGPUResourceOfContainer c VCoreAnnotation)
           (GetGPUResourceOfContainer c VMemoryAnnotation) d' ->
      AllocatableCores d < AllocatableCores d' \/
      (AllocatableCores d = AllocatableCores d' /\
       (AllocatableMemory d < AllocatableMemory d' \/
        (AllocatableMemory d = AllocatableMemory d' /\ GetID d <= GetID d'))).
Proof. apply shareMode_picks_least. Qed.

(** The devices that exclusive mode picks. *)
Lemma exclusiveMode_picks_floor (n : NodeInfo) (c : Container)
    (ds : list DeviceInfo) (n' : NodeInfo) :
  wfNode n ->
  HundredCore <= GetGPUResourceOfContainer c VCoreAnnotation ->
  AllocateOne n c = Done (Ok ds, n') ->
  Z.of_nat (length ds) = GetGPUResourceOfContainer c VCoreAnnotation `div` HundredCore /\
  NoDup (GetID <$> ds) /\
  Forall (fun d => GetDeviceMap n !! GetID d = Some d /\
                   AllocatableCores d = HundredCore) ds.
Proof.
  intros Hwf Hcores Hrun.
  pose proof (GetGPUResourceOfContainer_uint c VCoreAnnotation) as Hu.
  destruct (tmpStore_wf n Hwf) as (store & Hstore).
  pose proof Hstore as (Htmp & Hids & Hall).
  rewrite (AllocateOne_unfold n c Hwf) in Hrun. cbv zeta in Hrun.
  destruct (Z.ltb_spec (GetGPUResourceOfContainer c VCoreAnnotation) HundredCore);
    [lia|].
  unfold exclusiveMode.Evaluate in Hrun. rewrite Htmp in Hrun.
  cbn [mbind exec_mbind exec_bind] in Hrun.
  set (num := GetGPUResourceOfContainer c VCoreAnnotation `div` HundredCore) in *.
  assert (0 < num < 2 ^ 63) as Hnum.
  { subst num. unfold HundredCore in *. split.
    - apply Z.div_str_pos. lia.
    - apply Z.div_lt_upper_bound; [lia|]. pow2. lia. }
  rewrite (to_int_id num) in Hrun by (pow2; lia).
  rewrite pickExclusive_spec in Hrun by lia.
  set (free := filter isFree (Sort priority store)) in *.
  destruct (Z.ltb_spec (Z.of_nat (length free)) num) as [Hfew|Henough].
  { destruct (Z.ltb_spec 0 (num - Z.of_nat (length free))); [|lia].
    cbn in Hrun. done. }
  simpl in Hrun. cbn [mbind exec_mbind exec_bind] in Hrun.
  destruct (length (take (Z.to_nat num) free) =? 0)%nat; [done|].
  unfold mbind, exec_mbind in Hrun.
  destruct (chargeAll n _ _ (take (Z.to_nat num) free)) as [[[e|] n1]|];
    cbn in Hrun; try done.
  injection Hrun as <- <-.
  assert (take (Z.to_nat num) free `sublist_of` Sort priority store) as Hsub.
  { etrans; [apply sublist_take|]. apply sublist_filter. }
  split; [rewrite length_take; lia|]. split.
  - eapply sublist_NoDup; [|by apply fmap_sublist].
    rewrite (Sort_Permutation priority store). by eapply storeOf_NoDup.
  - apply Forall_forall. intros d Hd.
    assert (d ∈ free) as Hfree.
    { eapply elem_of_sublist; [exact Hd|]. apply sublist_take. }
    apply list_elem_of_filter in Hfree as [Hisfree Hin].
    rewrite (Sort_Permutation priority store) in Hin.
    rewrite Forall_forall in Hall. destruct (Hall d Hin) as (Hlk & _).
    split; done.
Qed.

(** X16. A request for 100 cores or more is served in whole devices and
    rounded down: when AllocateOne succeeds it returns exactly
    cores div 100 devices, all different, each of them completely free in
    the view before the call; the cores beyond the last full hundred are
    not reserved anywhere. *)
Theorem exclusiveMode_rounds_down (n : NodeInfo) (c : Container)
    (ds : list DeviceInfo) (n' : NodeInfo) :
  wfNode n ->
  HundredCore <= GetGPUResourceOfContainer c VCoreAnnotation ->
  AllocateOne n c = Done (Ok ds, n') ->
  Z.of_nat (length ds) = GetGPUResourceOfContainer c VCoreAnnotation `div` HundredCore /\
  NoDup (GetID <$> ds) /\
  Forall (fun d => GetDeviceMap n !! GetID d = Some d /\
                   AllocatableCores d = HundredCore) ds.
Proof. apply exclusiveMode_picks_floor. Qed.

End RequestProps.

(** ** The comparators as orders *)
Module ComparatorProps.
Import util device OrderSpec OrderProps.

(** X17. On devices, Less over (ByAllocatableCores, ByAllocatableMemory,
    ByID) is a strict order as [sort.Sort] needs it: irreflexive,
    asymmetric and transitive; and it leaves two devices unordered only
    when they agree on allocatable cores, allocatable memory and id. *)
Theorem Less_devices_strict_order :
  (forall x : DeviceInfo, Less priority x x = false) /\
  (forall x y : DeviceInfo, Less priority x y = true -> Less priority y x = false) /\
  (forall x y z : DeviceInfo,
      Less priority x y = true -> Less priority y z = true ->
      Less priority x z = true) /\
  (forall x y : DeviceInfo,
      Less priority x y = false -> Less priority y x = false ->
      AllocatableCores x = AllocatableCores y /\
      AllocatableMemory x = AllocatableMemory y /\ GetID x = GetID y).
Proof.
  assert (forall x y : DeviceInfo, Less priority x y = false <-> ~ devBefore x y) as Hf.
  { intros x y. rewrite <- Less_devBefore. by destruct (Less priority x y). }
  split; [|split; [|split]].
  - intros x. apply Hf. unfold devBefore. lia.
  - intros x y Hxy%Less_devBefore. apply Hf. unfold devBefore in *. lia.
  - intros x y z Hxy%Less_devBefore Hyz%Less_devBefore. apply Less_devBefore.
    unfold devBefore in *. lia.
  - intros x y Hxy%Hf Hyx%Hf. unfold devBefore in *. lia.
Qed.

(** X18. On node views, Less compares the available cores, then the
    available memory, then the names byte by byte: it is irreflexive,
    asymmetric and transitive, and it leaves two views unordered only when
    they agree on available cores, available memory and name. *)
Theorem Less_nodes_strict_order :
  (forall x : NodeInfo, Less priority x x = false) /\
  (forall x y : NodeInfo, Less priority x y = true -> Less priority y x = false) /\
  (forall x y z : NodeInfo,
      Less priority x y = true -> Less priority y z = true ->
      Less priority x z = true) /\
  (forall x y : NodeInfo,
      Less priority x y = false -> Less priority y x = false ->
      GetAvailableCore x = GetAvailableCore y /\
      GetAvailableMemory x = GetAvailableMemory y /\ GetName x = GetName y).
Proof.
  assert (forall x y : NodeInfo, Less priority x y = false <-> nodeKeyLe y x) as Hf.
  { intros x y. apply notAfter_node. }
  assert (forall x y : NodeInfo, Less priority x y = true <-> ~ nodeKeyLe y x) as Ht.
  { intros x y. rewrite <- Hf. by destruct (Less priority x y). }
  assert (forall s : string, String.le s s) as Hrefl by (intros; reflexivity).
  assert (forall s1 s2 s3 : string, String.le s1 s2 -> String.le s2 s3 -> String.le s1 s3)
    as Htrans by (intros; by etrans).
  assert (forall s1 s2 : string, String.le s1 s2 \/ String.le s2 s1) as Htotal
    by (intros; apply (total String.le)).
  assert (forall s1 s2 : string, String.le s1 s2 -> String.le s2 s1 -> s1 = s2) as Hanti
    by (intros; by apply (anti_symm String.le)).
  assert (forall x y : NodeInfo, nodeKeyLe x y \/ nodeKeyLe y x) as Hlin.
  { intros x y. unfold nodeKeyLe.
    destruct (Htotal (GetName x) (GetName y));
    destruct (Z.lt_total (GetAvailableCore x) (GetAvailableCore y)) as [?|[?|?]];
    destruct (Z.lt_total (GetAvailableMemory x) (GetAvailableMemory y)) as [?|[?|?]];
      first [left; by intuition lia | right; by intuition lia]. }
  assert (forall x y z : NodeInfo, nodeKeyLe x y -> nodeKeyLe y z -> nodeKeyLe x z)
    as Hle_trans.
  { intros x y z. unfold nodeKeyLe. intros Hxy Hyz.
    pose proof (Htrans (GetName x) (GetName y) (GetName z)). intuition lia. }
  split; [|split; [|split]].
  - intros x. apply Hf. by destruct (Hlin x x).
  - intros x y Hxy%Ht. apply Hf. by destruct (Hlin x y).
  - intros x y z Hxy%Ht Hyz%Ht. apply Ht. intros Hzx.
    destruct (Hlin y z) as [Hyz'|Hzy]; [|done].
    apply Hxy. by apply (Hle_trans y z x).
  - intros x y Hxy%Hf Hyx%Hf. unfold nodeKeyLe in *.
    pose proof (Hanti (GetName x) (GetName y)). intuition lia.
Qed.

End ComparatorProps.

(** ** The index annotations of an allocated pod *)
Module AnnotationProps.
Import util device algorithm kube DeviceSpec NodeInfoSpec AllocatorSpec FilterSpec CodecSpec.
Import NodeInfoProps AllocatorProps CodecProps FilterProps AllocateProps RequestProps.

Lemma allocateContainers_each ics : forall n ann ann' n',
  wfNode n -> NoDup ics.*1 ->
  allocateContainers n ann ics = Done (Ok ann', n') ->
  forall i c, (i, c) ∈ ics ->
    if IsGPURequiredContainer c
    then exists n0 ds n1,
           wfNode n0 /\ deviceCount n0 = deviceCount n /\
           AllocateOne n0 c = Done (Ok ds, n1) /\
           ann' !! idxKey i = Some (JoinComma ((fun dev => Itoa (GetID dev)) <$> ds))
    else ann' !! idxKey i = ann !! idxKey i.
Proof.
  induction ics as [|[j c0] ics IH]; intros n ann ann' n' Hwf Hnd Hrun i c Hin.
  { by apply elem_of_nil in Hin. }
  simpl in Hnd. apply NoDup_cons in Hnd as [Hj Hnd].
  assert (forall a1 n1, allocateContainers n1 a1 ics = Done (Ok ann', n') ->
                        ann' !! idxKey j = a1 !! idxKey j) as Hkeep.
  { intros a1 n1 Hr. apply allocateContainers_frame in Hr as [_ Ha].
    apply (Ha ann' eq_refl). intros k Hk Heq. apply idxKey_inj in Heq. by subst. }
  simpl in Hrun.
  destruct (IsGPURequiredContainer c0) eqn:Ereq; simpl in Hrun.
  - unfold mbind, exec_mbind in Hrun.
    destruct (AllocateOne n c0) as [[r n1]|] eqn:E; [|done]. cbn in Hrun.
    destruct r as [ds|e]; [|done].
    destruct (AllocateOne_ok n c0 ds n1 Hwf E) as (_ & _ & _ & Hwf1).
    destruct (AllocateOne_frame _ _ _ _ E) as (_ & _ & Hcnt).
    apply elem_of_cons in Hin as [[= -> ->]|Hin].
    + rewrite Ereq. exists n, ds, n1. split; [done|]. split; [done|]. split; [done|].
      rewrite (Hkeep _ _ Hrun). by rewrite lookup_insert_eq.
    + specialize (IH n1 _ ann' n' Hwf1 Hnd Hrun i c Hin).
      destruct (IsGPURequiredContainer c).
      * destruct IH as (n0 & ds' & n2 & ? & ? & ? & ?).
        exists n0, ds', n2. split; [done|]. split; [congruence|done].
      * rewrite IH. apply lookup_insert_ne. intros Heq%idxKey_inj. subst.
        apply Hj. by apply (list_elem_of_fmap_2 fst _ (i, c)).
  - apply elem_of_cons in Hin as [[= -> ->]|Hin].
    + rewrite Ereq. by apply (Hkeep _ n).
    + by apply (IH n ann ann' n').
Qed.

(** X19. In the pod that Allocate returns for a pod that was not predicated
    before, the index annotation of every container that asks for GPU reads
    as a list of device indices that is not empty, has no repetition and
    stays below the device count of the view: one index for a request
    below 100 cores, cores div 100 indices otherwise. A container that does
    not ask for GPU has no readable index annotation. *)
Theorem Allocate_index_annotations (now : Z) (n : NodeInfo) (pod pod' : Pod)
    (n' : NodeInfo) :
  wfNode n ->
  predicated pod = false ->
  Allocate now n pod = Done (Ok pod', n') ->
  forall i c, (i, c) ∈ indexed (podContainers pod) ->
    if IsGPURequiredContainer c
    then exists ids,
           GetPredicateIdxOfContainer pod' i = (ids, None) /\
           ids <> [] /\ NoDup ids /\
           Forall (fun id => 0 <= id < GetDeviceCount n) ids /\
           Z.of_nat (length ids)
           = if GetGPUResourceOfContainer c VCoreAnnotation <? HundredCore then 1
             else GetGPUResourceOfContainer c VCoreAnnotation `div` HundredCore
    else exists e, GetPredicateIdxOfContainer pod' i = ([], Some e).
Proof.
  intros Hwf Hfresh (ann & Hloop & ->)%Allocate_ok i c Hin.
  pose proof (allocateContainers_each _ _ _ _ _ Hwf (indexed_NoDup _) Hloop i c Hin)
    as Heach.
  assert (podAnnotations pod !! idxKey i = None) as Hnone.
  { destruct (podAnnotations pod !! idxKey i) as [v|] eqn:E; [|done].
    assert (predicated pod = true) as Hp; [|congruence].
    apply predicated_spec. exists (idxKey i), v. split; [done|].
    apply idxKey_predicateKey. }
  destruct (IsGPURequiredContainer c).
  - destruct Heach as (n0 & ds & n1 & Hwf0 & Hcnt & Hone & Hlk).
    destruct (AllocateOne_ok n0 c ds n1 Hwf0 Hone) as (Hne & Hids & _ & _).
    assert (deviceCount n0 < 2 ^ 63) as Hc63.
    { destruct Hwf0 as (_ & <- & _). apply count_int. }
    exists (GetID <$> ds). split.
    { apply (GetPredicateIdx_written _ i ds (deviceCount n0)); [done|done|done|].
      simpl. by rewrite closing_lookup_idx. }
    split; [by destruct ds|].
    assert (NoDup (GetID <$> ds) /\
            Z.of_nat (length ds)
            = if GetGPUResourceOfContainer c VCoreAnnotation <? HundredCore then 1
              else GetGPUResourceOfContainer c VCoreAnnotation `div` HundredCore)
      as [Hnd Hlen].
    { destruct (Z.ltb_spec (GetGPUResourceOfContainer c VCoreAnnotation) HundredCore)
        as [Hlt|Hge].
      - destruct (shareMode_picks_least n0 c ds n1 Hwf0 Hlt Hone) as (d & -> & _).
        split; [apply NoDup_singleton|done].
      - by destruct (exclusiveMode_picks_floor n0 c ds n1 Hwf0 Hge Hone) as (? & ? & _). }
    split; [done|]. split.
    + apply Forall_fmap. unfold GetDeviceCount. rewrite <- Hcnt.
      eapply Forall_impl; [exact Hids|]. done.
    + by rewrite length_fmap.
  - unfold GetPredicateIdxOfContainer. fold (idxKey i). simpl.
    rewrite closing_lookup_idx, Heach, Hnone. eauto.
Qed.

End AnnotationProps.

(** ** The prioritizer and the flag names *)
Module PrioritizeProps.
Import util prioritize.

Lemma Handler_foldl (nodes : list Node) : forall acc,
  foldl (fun priorityList node =>
           priorityList ++ [ {| Host := nodeName node;
                                Score := if IsGPUEnabledNode node then 0 else 1 |} ])
        acc nodes
  = acc ++ ((fun node => {| Host := nodeName node;
                            Score := if IsGPUEnabledNode node then 0 else 1 |})
              <$> nodes).
Proof.
  induction nodes as [|nd nodes IH]; intros acc; simpl.
  - by rewrite app_nil_r.
  - rewrite IH, <- app_assoc. done.
Qed.

(** X20. CPUNodeFirst.Handler never fails and returns one entry per node, in
    the order of the request and under the node's name; the score is 0 for
    a node with a positive vcuda-core capacity and 1 for every other node,
    so a node without GPU always outranks a GPU node. *)
Theorem Handler_scores (nodes : list Node) :
  (Handler nodes).2 = None /\
  Host <$> (Handler nodes).1 = nodeName <$> nodes /\
  Forall2 (fun node p =>
             Score p = if 0 <? GetCapacityOfNode node VCoreAnnotation then 0 else 1)
          nodes (Handler nodes).1 /\
  (forall i j cpu gpu pc pg,
      nodes !! i = Some cpu -> nodes !! j = Some gpu ->
      IsGPUEnabledNode cpu = false -> IsGPUEnabledNode gpu = true ->
      (Handler nodes).1 !! i = Some pc -> (Handler nodes).1 !! j = Some pg ->
      Score pg < Score pc).
Proof.
  unfold Handler. simpl. rewrite Handler_foldl. simpl.
  split; [done|]. split.
  { rewrite <- list_fmap_compose. by apply list_fmap_ext. }
  split.
  { apply Forall2_fmap_r, Forall_Forall2_diag, Forall_forall. by intros nd _. }
  intros i j cpu gpu pc pg Hi Hj Hcpu Hgpu.
  rewrite !list_lookup_fmap, Hi, Hj. simpl. intros [= <-] [= <-]. simpl.
  rewrite Hcpu, Hgpu. lia.
Qed.

End PrioritizeProps.

Module FlagProps.
Import main.

Lemma prefix_underscore (c : ascii) (s : string) :
  String.prefix "_" (String c s) = Ascii.eqb c "_".
Proof.
  change (String.prefix "_" (String c s))
    with (if ascii_dec "_" c then String.prefix "" s else false).
  destruct (ascii_dec "_" c) as [<-|Hne]; [by destruct s|].
  symmetry. apply Ascii.eqb_neq. congruence.
Qed.

Lemma Contains_underscore (s : string) :
  Contains s "_" = false <-> ReplaceByte s "_" "-" = s.
Proof.
  induction s as [|c s IH]; [done|].
  cbn [Contains ReplaceByte]. rewrite prefix_underscore.
  destruct (Ascii.eqb_spec c "_") as [->|Hne]; simpl.
  - split; [done|]. intros [=].
  - rewrite IH. split; [by intros ->|by intros [= ->]].
Qed.

Lemma ReplaceByte_clean (s : string) : Contains (ReplaceByte s "_" "-") "_" = false.
Proof.
  induction s as [|c s IH]; [done|].
  cbn [Contains ReplaceByte]. rewrite prefix_underscore, IH, orb_false_r.
  by destruct (Ascii.eqb_spec c "_") as [->|Hne%Ascii.eqb_neq].
Qed.

(** X21. wordSepNormalizeFunc returns a name of the same length without any
    underscore; a name without underscore is returned as it is, so the
    function is idempotent; and every byte other than an underscore stays
    in its place. *)
Theorem wordSepNormalizeFunc_normal (name : string) :
  Contains (wordSepNormalizeFunc name) "_" = false /\
  String.length (wordSepNormalizeFunc name) = String.length name /\
  (Contains name "_" = false -> wordSepNormalizeFunc name = name) /\
  wordSepNormalizeFunc (wordSepNormalizeFunc name) = wordSepNormalizeFunc name /\
  (forall i, String.get i (wordSepNormalizeFunc name)
             = (fun c => if Ascii.eqb c "_" then "-"%char else c) <$> String.get i name).
Proof.
  assert (wordSepNormalizeFunc name = ReplaceByte name "_" "-") as Hw.
  { unfold wordSepNormalizeFunc. destruct (Contains name "_") eqn:E; [done|].
    symmetry. by apply Contains_underscore. }
  assert (forall s, Contains s "_" = false -> wordSepNormalizeFunc s = s) as Hid.
  { intros s Hs. unfold wordSepNormalizeFunc. by rewrite Hs. }
  split; [rewrite Hw; apply ReplaceByte_clean|].
  split. { rewrite Hw. clear. induction name as [|c s IH]; simpl; congruence. }
  split; [by apply Hid|].
  split. { apply Hid. rewrite Hw. apply ReplaceByte_clean. }
  rewrite Hw. clear. induction name as [|c s IH]; intros i; [done|].
  destruct i as [|i]; simpl; [done|]. apply IH.
Qed.

End FlagProps.

(** ** The filter as a whole *)
Module PipelineProps.
Import util device algorithm kube DeviceSpec NodeInfoSpec AllocatorSpec FilterSpec.
Import NodeInfoProps OrderProps AllocatorProps FilterProps QuotaProps.

(** *** The annotation write-back *)

Lemma pollTicks_count cluster : forall budget s,
  (s <= (pollTicks cluster budget s).2 <= s + budget)%nat /\
  (forall i, (s <= i)%nat -> (S i < (pollTicks cluster budget s).2)%nat ->
             retryable (patchReply cluster i)) /\
  match (pollTicks cluster budget s).1 with
  | None =>
      (s < (pollTicks cluster budget s).2)%nat /\
      patchReply cluster ((pollTicks cluster budget s).2 - 1) = None
  | Some (ConditionError e) =>
      (s < (pollTicks cluster budget s).2)%nat /\
      patchReply cluster ((pollTicks cluster budget s).2 - 1) = Some e /\
      ShouldRetry e = false
  | Some ErrWaitTimeout =>
      (pollTicks cluster budget s).2 = (s + budget)%nat /\
      forall i, (s <= i < s + budget)%nat -> retryable (patchReply cluster i)
  end.
Proof.
  induction budget as [|budget IH]; intros s; simpl.
  - split; [lia|]. split; [intros; lia|]. split; [lia|]. intros; lia.
  - destruct (patchReply cluster s) as [e|] eqn:E; simpl.
    2:{ split; [lia|]. split; [intros; lia|]. split; [lia|].
        by rewrite Nat.sub_0_r. }
    destruct (ShouldRetry e) eqn:Er; simpl.
    2:{ split; [lia|]. split; [intros; lia|]. split; [lia|].
        by rewrite Nat.sub_0_r. }
    destruct (IH (S s)) as (Hrange & Hretry & Hlast).
    split; [lia|]. split.
    { intros i Hi Hlt. destruct (decide (i = s)) as [->|Hne].
      - exists e. by rewrite E.
      - apply Hretry; [lia|done]. }
    destruct ((pollTicks cluster budget (S s)).1) as [[e'|]|].
    + destruct Hlast as (? & ? & ?). split; [lia|done].
    + destruct Hlast as [Heq Hall]. split; [lia|].
      intros i Hi. destruct (decide (i = s)) as [->|Hne].
      * exists e. by rewrite E.
      * apply Hall. lia.
    + destruct Hlast as [? ?]. split; [lia|done].
Qed.

(** X22. patchPodWithAnnotations sends at least one Patch request and at
    most two more than the poller delivers ticks (the immediate one, one
    per tick, and the one made when the poller has closed); every request
    but the last was answered with Conflict or ServerTimeout; the call
    succeeds exactly when the last request did; and it fails either on an
    answer that is not retried or when all ticks + 2 requests were
    answered with Conflict or ServerTimeout. *)
Theorem patch_request_count (cluster : Cluster) (ticks : nat) (pod : Pod)
    (annotationMap : gmap string string) (s : nat) :
  let r := patchPodWithAnnotations cluster ticks pod annotationMap s in
  (s < r.2 <= s + ticks + 2)%nat /\
  (forall i, (s <= i)%nat -> (S i < r.2)%nat -> retryable (patchReply cluster i)) /\
  (r.1 = None <-> patchReply cluster (r.2 - 1) = None) /\
  (is_Some r.1 ->
   (exists e, patchReply cluster (r.2 - 1) = Some e /\ ShouldRetry e = false) \/
   (r.2 = (s + ticks + 2)%nat /\ retryable (patchReply cluster (r.2 - 1)))).
Proof.
  unfold patchPodWithAnnotations, PollImmediate.
  destruct (pollTicks_count cluster (S (S ticks)) s) as (Hrange & Hretry & Hlast).
  destruct (pollTicks cluster (S (S ticks)) s) as [[[e|]|] s'] eqn:E; simpl in *.
  - destruct Hlast as (Hlt & Hrep & Hno).
    split; [lia|]. split; [done|]. split.
    + split; [done|]. rewrite Hrep. done.
    + intros _. left. eauto.
  - destruct Hlast as (-> & Hall).
    assert (retryable (patchReply cluster (s + S (S ticks) - 1))) as Hr
      by (apply Hall; lia).
    split; [lia|]. split; [done|]. split.
    + split; [done|]. intros Hn. destruct Hr as (e & He & _). congruence.
    + intros _. right. split; [lia|done].
  - destruct Hlast as (Hlt & Hrep).
    split; [lia|]. split; [done|]. split; [done|]. by intros [? [=]].
Qed.

(** *** Only nodes of the request are returned *)

Lemma collectNodeInfos_nodes cluster nodes : forall failed acc failed' acc',
  collectNodeInfos cluster nodes failed acc = Done (failed', acc') ->
  exists views, acc' = acc ++ views /\ Forall (fun v => GetNode v ∈ nodes) views.
Proof.
  induction nodes as [|nd nodes IH]; intros failed acc failed' acc'; simpl.
  - intros [= _ <-]. exists []. by rewrite app_nil_r.
  - assert (forall views, Forall (fun v => GetNode v ∈ nodes) views ->
                          Forall (fun v => GetNode v ∈ nd :: nodes) views) as Hweak.
    { intros views H. eapply Forall_impl; [exact H|]. intros v Hv. by right. }
    destruct (IsGPUEnabledNode nd) eqn:Egpu; simpl.
    2:{ intros (views & -> & Hv)%IH. exists views. split; [done|]. by apply Hweak. }
    destruct (ListPodsOnNode cluster nd) as [pods|e].
    2:{ intros (views & -> & Hv)%IH. exists views. split; [done|]. by apply Hweak. }
    unfold mbind, exec_mbind.
    destruct (NewNodeInfo nd pods) as [ni|] eqn:Enew; [|done]. cbn.
    destruct (NewNodeInfo_wf nd pods ni Egpu Enew) as [_ Hnode].
    intros (views & -> & Hv)%IH. exists (ni :: views).
    split; [by rewrite <- app_assoc|]. constructor; [|by apply Hweak].
    unfold GetNode. rewrite Hnode. by left.
Qed.

Lemma deviceFilterNodes_sound cluster ticks now pod nodes s w :
  deviceFilterNodes cluster ticks now pod nodes s = Done w ->
  filteredNodes w ⊆ nodes /\ (length (filteredNodes w) <= 1)%nat.
Proof.
  unfold deviceFilterNodes, mbind, exec_mbind.
  destruct (collectNodeInfos cluster nodes ∅ []) as [[failed views]|] eqn:Ec; [|done].
  cbn. apply collectNodeInfos_nodes in Ec as (views' & -> & Hviews). simpl in *.
  intros Hwalk.
  apply (walk_spec cluster ticks now pod) in Hwalk as (_ & Hcases); [|done].
  simpl in Hcases.
  destruct Hcases as [(-> & _)|(pre & x & post & s1 & Hsplit & _ & _ & -> & _)].
  - split; [by intros ? ?%elem_of_nil|simpl; lia].
  - split; [|simpl; lia]. intros nd Hnd%list_elem_of_singleton. subst nd.
    assert (x ∈ views') as Hx.
    { rewrite <- (NodeInfoSort_Permutation views'), Hsplit.
      rewrite elem_of_app, elem_of_cons. auto. }
    rewrite Forall_forall in Hviews. by apply Hviews.
Qed.

Lemma filterNodes_passed conf vk vv nodes gpuModels pools :
  passedNodes (predicate.filterNodes conf vk vv nodes gpuModels pools) ⊆ nodes.
Proof.
  unfold predicate.filterNodes.
  destruct (if negb (length gpuModels =? 0)%nat then _ else _) as [sel1|e];
    [|by intros ? ?%elem_of_nil].
  destruct (if negb (length pools =? 0)%nat then _ else _) as [sel2|e];
    [|by intros ? ?%elem_of_nil].
  pose proof (filterNodesLoop_spec sel1 sel2 nodes [] ∅) as Hspec. cbv zeta in Hspec.
  destruct (predicate.filterNodesLoop sel1 sel2 nodes [] ∅) as [passed failed].
  destruct Hspec as (-> & _). simpl.
  intros nd Hnd. apply list_elem_of_In, filter_In in Hnd as [Hnd _].
  by apply list_elem_of_In.
Qed.

(** X23. Filter returns only nodes of the request: in both revisions, every
    node of the answer is one of the nodes the scheduler passed in, and
    for a pod that asks for GPU the answer holds at most one node. *)
Theorem Filter_returns_request_nodes
    (conf : predicate.GPUFilterConfig) (validateLabelKey validateLabelValue : string -> bool)
    (cluster : Cluster) (ticks : nat) (now : Z)
    (gpuFilter : predicate.GPUFilter) (pod : Pod) (nodes : list Node) (s : nat) :
  (forall r s' l,
      predicate_v1.Filter cluster ticks now pod nodes s = Done (r, s') ->
      Nodes r = Some l ->
      l ⊆ nodes /\ (IsGPURequiredPod pod = true -> (length l <= 1)%nat)) /\
  (forall r s' l,
      predicate.Filter conf validateLabelKey validateLabelValue cluster ticks now
        gpuFilter pod nodes s = Done (r, s') ->
      Nodes r = Some l ->
      l ⊆ nodes /\ (IsGPURequiredPod pod = true -> (length l <= 1)%nat)).
Proof.
  assert (forall nodes' s0 r s',
             predicate_v1.deviceFilter cluster ticks now pod nodes' s0 = Done (r, s') ->
             passedNodes r ⊆ nodes' /\ (length (passedNodes r) <= 1)%nat) as Hv1.
  { intros nodes' s0 r s'. unfold predicate_v1.deviceFilter.
    destruct (predicated pod).
    { intros [= <- _]. simpl. split; [by intros ? ?%elem_of_nil|lia]. }
    unfold mbind, exec_mbind.
    destruct (deviceFilterNodes _ _ _ _ _ _) as [w|] eqn:E; [|done].
    cbn. intros [= <- _]. simpl. by eapply deviceFilterNodes_sound. }
  assert (forall nodes' s0 r s',
             predicate.deviceFilter cluster ticks now pod nodes' s0 = Done (r, s') ->
             passedNodes r ⊆ nodes' /\ (length (passedNodes r) <= 1)%nat) as Hq.
  { intros nodes' s0 r s'. unfold predicate.deviceFilter.
    destruct (predicated pod).
    { intros [= <- _]. simpl. split; [by intros ? ?%elem_of_nil|lia]. }
    unfold mbind, exec_mbind.
    destruct (deviceFilterNodes _ _ _ _ _ _) as [w|] eqn:E; [|done].
    cbn. intros [= <- _]. simpl. by eapply deviceFilterNodes_sound. }
  split.
  - intros r s' l. unfold predicate_v1.Filter.
    destruct (IsGPURequiredPod pod); simpl.
    2:{ intros [= <- _] [= <-]. split; [done|]. intros [=]. }
    unfold mbind, exec_mbind.
    destruct (predicate_v1.deviceFilter _ _ _ _ _ _) as [[r1 s1]|] eqn:E; [|done].
    cbn. apply Hv1 in E as [Hsub Hlen].
    destruct (err r1); intros [= <- _]; simpl; intros [= <-]. done.
  - intros r s' l. unfold predicate.Filter.
    destruct (IsGPURequiredPod pod); simpl.
    2:{ intros [= <- _] [= <-]. split; [done|]. intros [=]. }
    destruct (String.length _ =? 0)%nat; [by intros [= <- _] [=]|].
    simpl. unfold mbind, exec_mbind. cbn.
    assert (passedNodes (predicate.quotaFilter conf validateLabelKey validateLabelValue
                           cluster gpuFilter pod nodes) ⊆ nodes) as Hquota.
    { unfold predicate.quotaFilter.
      destruct (predicate.getQuotaForNamespace _ _) as [nq|]; [|done].
      destruct (predicate.filterGPUModel _ _ _ _ _ _) as [models|e];
        [apply filterNodes_passed|by intros ? ?%elem_of_nil]. }
    destruct (err (predicate.quotaFilter _ _ _ _ _ _ _)); [by intros [= <- _] [=]|].
    destruct (predicate.deviceFilter _ _ _ _ _ _) as [[r1 s1]|] eqn:E; [|done].
    cbn. apply Hq in E as [Hsub Hlen].
    destruct (err r1); intros [= <- _]; simpl; intros [= <-].
    split; [|done]. by etrans.
Qed.

(** *** The quota does not see unbound pods *)

Lemma filter_implied {A} (f g : A -> bool) (l : list A) :
  (forall x, f x = true -> g x = true) ->
  List.filter f (List.filter g l) = List.filter f l.
Proof.
  intros Hfg. induction l as [|x l IH]; [done|]. simpl.
  destruct (g x) eqn:Eg; simpl.
  - destruct (f x); by rewrite IH.
  - destruct (f x) eqn:Ef; [|done]. apply Hfg in Ef. congruence.
Qed.

Lemma filter_filter_implied {A} (f g h : A -> bool) (l : list A) :
  (forall x, f x = true -> g x = true) ->
  List.filter f (List.filter h (List.filter g l)) = List.filter f (List.filter h l).
Proof.
  intros Hfg. induction l as [|x l IH]; [done|]. simpl.
  destruct (g x) eqn:Eg; simpl.
  - destruct (h x); simpl; [|done]. destruct (f x); by rewrite IH.
  - destruct (h x); simpl; [|done]. destruct (f x) eqn:Ef; [|done].
    apply Hfg in Ef. congruence.
Qed.

Lemma listPodsOnNodes_bound (cluster cluster' : Cluster) allNodes allPods sel ns :
  nodeLister cluster = Ok allNodes ->
  Forall (fun nd => nodeName nd <> "") allNodes ->
  podLister cluster = Ok allPods ->
  nodeLister cluster' = Ok allNodes ->
  podLister cluster'
  = Ok (List.filter (fun p => negb (String.eqb (podNodeName p) "")) allPods) ->
  predicate.listPodsOnNodes cluster' sel ns = predicate.listPodsOnNodes cluster sel ns.
Proof.
  intros Hn Hnames Hp Hn' Hp'. unfold predicate.listPodsOnNodes, predicate.Pods.
  rewrite Hn, Hn', Hp, Hp'. f_equal.
  destruct (String.eqb ns ""); [apply filter_implied|apply filter_filter_implied];
    intros p Hin%bool_decide_eq_true;
  apply elem_of_list_to_set, list_elem_of_fmap in Hin as (nd & Heq & Hnd);
  apply list_elem_of_In, filter_In in Hnd as [Hnd%list_elem_of_In _];
  rewrite Forall_forall in Hnames; specialize (Hnames nd Hnd);
  apply negb_true_iff, String.eqb_neq; congruence.
Qed.

Lemma filterGPUModelLoop_bound conf vk vv (cluster cluster' : Cluster) pod entries :
  (forall sel ns, predicate.listPodsOnNodes cluster' sel ns
                  = predicate.listPodsOnNodes cluster sel ns) ->
  forall acc,
    predicate.filterGPUModelLoop conf vk vv cluster' pod entries acc
    = predicate.filterGPUModelLoop conf vk vv cluster pod entries acc.
Proof.
  intros Heq. induction entries as [|[m limit] entries IH]; intros acc; [done|].
  simpl. destruct (predicate.LabelSelectorAsSelector _ _ _ _) as [sel|e]; [|done].
  rewrite Heq. destruct (predicate.listPodsOnNodes cluster sel _) as [pods|e]; [|done].
  apply IH.
Qed.

(** X24. The quota filter counts only pods that are bound to a node: when
    every node has a name, its answer is the same with and without the
    pods whose Spec.NodeName is still empty, among them the pods that the
    device filter accepted a moment ago. *)
Theorem quota_ignores_unbound_pods
    (conf : predicate.GPUFilterConfig) (validateLabelKey validateLabelValue : string -> bool)
    (cluster : Cluster) (gpuFilter : predicate.GPUFilter) (pod : Pod)
    (nodes allNodes : list Node) (allPods : list Pod) :
  nodeLister cluster = Ok allNodes ->
  Forall (fun nd => nodeName nd <> "") allNodes ->
  podLister cluster = Ok allPods ->
  predicate.quotaFilter conf validateLabelKey validateLabelValue cluster
    gpuFilter pod nodes
  = predicate.quotaFilter conf validateLabelKey validateLabelValue
      {| podLister :=
           Ok (List.filter (fun p => negb (String.eqb (podNodeName p) "")) allPods);
         nodeLister := Ok allNodes;
         patchReply := patchReply cluster |}
      gpuFilter pod nodes.
Proof.
  intros Hn Hnames Hp. unfold predicate.quotaFilter.
  destruct (predicate.getQuotaForNamespace gpuFilter (podNamespace pod)) as [nq|]; [|done].
  unfold predicate.filterGPUModel.
  rewrite (filterGPUModelLoop_bound conf validateLabelKey validateLabelValue cluster
             {| podLister :=
                  Ok (List.filter (fun p => negb (String.eqb (podNodeName p) "")) allPods);
                nodeLister := Ok allNodes;
                patchReply := patchReply cluster |}); [done|].
  intros sel ns. by apply (listPodsOnNodes_bound _ _ allNodes allPods).
Qed.

(** *** The order of the candidates *)

(** The first loop of deviceFilter, one node at a time. *)
Lemma collectNodeInfos_cons cluster nd nodes failed acc :
  collectNodeInfos cluster (nd :: nodes) failed acc
  = '(failed1, acc1) ← collectNodeInfos cluster [nd] failed acc;
    collectNodeInfos cluster nodes failed1 acc1.
Proof.
  simpl. destruct (IsGPUEnabledNode nd); simpl; [|done].
  destruct (ListPodsOnNode cluster nd) as [pods|e]; [|done].
  unfold mbind, exec_mbind. by destruct (NewNodeInfo nd pods).
Qed.

(** What one node contributes does not depend on the state of the loop:
    a reason in the failed map, a view at the end of the list, or a
    fault. *)
Lemma collectNodeInfos_one cluster nd :
  (exists reason, forall failed acc,
      collectNodeInfos cluster [nd] failed acc
      = Done (<[nodeName nd := reason]> failed, acc)) \/
  (exists v, GetName v = nodeName nd /\ forall failed acc,
      collectNodeInfos cluster [nd] failed acc = Done (failed, acc ++ [v])) \/
  (exists p, forall failed acc,
      collectNodeInfos cluster [nd] failed acc = Panicked p).
Proof.
  simpl. destruct (IsGPUEnabledNode nd) eqn:Egpu; simpl; [|left; eauto].
  destruct (ListPodsOnNode cluster nd) as [pods|e]; [|left; eauto].
  unfold mbind, exec_mbind.
  destruct (NewNodeInfo nd pods) as [v|p] eqn:Enew; cbn; [|right; right; eauto].
  right; left. exists v. split; [|done].
  destruct (ViewProps.NewNodeInfo_viewInv nd pods v Egpu Enew) as (_ & _ & Hname & _).
  done.
Qed.

Lemma collectNodeInfos_acc cluster nodes : forall failed acc acc' f1 a1,
  acc ≡ₚ acc' ->
  collectNodeInfos cluster nodes failed acc = Done (f1, a1) ->
  exists a2, collectNodeInfos cluster nodes failed acc' = Done (f1, a2) /\ a1 ≡ₚ a2.
Proof.
  induction nodes as [|nd nodes IH]; intros failed acc acc' f1 a1 Hacc.
  - simpl. intros [= <- <-]. eauto.
  - rewrite !(collectNodeInfos_cons cluster nd nodes). unfold mbind, exec_mbind.
    destruct (collectNodeInfos_one cluster nd)
      as [(r & Hone)|[(v & _ & Hone)|(p & Hone)]]; rewrite !Hone; cbn; [| |done].
    + by apply IH.
    + apply IH. by rewrite Hacc.
Qed.

Lemma collectNodeInfos_perm cluster nodes1 nodes2 :
  nodes1 ≡ₚ nodes2 ->
  NoDup (nodeName <$> nodes1) ->
  forall failed acc acc' f1 a1,
    acc ≡ₚ acc' ->
    collectNodeInfos cluster nodes1 failed acc = Done (f1, a1) ->
    exists a2, collectNodeInfos cluster nodes2 failed acc' = Done (f1, a2) /\ a1 ≡ₚ a2.
Proof.
  induction 1 as [|x l1 l2 Hperm IH|x y l|l1 l2 l3 H12 IH12 H23 IH23];
    intros Hnd failed acc acc' f1 a1 Hacc.
  - simpl. intros [= <- <-]. eauto.
  - rewrite fmap_cons in Hnd. apply NoDup_cons in Hnd as [_ Hnd].
    rewrite (collectNodeInfos_cons cluster x l1), (collectNodeInfos_cons cluster x l2).
    unfold mbind, exec_mbind.
    destruct (collectNodeInfos_one cluster x)
      as [(r & Hone)|[(v & _ & Hone)|(p & Hone)]]; rewrite !Hone; cbn; [| |done].
    + by apply IH.
    + apply IH; [done|]. by rewrite Hacc.
  - rewrite !fmap_cons in Hnd. apply NoDup_cons in Hnd as [Hne _].
    assert (nodeName y <> nodeName x) as Hxy.
    { intros Heq. apply Hne. rewrite Heq. by left. }
    rewrite (collectNodeInfos_cons cluster y (x :: l)),
            (collectNodeInfos_cons cluster x (y :: l)).
    unfold mbind, exec_mbind.
    destruct (collectNodeInfos_one cluster x)
      as [(rx & Hx)|[(vx & _ & Hx)|(px & Hx)]];
    destruct (collectNodeInfos_one cluster y)
      as [(ry & Hy)|[(vy & _ & Hy)|(py & Hy)]];
      rewrite ?Hx, ?Hy; cbn [exec_bind];
      rewrite ?(collectNodeInfos_cons cluster x l), ?(collectNodeInfos_cons cluster y l);
      unfold mbind, exec_mbind; rewrite ?Hx, ?Hy; cbn [exec_bind]; try done.
    + rewrite (insert_insert_ne failed) by done. by apply collectNodeInfos_acc.
    + apply collectNodeInfos_acc. by rewrite Hacc.
    + apply collectNodeInfos_acc. by rewrite Hacc.
    + apply collectNodeInfos_acc. rewrite Hacc, <- !app_assoc. simpl.
      apply Permutation_app_head, perm_swap.
  - intros Hrun.
    destruct (IH12 Hnd failed acc acc' f1 a1 Hacc Hrun) as (a2 & Hrun2 & Ha12).
    destruct (IH23 ltac:(by rewrite <- H12) failed acc' acc' f1 a2
                ltac:(done) Hrun2) as (a3 & Hrun3 & Ha23).
    exists a3. split; [done|]. by etrans.
Qed.

Lemma collectNodeInfos_names cluster nodes : forall failed acc f1 a1,
  collectNodeInfos cluster nodes failed acc = Done (f1, a1) ->
  exists views cands,
    a1 = acc ++ views /\ sublist cands nodes /\
    GetName <$> views = nodeName <$> cands.
Proof.
  induction nodes as [|nd nodes IH]; intros failed acc f1 a1.
  - simpl. intros [= _ <-]. exists [], []. by rewrite app_nil_r.
  - rewrite (collectNodeInfos_cons cluster nd nodes). unfold mbind, exec_mbind.
    destruct (collectNodeInfos_one cluster nd)
      as [(r & Hone)|[(v & Hv & Hone)|(p & Hone)]]; rewrite !Hone; cbn; [| |done].
    + intros (views & cands & -> & Hsub & Hnames)%IH.
      exists views, cands. split; [done|]. split; [by apply sublist_cons|done].
    + intros (views & cands & -> & Hsub & Hnames)%IH.
      exists (v :: views), (nd :: cands). split; [by rewrite <- app_assoc|].
      split; [by apply sublist_skip|]. rewrite !fmap_cons. by rewrite Hv, Hnames.
Qed.

Lemma deviceFilterNodes_perm cluster ticks now pod nodes1 nodes2 s w :
  nodes1 ≡ₚ nodes2 ->
  NoDup (nodeName <$> nodes1) ->
  deviceFilterNodes cluster ticks now pod nodes1 s = Done w ->
  deviceFilterNodes cluster ticks now pod nodes2 s = Done w.
Proof.
  intros Hperm Hnd. unfold deviceFilterNodes, mbind, exec_mbind.
  destruct (collectNodeInfos cluster nodes1 ∅ []) as [[f1 v1]|] eqn:E1; [|done].
  destruct (collectNodeInfos_perm cluster nodes1 nodes2 Hperm Hnd ∅ [] [] f1 v1
              ltac:(done) E1) as (v2 & -> & Hv).
  cbn.
  apply collectNodeInfos_names in E1 as (views & cands & -> & Hsub & Hnames).
  simpl in *.
  assert (NodeInfoSort v2 = NodeInfoSort views) as ->; [|done].
  apply NodeInfoSort_unique.
  - rewrite Hnames. eapply sublist_NoDup; [exact Hnd|by apply fmap_sublist].
  - by rewrite NodeInfoSort_Permutation.
  - apply NodeInfoSort_sorted.
Qed.

(** X25. The answer of the device filter does not depend on the order in
    which the scheduler lists the candidates: for two lists with the same
    nodes, all of different names, both revisions return the same accepted
    node, the same failed-nodes map and send the same Patch requests. *)
Theorem deviceFilter_order_independent (cluster : Cluster) (ticks : nat) (now : Z)
    (pod : Pod) (nodes1 nodes2 : list Node) (s : nat) :
  nodes1 ≡ₚ nodes2 ->
  NoDup (nodeName <$> nodes1) ->
  (forall r, predicate_v1.deviceFilter cluster ticks now pod nodes1 s = Done r ->
             predicate_v1.deviceFilter cluster ticks now pod nodes2 s = Done r) /\
  (forall r, predicate.deviceFilter cluster ticks now pod nodes1 s = Done r ->
             predicate.deviceFilter cluster ticks now pod nodes2 s = Done r).
Proof.
  intros Hperm Hnd.
  split; intros r; unfold predicate_v1.deviceFilter, predicate.deviceFilter;
    (destruct (predicated pod); [done|]); unfold mbind, exec_mbind;
    destruct (deviceFilterNodes cluster ticks now pod nodes1 s) as [w|] eqn:E;
    try done;
    by rewrite (deviceFilterNodes_perm _ _ _ _ _ _ _ _ Hperm Hnd E).
Qed.

(** *** Finished pods *)

Lemma forE_ext {S A} (f g : S -> A -> exec S) (l : list A) :
  (forall s a, f s a = g s a) -> forall s, forE f s l = forE g s l.
Proof.
  intros Hfg. induction l as [|a l IH]; intros s; [done|].
  simpl. rewrite Hfg. unfold mbind, exec_mbind. destruct (g s a); [apply IH|done].
Qed.

Lemma pollTicks_replies (cluster cluster' : Cluster) :
  (forall k, patchReply cluster' k = patchReply cluster k) ->
  forall budget s, pollTicks cluster' budget s = pollTicks cluster budget s.
Proof.
  intros Heq. induction budget as [|budget IH]; intros s; [done|].
  simpl. rewrite Heq. destruct (patchReply cluster s) as [e|]; [|done].
  destruct (ShouldRetry e); [apply IH|done].
Qed.

Lemma deviceFilterNodes_listed (cluster cluster' : Cluster) ticks now pod nodes s :
  (forall nd, ListPodsOnNode cluster' nd = ListPodsOnNode cluster nd) ->
  (forall k, patchReply cluster' k = patchReply cluster k) ->
  deviceFilterNodes cluster' ticks now pod nodes s
  = deviceFilterNodes cluster ticks now pod nodes s.
Proof.
  intros Hlist Hreply. unfold deviceFilterNodes.
  assert (forall failed acc,
             collectNodeInfos cluster' nodes failed acc
             = collectNodeInfos cluster nodes failed acc) as ->.
  { induction nodes as [|nd nodes IH]; intros failed acc; [done|].
    simpl. rewrite Hlist. destruct (negb (IsGPUEnabledNode nd)); [apply IH|].
    destruct (ListPodsOnNode cluster nd) as [pods|e]; [|apply IH].
    unfold mbind, exec_mbind. destruct (NewNodeInfo nd pods); [apply IH|done]. }
  unfold mbind, exec_mbind.
  destruct (collectNodeInfos cluster nodes ∅ []) as [[failed views]|]; [|done].
  cbn. apply forE_ext. intros w x. unfold tryNode.
  unfold patchPodWithAnnotations, PollImmediate.
  destruct (success w); [done|]. unfold mbind, exec_mbind.
  destruct (Allocate now x pod) as [[[newPod|e] x']|]; cbn [exec_bind];
    [|done|done].
  by rewrite (pollTicks_replies cluster cluster' Hreply).
Qed.

(** X26. A pod in phase Succeeded or Failed holds no device: the answer of
    the device filter, in both revisions, is the same with and without the
    finished pods among the pods of the lister. *)
Theorem finished_pods_hold_no_device (cluster : Cluster) (ticks : nat) (now : Z)
    (pod : Pod) (nodes : list Node) (s : nat) (allPods : list Pod) :
  podLister cluster = Ok allPods ->
  predicate_v1.deviceFilter
    {| podLister :=
         Ok (List.filter (fun p => negb (bool_decide (podPhase p = PodSucceeded))
                                   && negb (bool_decide (podPhase p = PodFailed)))
                         allPods);
       nodeLister := nodeLister cluster; patchReply := patchReply cluster |}
    ticks now pod nodes s
  = predicate_v1.deviceFilter cluster ticks now pod nodes s /\
  predicate.deviceFilter
    {| podLister :=
         Ok (List.filter (fun p => negb (bool_decide (podPhase p = PodSucceeded))
                                   && negb (bool_decide (podPhase p = PodFailed)))
                         allPods);
       nodeLister := nodeLister cluster; patchReply := patchReply cluster |}
    ticks now pod nodes s
  = predicate.deviceFilter cluster ticks now pod nodes s.
Proof.
  intros Hp.
  set (cluster' := {| podLister := _; nodeLister := _; patchReply := _ |}).
  assert (deviceFilterNodes cluster' ticks now pod nodes s
          = deviceFilterNodes cluster ticks now pod nodes s) as Heq.
  { apply deviceFilterNodes_listed; [|done].
    intros nd. unfold ListPodsOnNode. rewrite Hp. simpl. f_equal.
    apply filter_implied. intros p. unfold onNode.
    intros [[_ H1]%andb_prop H2]%andb_prop. by rewrite H1, H2. }
  unfold predicate_v1.deviceFilter, predicate.deviceFilter. by rewrite Heq.
Qed.

End PipelineProps.

(** ** The properties on the scenario *)
Module FixtureProps.
Import util device algorithm kube DeviceSpec NodeInfoSpec AllocatorSpec FilterSpec.
Import CodecSpec ViewSpec Scenario Fixtures.
Import NodeInfoProps AllocatorProps FilterProps ScenarioProps.
Import CodecProps ViewProps AllocateProps RequestProps ComparatorProps AnnotationProps.
Import PrioritizeProps FlagProps PipelineProps.

(** X1 on the stray pod, whose annotation is "-1". *)
Lemma GetPredicateIdxOfContainer_parses_witness :
  GetPredicateIdxOfContainer strayPod 0 = ([-1], None).
Proof.
  apply (proj2 (GetPredicateIdxOfContainer_parses strayPod 0 [-1])).
  exists "-1". split; vm_compute; reflexivity.
Defined.

(** X2 on pod-2 holding both devices: the annotation "0,1" reads back as the
    devices 0 and 1. *)
Lemma predicate_index_round_trip_witness :
  Forall (fun z => - 2 ^ 63 <= z < 2 ^ 63) [0; 1] /\
  podAnnotations pod2_bound !! idxKey 0 = Some (JoinComma (Itoa <$> [0; 1])) /\
  GetPredicateIdxOfContainer pod2_bound 0 = ([0; 1], None).
Proof.
  assert (Forall (fun z => - 2 ^ 63 <= z < 2 ^ 63) [0; 1]) as Hids
    by (repeat constructor; lia).
  assert (podAnnotations pod2_bound !! idxKey 0 = Some (JoinComma (Itoa <$> [0; 1])))
    as Hlk by (vm_compute; reflexivity).
  split; [exact Hids|]. split; [exact Hlk|].
  exact (predicate_index_round_trip pod2_bound 0 [0; 1] Hids Hlk).
Defined.

(** X3 on testnode0 with pod-0 on it. *)
Lemma NewNodeInfo_view_witness :
  IsGPUEnabledNode (testnode 0) = true /\
  NewNodeInfo (testnode 0) [pod0_bound] = Done view0_after_pod0 /\
  GetName view0_after_pod0 = nodeName (testnode 0) /\
  GetNode view0_after_pod0 = testnode 0 /\
  GetDeviceCount view0_after_pod0
  = GetCapacityOfNode (testnode 0) VCoreAnnotation `div` HundredCore.
Proof.
  split; [reflexivity|]. split; [exact view0_after_pod0_built|].
  destruct (NewNodeInfo_view (testnode 0) [pod0_bound] view0_after_pod0
              eq_refl view0_after_pod0_built) as (Hname & Hnode & Hcount & _).
  split; [exact Hname|]. split; [exact Hnode|exact Hcount].
Defined.

(** X4 on testnode0 with pod-0 on it. *)
Lemma view_accounts_witness :
  IsGPUEnabledNode (testnode 0) = true /\
  0 <= GetCapacityOfNode (testnode 0) VMemoryAnnotation /\
  NewNodeInfo (testnode 0) [pod0_bound] = Done view0_after_pod0 /\
  usedCore view0_after_pod0 = deviceSum util.usedCore view0_after_pod0 /\
  GetAvailableCore view0_after_pod0 = deviceSum AllocatableCores view0_after_pod0.
Proof.
  assert (0 <= GetCapacityOfNode (testnode 0) VMemoryAnnotation) as Hmem
    by (vm_compute; discriminate).
  split; [reflexivity|]. split; [exact Hmem|]. split; [exact view0_after_pod0_built|].
  destruct (view_accounts (testnode 0) [pod0_bound] view0_after_pod0
              eq_refl Hmem view0_after_pod0_built) as (Hc & _ & Hac & _).
  split; [exact Hc|exact Hac].
Defined.

(** X5 on pod-0 as Allocate returns it on the fresh testnode0. *)
Lemma Allocate_annotations_witness :
  Allocate 1 (freshView (testnode 0)) pod0 = Done (Ok pod0_retried, view0_charged) /\
  podAnnotations pod0_retried !! PredicateNode = Some (GetName (freshView (testnode 0))) /\
  podAnnotations pod0_retried !! GPUAssigned = Some "false" /\
  podAnnotations pod0_retried !! PredicateTimeAnnotation = Some (Itoa 1).
Proof.
  split; [exact pod0_allocation|].
  destruct (Allocate_annotations 1 (freshView (testnode 0)) pod0 pod0_retried
              view0_charged pod0_allocation) as (_ & Hnode & Hassigned & Htime & _).
  split; [exact Hnode|]. split; [exact Hassigned|exact Htime].
Defined.

(** X6 on pod-0 as Allocate returns it on the fresh testnode0. *)
Lemma allocated_pod_is_predicated_witness :
  Allocate 1 (freshView (testnode 0)) pod0 = Done (Ok pod0_retried, view0_charged) /\
  predicated pod0_retried = true.
Proof.
  split; [exact pod0_allocation|].
  exact (proj1 (allocated_pod_is_predicated (quietCluster []) 10 1
                  (freshView (testnode 0)) pod0 pod0_retried view0_charged
                  nodeList 0%nat pod0_allocation)).
Defined.

(** X7 on testnode0: the view built with the returned pod-0 on the node is
    the view that Allocate left. *)
Lemma replay_reproduces_allocation_witness :
  IsGPUEnabledNode (testnode 0) = true /\
  0 <= GetCapacityOfNode (testnode 0) VMemoryAnnotation /\
  predicated pod0 = false /\
  NewNodeInfo (testnode 0) [] = Done (freshView (testnode 0)) /\
  Allocate 1 (freshView (testnode 0)) pod0 = Done (Ok pod0_retried, view0_charged) /\
  NewNodeInfo (testnode 0) ([] ++ [pod0_retried]) = Done view0_charged.
Proof.
  assert (0 <= GetCapacityOfNode (testnode 0) VMemoryAnnotation) as Hmem
    by (vm_compute; discriminate).
  split; [reflexivity|]. split; [exact Hmem|]. split; [reflexivity|].
  split; [reflexivity|]. split; [exact pod0_allocation|].
  exact (replay_reproduces_allocation (testnode 0) [] (freshView (testnode 0)) 1
           pod0 pod0_retried view0_charged eq_refl Hmem eq_refl eq_refl
           pod0_allocation).
Defined.

(** X8 on the returned pod-0 and testnode0. *)
Lemma allocated_pod_listed_witness :
  Allocate 1 (freshView (testnode 0)) pod0 = Done (Ok pod0_retried, view0_charged) /\
  podNodeName pod0 = "" /\
  podPhase pod0 <> PodSucceeded /\ podPhase pod0 <> PodFailed /\
  (onNode (testnode 0) pod0_retried = true <->
   nodeName (testnode 0) = GetName (freshView (testnode 0)) \/ nodeName (testnode 0) = "").
Proof.
  assert (podPhase pod0 <> PodSucceeded) as Hs by discriminate.
  assert (podPhase pod0 <> PodFailed) as Hf by discriminate.
  split; [exact pod0_allocation|]. split; [reflexivity|].
  split; [exact Hs|]. split; [exact Hf|].
  exact (allocated_pod_listed 1 (freshView (testnode 0)) pod0 pod0_retried
           view0_charged (testnode 0) pod0_allocation eq_refl Hs Hf).
Defined.

(** X10 on the fresh testnode0 and pod-0. *)
Lemma Allocate_keeps_invariant_witness :
  wfNode (freshView (testnode 0)) /\
  exists r n',
    Allocate 1 (freshView (testnode 0)) pod0 = Done (r, n') /\ wfNode n'.
Proof.
  split; [exact (freshView_wf 0)|].
  destruct (Allocate_keeps_invariant 1 (freshView (testnode 0)) pod0 (freshView_wf 0))
    as (r & n' & Hrun & Hwf & _).
  exists r, n'. split; [exact Hrun|exact Hwf].
Defined.

(** X11 on the pod of two half-device containers without memory: it asks for
    GPU as a pod and is allocated without a reservation. *)
Lemma Allocate_without_gpu_container_witness :
  IsGPURequiredPod splitPod = true /\
  Forall (fun c => IsGPURequiredContainer c = false) (podContainers splitPod) /\
  exists pod', Allocate 1 (freshView (testnode 0)) splitPod
               = Done (Ok pod', freshView (testnode 0)).
Proof.
  assert (Forall (fun c => IsGPURequiredContainer c = false) (podContainers splitPod))
    as Hno by (repeat constructor).
  split; [reflexivity|]. split; [exact Hno|].
  eexists. exact (Allocate_without_gpu_container 1 (freshView (testnode 0)) splitPod Hno).
Defined.

(** X13 on pod-1 and its first container. *)
Lemma IsGPURequiredPod_of_container_witness :
  container "container-0" 100 3 ∈ podContainers pod1 /\
  IsGPURequiredContainer (container "container-0" 100 3) = true /\
  IsGPURequiredPod pod1 = true.
Proof.
  assert (container "container-0" 100 3 ∈ podContainers pod1) as Hin
    by apply list_elem_of_here.
  split; [exact Hin|]. split; [reflexivity|].
  apply (IsGPURequiredPod_of_container pod1 (container "container-0" 100 3) Hin eq_refl);
    vm_compute; reflexivity.
Defined.

(** X14 on device 0 of testnode0 after pod-0, asked for 30 cores and 1 unit
    of memory. *)
Lemma AddUsedResources_iff_allocatable_witness :
  within (device 0 4 2 20) /\
  ((util.AddUsedResources (device 0 4 2 20) 30 1).1 = None <->
   30 <= AllocatableCores (device 0 4 2 20) /\ 1 <= AllocatableMemory (device 0 4 2 20)).
Proof.
  assert (within (device 0 4 2 20)) as Hw
    by (unfold within, HundredCore; simpl; lia).
  split; [exact Hw|].
  apply (AddUsedResources_iff_allocatable (device 0 4 2 20) 30 1 Hw);
    simpl; pow2; lia.
Defined.

(** X15 on testnode0 after pod-0, for the GPU container of pod-3. *)
Lemma shareMode_best_fit_witness :
  wfNode view0_after_pod0 /\
  GetGPUResourceOfContainer (container "container-1" 10 2) VCoreAnnotation < HundredCore /\
  AllocateOne view0_after_pod0 (container "container-1" 10 2)
  = Done (Ok [device 0 4 2 20], view0_after_pod3) /\
  exists d, [device 0 4 2 20] = [d] /\
            GetDeviceMap view0_after_pod0 !! GetID d = Some d.
Proof.
  assert (GetGPUResourceOfContainer (container "container-1" 10 2) VCoreAnnotation
          < HundredCore) as Hlt by (vm_compute; reflexivity).
  assert (AllocateOne view0_after_pod0 (container "container-1" 10 2)
          = Done (Ok [device 0 4 2 20], view0_after_pod3)) as Hrun
    by (vm_compute; reflexivity).
  split; [exact view0_after_pod0_wf|]. split; [exact Hlt|]. split; [exact Hrun|].
  destruct (shareMode_best_fit view0_after_pod0 (container "container-1" 10 2)
              [device 0 4 2 20] view0_after_pod3 view0_after_pod0_wf Hlt Hrun)
    as (d & Hd & Hlk & _).
  exists d. split; [exact Hd|exact Hlk].
Defined.

(** X16 on the fresh testnode2: a request for 250 cores takes two devices.
    *)
Lemma exclusiveMode_rounds_down_witness :
  wfNode (freshView (testnode 2)) /\
  HundredCore <= GetGPUResourceOfContainer (container "container-0" 250 10) VCoreAnnotation /\
  AllocateOne (freshView (testnode 2)) (container "container-0" 250 10)
  = Done (Ok [device 0 4 0 0; device 1 4 0 0], view2_taken) /\
  Z.of_nat (length [device 0 4 0 0; device 1 4 0 0])
  = GetGPUResourceOfContainer (container "container-0" 250 10) VCoreAnnotation
    `div` HundredCore.
Proof.
  assert (HundredCore
          <= GetGPUResourceOfContainer (container "container-0" 250 10) VCoreAnnotation)
    as Hge by (vm_compute; discriminate).
  assert (AllocateOne (freshView (testnode 2)) (container "container-0" 250 10)
          = Done (Ok [device 0 4 0 0; device 1 4 0 0], view2_taken)) as Hrun
    by (vm_compute; reflexivity).
  split; [exact (freshView_wf 2)|]. split; [exact Hge|]. split; [exact Hrun|].
  exact (proj1 (exclusiveMode_rounds_down (freshView (testnode 2))
                  (container "container-0" 250 10)
                  [device 0 4 0 0; device 1 4 0 0] view2_taken
                  (freshView_wf 2) Hge Hrun)).
Defined.

(** X17 on the two devices of testnode0 after pod-0. *)
Lemma Less_devices_strict_order_witness :
  Less priority (device 0 4 2 20) (device 1 4 0 0) = true /\
  Less priority (device 1 4 0 0) (device 0 4 2 20) = false.
Proof.
  assert (Less priority (device 0 4 2 20) (device 1 4 0 0) = true) as H
    by reflexivity.
  split; [exact H|].
  exact (proj1 (proj2 Less_devices_strict_order) _ _ H).
Defined.

(** X18 on testnode0 after pod-0 and the fresh testnode1. *)
Lemma Less_nodes_strict_order_witness :
  Less priority view0_charged (freshView (testnode 1)) = true /\
  Less priority (freshView (testnode 1)) view0_charged = false.
Proof.
  assert (Less priority view0_charged (freshView (testnode 1)) = true) as H
    by (vm_compute; reflexivity).
  split; [exact H|].
  exact (proj1 (proj2 Less_nodes_strict_order) _ _ H).
Defined.

(** X20 on testnode0 and a node without GPU. *)
Lemma Handler_scores_witness :
  IsGPUEnabledNode cpuNode = false /\ IsGPUEnabledNode (testnode 0) = true /\
  forall pc pg,
    (prioritize.Handler [testnode 0; cpuNode]).1 !! 1%nat = Some pc ->
    (prioritize.Handler [testnode 0; cpuNode]).1 !! 0%nat = Some pg ->
    prioritize.Score pg < prioritize.Score pc.
Proof.
  split; [reflexivity|]. split; [reflexivity|].
  intros pc pg.
  exact (proj2 (proj2 (proj2 (Handler_scores [testnode 0; cpuNode])))
           1%nat 0%nat cpuNode (testnode 0) pc pg eq_refl eq_refl eq_refl eq_refl).
Defined.

(** X21 on a flag name without underscore. *)
Lemma wordSepNormalizeFunc_normal_witness :
  Contains "logtostderr" "_" = false /\
  main.wordSepNormalizeFunc "logtostderr" = "logtostderr".
Proof.
  split; [reflexivity|].
  exact (proj1 (proj2 (proj2 (wordSepNormalizeFunc_normal "logtostderr"))) eq_refl).
Defined.

(** X22 on an API server that answers every request with Conflict: with
    10 ticks the write-back fails after 12 requests. *)
Lemma patch_request_count_witness :
  is_Some (patchPodWithAnnotations conflictCluster 10 pod0_retried ∅ 0).1 /\
  (patchPodWithAnnotations conflictCluster 10 pod0_retried ∅ 0).2 = 12%nat.
Proof.
  assert (is_Some (patchPodWithAnnotations conflictCluster 10 pod0_retried ∅ 0).1)
    as Hfail by (vm_compute; eauto).
  split; [exact Hfail|].
  destruct (proj2 (proj2 (proj2 (patch_request_count conflictCluster 10 pod0_retried ∅ 0)))
              Hfail) as [(e & He & Hno)|[Hcount _]].
  - exfalso. simpl in He. injection He as <-. discriminate Hno.
  - exact Hcount.
Defined.

(** X23 on the first request of the repository's test. *)
Lemma Filter_returns_request_nodes_witness :
  exists r s' l,
    predicate_v1.Filter (quietCluster []) 10 1 pod0 nodeList 0 = Done (r, s') /\
    Nodes r = Some l /\ l ⊆ nodeList.
Proof.
  destruct (predicate_v1.Filter (quietCluster []) 10 1 pod0 nodeList 0)
    as [[r s']|] eqn:E; [|vm_compute in E; discriminate].
  destruct (Nodes r) as [l|] eqn:El.
  2:{ exfalso. vm_compute in E. injection E as <- _. discriminate. }
  exists r, s', l. split; [reflexivity|]. split; [exact El|].
  exact (proj1 (proj1 (Filter_returns_request_nodes testConf (fun _ => true)
                         (fun _ => true) (quietCluster []) 10 1 syncedFilter
                         pod0 nodeList 0)
                  r s' l E El)).
Defined.

(** X24 on the M40 cluster with one bound and one unbound pod. *)
Lemma quota_ignores_unbound_pods_witness :
  nodeLister (m40cluster [firstWholeGPUPod; pod0_retried]) = Ok m40nodes /\
  Forall (fun nd => nodeName nd <> "") m40nodes /\
  podLister (m40cluster [firstWholeGPUPod; pod0_retried])
  = Ok [firstWholeGPUPod; pod0_retried] /\
  predicate.quotaFilter testConf (fun _ => true) (fun _ => true)
    (m40cluster [firstWholeGPUPod; pod0_retried]) quotaFilterM40 (wholeGPUPod 1) m40nodes
  = predicate.quotaFilter testConf (fun _ => true) (fun _ => true)
      {| podLister :=
           Ok (List.filter (fun p => negb (String.eqb (podNodeName p) ""))
                           [firstWholeGPUPod; pod0_retried]);
         nodeLister := Ok m40nodes;
         patchReply := patchReply (m40cluster [firstWholeGPUPod; pod0_retried]) |}
      quotaFilterM40 (wholeGPUPod 1) m40nodes.
Proof.
  assert (Forall (fun nd => nodeName nd <> "") m40nodes) as Hnames
    by (repeat constructor; discriminate).
  split; [reflexivity|]. split; [exact Hnames|]. split; [reflexivity|].
  exact (quota_ignores_unbound_pods testConf (fun _ => true) (fun _ => true)
           (m40cluster [firstWholeGPUPod; pod0_retried]) quotaFilterM40
           (wholeGPUPod 1) m40nodes m40nodes [firstWholeGPUPod; pod0_retried]
           eq_refl Hnames eq_refl).
Defined.

(** X25 on the three test nodes with the first two swapped. *)
Lemma deviceFilter_order_independent_witness :
  nodeList ≡ₚ [testnode 1; testnode 0; testnode 2] /\
  NoDup (nodeName <$> nodeList) /\
  forall r,
    predicate.deviceFilter (quietCluster []) 10 1 pod0 nodeList 0 = Done r ->
    predicate.deviceFilter (quietCluster []) 10 1 pod0
      [testnode 1; testnode 0; testnode 2] 0 = Done r.
Proof.
  assert (nodeList ≡ₚ [testnode 1; testnode 0; testnode 2]) as Hperm
    by apply perm_swap.
  assert (NoDup (nodeName <$> nodeList)) as Hnd
    by (apply (bool_decide_unpack (NoDup (nodeName <$> nodeList))); vm_compute; exact I).
  split; [exact Hperm|]. split; [exact Hnd|].
  exact (proj2 (deviceFilter_order_independent (quietCluster []) 10 1 pod0 nodeList
                  [testnode 1; testnode 0; testnode 2] 0 Hperm Hnd)).
Defined.

(** X26 on testnode0 with pod-0 finished: the filter answers as on the empty
    cluster. *)
Lemma finished_pods_hold_no_device_witness :
  podLister (quietCluster [pod0_finished]) = Ok [pod0_finished] /\
  predicate.deviceFilter (quietCluster []) 10 1 pod3 nodeList 0
  = predicate.deviceFilter (quietCluster [pod0_finished]) 10 1 pod3 nodeList 0.
Proof.
  split; [reflexivity|].
  exact (proj2 (finished_pods_hold_no_device (quietCluster [pod0_finished]) 10 1
                  pod3 nodeList 0 [pod0_finished] eq_refl)).
Defined.

(** X19 on the first container of pod-0. *)
Lemma Allocate_index_annotations_witness :
  wfNode (freshView (testnode 0)) /\
  predicated pod0 = false /\
  Allocate 1 (freshView (testnode 0)) pod0 = Done (Ok pod0_retried, view0_charged) /\
  (0, container "container-0" 10 1) ∈ indexed (podContainers pod0) /\
  exists ids,
    GetPredicateIdxOfContainer pod0_retried 0 = (ids, None) /\ ids <> [] /\ NoDup ids.
Proof.
  assert ((0, container "container-0" 10 1) ∈ indexed (podContainers pod0)) as Hin
    by apply list_elem_of_here.
  split; [exact (freshView_wf 0)|]. split; [reflexivity|].
  split; [exact pod0_allocation|]. split; [exact Hin|].
  destruct (Allocate_index_annotations 1 (freshView (testnode 0)) pod0 pod0_retried
              view0_charged (freshView_wf 0) eq_refl pod0_allocation
              0 (container "container-0" 10 1) Hin)
    as (ids & Hread & Hne & Hnd & _).
  exists ids. split; [exact Hread|]. split; [exact Hne|exact Hnd].
Defined.

End FixtureProps.
